(** * CipherLink: the end-to-end encryption core

    A shallow embedding of the client's cryptography utilities,
    client/src/lib/crypto.js (src/unnamed/part_002), and of the parts of
    the two stores that call them: client/src/stores/chatStore.js
    (src/unnamed/part_007) and client/src/stores/authStore.js; then of the
    chat components and the helpers of client/src/lib/utils.js that stand
    between the stores and the user, and of the server's checks of a login
    (src/routes/auth.routes.js) and of a message (src/models/Chat.model.js,
    src/routes/chat.routes.js).

    The Web platform's text functions (TextEncoder, TextDecoder, btoa, atob,
    Array.prototype.sort) are modelled after their standards.  The
    primitives of [crypto.subtle] are an interface, [Platform]; the laws of
    ECDH and AES-GCM that a theorem relies on are its hypotheses.  So are
    [String.prototype.toUpperCase] ([Casing]) and Node's hexadecimal
    decoding ([Node]). *)

From Stdlib Require Import ZArith List Lia Bool String Ascii.
From stdpp Require Import base option list strings gmap.
Import ListNotations.

Local Open Scope Z_scope.

(* ====================================================================== *)
(** * Part I. Definitions                                                   *)
(* ====================================================================== *)

(** ** Bytes, strings and rejected promises *)

(** An element of a [Uint8Array]. *)
Definition byte : Type := Byte.byte.

Definition Z_of_byte (b : byte) : Z := Z.of_N (Byte.to_N b).

(** Storing a number into a [Uint8Array] keeps its low eight bits. *)
Definition byte_of_Z (z : Z) : byte :=
  default Byte.x00 (Byte.of_N (Z.to_N (z mod 256))).

(** A JavaScript string: its sequence of UTF-16 code units. *)
Definition jsstring : Type := list Z.

(** String literals of the source, as code units. *)
Definition str (s : string) : jsstring :=
  map (fun a => Z.of_N (N_of_ascii a)) (list_ascii_of_string s).

(** The exceptions the modelled functions can raise. *)
Inductive exn : Type :=
| InvalidCharacterError   (* atob / btoa *)
| OperationError          (* crypto.subtle.decrypt: authentication failed *)
| DataError               (* crypto.subtle.importKey: malformed key *)
| SyntaxError.            (* JSON.parse *)

(** The settled value of a promise: fulfilled or rejected. *)
Inductive result (A : Type) : Type :=
| Ok (a : A)
| Throw (e : exn).
Arguments Ok {A} a.
Arguments Throw {A} e.

Definition rbind {A B} (r : result A) (f : A -> result B) : result B :=
  match r with
  | Ok a => f a
  | Throw e => Throw e
  end.

Notation "'await' x <- r ; k" := (rbind r (fun x => k))
  (at level 10, x name, r at level 100, k at level 200).

(** ** TextEncoder and TextDecoder (WHATWG Encoding Standard, UTF-8) *)

Definition is_high_surrogate (u : Z) : bool := (0xD800 <=? u) && (u <=? 0xDBFF).
Definition is_low_surrogate (u : Z) : bool := (0xDC00 <=? u) && (u <=? 0xDFFF).

(** Conversion of a string to scalar values: a surrogate pair is one code
    point, an unpaired surrogate becomes U+FFFD. *)
Fixpoint code_points (s : jsstring) : list Z :=
  match s with
  | [] => []
  | u :: rest =>
      if is_high_surrogate u then
        match rest with
        | v :: rest' =>
            if is_low_surrogate v
            then (0x10000 + (u - 0xD800) * 0x400 + (v - 0xDC00)) :: code_points rest'
            else 0xFFFD :: code_points rest
        | [] => [0xFFFD]
        end
      else if is_low_surrogate u then 0xFFFD :: code_points rest
      else u :: code_points rest
  end.

(** A continuation byte: [0x80 | (temp & 0x3F)]. *)
Definition utf8_cont (temp : Z) : byte := byte_of_Z (Z.lor 0x80 (Z.land temp 0x3F)).

(** The UTF-8 encoder: [(code point >> (6 * count)) + offset], then the
    continuation bytes. *)
Definition utf8_encode_cp (c : Z) : list byte :=
  if c <? 0x80 then [byte_of_Z c]
  else if c <? 0x800 then
    [byte_of_Z (Z.shiftr c 6 + 0xC0); utf8_cont c]
  else if c <? 0x10000 then
    [byte_of_Z (Z.shiftr c 12 + 0xE0); utf8_cont (Z.shiftr c 6); utf8_cont c]
  else
    [byte_of_Z (Z.shiftr c 18 + 0xF0); utf8_cont (Z.shiftr c 12);
     utf8_cont (Z.shiftr c 6); utf8_cont c].

Definition TextEncoder_encode (s : jsstring) : list byte :=
  flat_map utf8_encode_cp (code_points s).

(** The state of the UTF-8 decoder. *)
Record utf8_state : Type := {
  u_cp : Z;
  u_seen : Z;
  u_needed : Z;
  u_lower : Z;
  u_upper : Z
}.

Definition utf8_init : utf8_state :=
  {| u_cp := 0; u_seen := 0; u_needed := 0; u_lower := 0x80; u_upper := 0xBF |}.

(** The decoder on a byte read while no sequence is open. *)
Definition utf8_lead (b : Z) : list Z * utf8_state :=
  if b <=? 0x7F then ([b], utf8_init)
  else if (0xC2 <=? b) && (b <=? 0xDF) then
    ([], {| u_cp := Z.land b 0x1F; u_seen := 0; u_needed := 1;
            u_lower := 0x80; u_upper := 0xBF |})
  else if (0xE0 <=? b) && (b <=? 0xEF) then
    ([], {| u_cp := Z.land b 0xF; u_seen := 0; u_needed := 2;
            u_lower := if b =? 0xE0 then 0xA0 else 0x80;
            u_upper := if b =? 0xED then 0x9F else 0xBF |})
  else if (0xF0 <=? b) && (b <=? 0xF4) then
    ([], {| u_cp := Z.land b 0x7; u_seen := 0; u_needed := 3;
            u_lower := if b =? 0xF0 then 0x90 else 0x80;
            u_upper := if b =? 0xF4 then 0x8F else 0xBF |})
  else ([0xFFFD], utf8_init).

(** One step of the decoder.  A byte outside the expected range ends the
    open sequence with U+FFFD and is read again as a lead byte. *)
Definition utf8_step (st : utf8_state) (b : Z) : list Z * utf8_state :=
  if u_needed st =? 0 then utf8_lead b
  else if negb ((u_lower st <=? b) && (b <=? u_upper st)) then
    let '(out, st') := utf8_lead b in (0xFFFD :: out, st')
  else
    let cp := Z.lor (Z.shiftl (u_cp st) 6) (Z.land b 0x3F) in
    if u_seen st + 1 =? u_needed st then ([cp], utf8_init)
    else ([], {| u_cp := cp; u_seen := u_seen st + 1; u_needed := u_needed st;
                 u_lower := 0x80; u_upper := 0xBF |}).

Fixpoint utf8_run (st : utf8_state) (bs : list byte) : list Z :=
  match bs with
  | [] => if u_needed st =? 0 then [] else [0xFFFD]
  | b :: rest =>
      let '(out, st') := utf8_step st (Z_of_byte b) in
      out ++ utf8_run st' rest
  end.

(** The code units of a code point ([String.fromCodePoint]). *)
Definition utf16_units (c : Z) : list Z :=
  if c <? 0x10000 then [c]
  else [0xD800 + Z.shiftr (c - 0x10000) 10; 0xDC00 + Z.land (c - 0x10000) 0x3FF].

(** A decoder built with the default [ignoreBOM: false] drops a leading
    byte order mark U+FEFF from its output. *)
Definition strip_bom (cps : list Z) : list Z :=
  match cps with
  | c :: rest => if c =? 0xFEFF then rest else cps
  | [] => []
  end.

Definition TextDecoder_decode (bs : list byte) : jsstring :=
  flat_map utf16_units (strip_bom (utf8_run utf8_init bs)).

(** A string with no unpaired surrogate: the strings that have a UTF-8 form. *)
Fixpoint well_formed (s : jsstring) : bool :=
  match s with
  | [] => true
  | u :: rest =>
      if is_high_surrogate u then
        match rest with
        | v :: rest' => is_low_surrogate v && well_formed rest'
        | [] => false
        end
      else negb (is_low_surrogate u) && (0 <=? u) && (u <=? 0xFFFF) && well_formed rest
  end.

(** crypto.js, lines 58-67. *)
Definition stringToArrayBuffer (s : jsstring) : list byte := TextEncoder_encode s.
Definition arrayBufferToString (buffer : list byte) : jsstring := TextDecoder_decode buffer.

(** A Unicode scalar value: a code point that is no surrogate. *)
Definition scalar_value (c : Z) : Prop :=
  0 <= c < 0xD800 \/ 0xE000 <= c <= 0x10FFFF.

(** What a string becomes when it is encoded and decoded again. *)
Definition without_bom (s : jsstring) : jsstring :=
  match s with
  | u :: rest => if u =? 0xFEFF then rest else s
  | [] => []
  end.

(** ** btoa and atob (WHATWG forgiving-base64) *)

(** The base64 alphabet: A-Z, a-z, 0-9, +, /. *)
Definition b64_char (n : Z) : Z :=
  if n <? 26 then 65 + n
  else if n <? 52 then 97 + (n - 26)
  else if n <? 62 then 48 + (n - 52)
  else if n =? 62 then 43
  else 47.

Definition b64_index (c : Z) : option Z :=
  if (65 <=? c) && (c <=? 90) then Some (c - 65)
  else if (97 <=? c) && (c <=? 122) then Some (c - 71)
  else if (48 <=? c) && (c <=? 57) then Some (c + 4)
  else if c =? 43 then Some 62
  else if c =? 47 then Some 63
  else None.

(** The six-bit groups of a byte sequence; a last group of one or two bytes
    is filled with zero bits. *)
Fixpoint b64_sextets (bs : list byte) : list Z :=
  match bs with
  | [] => []
  | [b1] =>
      let n := Z_of_byte b1 * 16 in
      [n / 64; n mod 64]
  | [b1; b2] =>
      let n := (Z_of_byte b1 * 256 + Z_of_byte b2) * 4 in
      [n / 4096; (n / 64) mod 64; n mod 64]
  | b1 :: b2 :: b3 :: rest =>
      let n := (Z_of_byte b1 * 256 + Z_of_byte b2) * 256 + Z_of_byte b3 in
      n / 262144 :: (n / 4096) mod 64 :: (n / 64) mod 64 :: n mod 64
        :: b64_sextets rest
  end.

(** The [=] signs that fill the output to a multiple of four characters. *)
Fixpoint b64_padding (bs : list byte) : jsstring :=
  match bs with
  | [] => []
  | [_] => [61; 61]
  | [_; _] => [61]
  | _ :: _ :: _ :: rest => b64_padding rest
  end.

Definition base64_encode (bs : list byte) : jsstring :=
  map b64_char (b64_sextets bs) ++ b64_padding bs.

(** [btoa]: its argument is a binary string, every code unit at most 0xFF. *)
Definition btoa (binary : jsstring) : result jsstring :=
  if forallb (fun u => (0 <=? u) && (u <=? 0xFF)) binary
  then Ok (base64_encode (map byte_of_Z binary))
  else Throw InvalidCharacterError.

Definition is_ascii_whitespace (c : Z) : bool :=
  (c =? 9) || (c =? 10) || (c =? 12) || (c =? 13) || (c =? 32).

Definition drop_trailing_pad (s : jsstring) : jsstring :=
  match rev s with
  | c :: r => if c =? 61 then rev r else s
  | [] => s
  end.

Fixpoint b64_indices (s : jsstring) : option (list Z) :=
  match s with
  | [] => Some []
  | c :: rest =>
      match b64_index c, b64_indices rest with
      | Some i, Some l => Some (i :: l)
      | _, _ => None
      end
  end.

(** Groups of four characters give three bytes; a rest of two or three
    characters gives one or two bytes, its last bits dropped. *)
Fixpoint b64_decode_groups (cs : list Z) : list byte :=
  match cs with
  | c1 :: c2 :: c3 :: c4 :: rest =>
      let n := ((c1 * 64 + c2) * 64 + c3) * 64 + c4 in
      byte_of_Z (n / 65536) :: byte_of_Z (n / 256) :: byte_of_Z n
        :: b64_decode_groups rest
  | [c1; c2; c3] =>
      let n := ((c1 * 64 + c2) * 64 + c3) / 4 in
      [byte_of_Z (n / 256); byte_of_Z n]
  | [c1; c2] =>
      let n := (c1 * 64 + c2) / 16 in
      [byte_of_Z n]
  | _ => []
  end.

(** [atob]: white space is removed, one or two closing [=] are removed from
    a text of a multiple of four characters, and what is left must be base64
    characters, not one more than a multiple of four. *)
Definition atob (data : jsstring) : result jsstring :=
  let data := List.filter (fun c => negb (is_ascii_whitespace c)) data in
  let data :=
    if Z.of_nat (length data) mod 4 =? 0
    then drop_trailing_pad (drop_trailing_pad data)
    else data in
  if Z.of_nat (length data) mod 4 =? 1 then Throw InvalidCharacterError
  else
    match b64_indices data with
    | Some cs => Ok (map Z_of_byte (b64_decode_groups cs))
    | None => Throw InvalidCharacterError
    end.

(** crypto.js, lines 34-41: a binary string built with
    [String.fromCharCode], then [btoa]. *)
Definition arrayBufferToBase64 (buffer : list byte) : result jsstring :=
  let binary := map Z_of_byte buffer in
  btoa binary.

(** crypto.js, lines 46-53: [atob], then [charCodeAt] into a [Uint8Array]. *)
Definition base64ToArrayBuffer (base64 : jsstring) : result (list byte) :=
  await binary <- atob base64;
  Ok (map byte_of_Z binary).

(** A six-bit group. *)
Definition sextet (n : Z) : Prop := 0 <= n < 64.

(** ** Values and objects *)

(** The values a message or a user record holds.  A number is given by its
    decimal text ([Number::toString]), which is all the code reads of it. *)
Inductive jsval : Type :=
| VUndefined
| VNull
| VBool (b : bool)
| VNum (text : jsstring)
| VStr (s : jsstring).

(** A plain object: its own properties. *)
Abbreviation jsobject := (gmap string jsval).

(** Reading a property; one that is absent reads [undefined]. *)
Definition get (o : jsobject) (k : string) : jsval := default VUndefined (o !! k).

(** Reading a property of a chat mate that may be [null]: [mate?.k]. *)
Definition get_opt (o : option jsobject) (k : string) : jsval :=
  match o with
  | Some o => get o k
  | None => VUndefined
  end.

(** The abstract operations [ToString] and [ToBoolean] of the language. *)
Definition ToString (v : jsval) : jsstring :=
  match v with
  | VUndefined => str "undefined"
  | VNull => str "null"
  | VBool true => str "true"
  | VBool false => str "false"
  | VNum text => text
  | VStr s => s
  end.

Definition ToBoolean (v : jsval) : bool :=
  match v with
  | VUndefined | VNull => false
  | VBool b => b
  | VNum text => negb (bool_decide (text = str "0" \/ text = str "NaN"))
  | VStr s => match s with [] => false | _ => true end
  end.

(** [a || b]. *)
Definition js_or (a b : jsval) : jsval := if ToBoolean a then a else b.

(** The argument of [TextEncoder.encode] is optional and defaults to the
    empty string, so [undefined] encodes to no bytes. *)
Definition encode_arg (v : jsval) : jsstring :=
  match v with
  | VUndefined => []
  | _ => ToString v
  end.

(** ** Randomness *)

(** The state of [crypto.getRandomValues]: the bytes it has yet to hand out. *)
Definition entropy : Type := nat -> byte.

Definition IV_LENGTH : nat := 12.
Definition AES_KEY_LENGTH : Z := 256.
Definition PBKDF2_ITERATIONS_CLIENT : Z := 25000.

(** crypto.js, lines 93-95. *)
Definition getRandomBytes (length : nat) (e : entropy) : list byte * entropy :=
  (map e (seq 0 length), fun i => e (length + i)%nat).

(** An asynchronous computation that draws random bytes and may reject. *)
Definition io (A : Type) : Type := entropy -> result A * entropy.

Definition io_ret {A} (a : A) : io A := fun e => (Ok a, e).

Definition io_bind {A B} (m : io A) (f : A -> io B) : io B :=
  fun e =>
    match m e with
    | (Ok a, e') => f a e'
    | (Throw x, e') => (Throw x, e')
    end.

Definition io_lift {A} (r : result A) : io A := fun e => (r, e).

Definition io_random (length : nat) : io (list byte) :=
  fun e => let '(bs, e') := getRandomBytes length e in (Ok bs, e').

Notation "'await!' x <- m ; k" := (io_bind m (fun x => k))
  (at level 10, x name, m at level 100, k at level 200).

(** ** The host's primitives

    [crypto.subtle] and [String.prototype.toLowerCase] are the platform's:
    the code composes them.  ECDH is given by the curve's scalar
    multiplication, AES-GCM and PBKDF2 by their input-output behaviour. *)
Class Platform : Type := {
  (** P-521: points, the generator, [d]P, and the x-coordinate's octets. *)
  ec_point : Type;
  ec_base : ec_point;
  ec_mul : Z -> ec_point -> ec_point;
  ec_x : ec_point -> list byte;
  (** [generateKey({name: 'ECDH', namedCurve: 'P-521'})]: a private scalar. *)
  ec_generate : entropy -> Z * entropy;
  (** [exportKey('jwk')] then [JSON.stringify]; [JSON.parse] then
      [importKey('jwk')]. *)
  jwk_export_private : Z -> jsstring;
  jwk_export_public : ec_point -> jsstring;
  jwk_import_private : jsstring -> result Z;
  jwk_import_public : jsstring -> result ec_point;
  (** AES-GCM keys, from raw key bits; sealing yields ciphertext and tag. *)
  aes_key : Type;
  aes_import : list byte -> aes_key;
  gcm_encrypt : aes_key -> list byte -> list byte -> list byte;
  gcm_decrypt : aes_key -> list byte -> list byte -> option (list byte);
  (** PBKDF2 with HMAC-SHA-512: password, salt, iterations, output bits. *)
  pbkdf2_sha512 : list byte -> list byte -> Z -> Z -> list byte;
  digest_sha256 : list byte -> list byte;
  digest_sha512 : list byte -> list byte;
  toLowerCase : jsstring -> jsstring
}.

(** The laws of the primitives that the theorems below rely on. *)

(** Scalar multiplication composes: [a]([b]P) = [ab]P. *)
Definition ec_mul_law {host : Platform} : Prop :=
  forall (a b : Z) (P : ec_point), ec_mul a (ec_mul b P) = ec_mul (a * b) P.

(** Opening what was sealed under the same key and IV gives the plaintext. *)
Definition gcm_correct {host : Platform} : Prop :=
  forall k iv p, gcm_decrypt k iv (gcm_encrypt k iv p) = Some p.

(** A sealed text with one byte changed, in the ciphertext or in the tag, is
    rejected. *)
Definition gcm_integrity {host : Platform} : Prop :=
  forall k iv p (j : nat) (b b' : byte),
    gcm_encrypt k iv p !! j = Some b -> b' <> b ->
    gcm_decrypt k iv (<[j := b']> (gcm_encrypt k iv p)) = None.


(** ** crypto.js *)

Section Crypto.
Context {host : Platform}.

(** [n.toString(16)] for a byte: one or two lower-case digits. *)
Definition hex_digit (n : Z) : Z := if n <? 10 then 48 + n else 97 + (n - 10).

Definition toString16 (n : Z) : jsstring :=
  if n <? 16 then [hex_digit n] else [hex_digit (n / 16); hex_digit (n mod 16)].

(** [s.padStart(2, '0')]. *)
Definition padStart2 (s : jsstring) : jsstring :=
  repeat 48 (2 - length s)%nat ++ s.

(** crypto.js, lines 72-77. *)
Definition arrayBufferToHex (buffer : list byte) : jsstring :=
  flat_map (fun b => padStart2 (toString16 (Z_of_byte b))) buffer.

(** crypto.js, lines 106-110, on a string argument. *)
Definition sha256 (data : jsstring) : jsstring :=
  let buffer := stringToArrayBuffer data in
  let hashBuffer := digest_sha256 buffer in
  arrayBufferToHex hashBuffer.

(** crypto.js, lines 117-121. *)
Definition sha512 (data : jsstring) : jsstring :=
  let buffer := stringToArrayBuffer data in
  let hashBuffer := digest_sha512 buffer in
  arrayBufferToHex hashBuffer.

(** crypto.js, lines 139-162. *)
Definition pbkdf2 (password salt : jsstring) (iterations keyLength : Z) : jsstring :=
  let keyMaterial := stringToArrayBuffer password in
  let derivedBits :=
    pbkdf2_sha512 keyMaterial (stringToArrayBuffer salt) iterations keyLength in
  arrayBufferToHex derivedBits.

(** crypto.js, lines 167-188. *)
Definition deriveAESKeyFromPassword (password salt : jsstring) : aes_key :=
  let keyMaterial := stringToArrayBuffer password in
  aes_import
    (pbkdf2_sha512 keyMaterial (stringToArrayBuffer salt)
       PBKDF2_ITERATIONS_CLIENT AES_KEY_LENGTH).

(** A key pair as the code passes it around: two JWK texts. *)
Record KeyPair : Type := {
  publicKey : jsstring;
  privateKey : jsstring
}.

(** crypto.js, lines 201-219. *)
Definition generateECDHKeyPair : io KeyPair :=
  fun e =>
    let '(d, e') := ec_generate e in
    (Ok {| publicKey := jwk_export_public (ec_mul d ec_base);
           privateKey := jwk_export_private d |}, e').

(** crypto.js, lines 224-247. *)
Definition importECDHPublicKey (publicKeyJson : jsstring) : result ec_point :=
  jwk_import_public publicKeyJson.

Definition importECDHPrivateKey (privateKeyJson : jsstring) : result Z :=
  jwk_import_private privateKeyJson.

(** ECDH [deriveBits]: the leading octets of the shared point's x-coordinate. *)
Definition ecdh_bits (d : Z) (Q : ec_point) (bits : Z) : list byte :=
  firstn (Z.to_nat (bits / 8)) (ec_x (ec_mul d Q)).

(** crypto.js, lines 259-274. *)
Definition deriveSharedSecret (privateKeyJson publicKeyJson : jsstring)
  : result aes_key :=
  await privateKey <- importECDHPrivateKey privateKeyJson;
  await publicKey <- importECDHPublicKey publicKeyJson;
  Ok (aes_import (ecdh_bits privateKey publicKey AES_KEY_LENGTH)).

(** crypto.js, lines 279-293. *)
Definition deriveSharedSecretHex (privateKeyJson publicKeyJson : jsstring)
  : result jsstring :=
  await privateKey <- importECDHPrivateKey privateKeyJson;
  await publicKey <- importECDHPublicKey publicKeyJson;
  let sharedBits := ecdh_bits privateKey publicKey 256 in
  Ok (arrayBufferToHex sharedBits).

(** crypto.js, lines 306-325. *)
Definition aesEncrypt (plaintext : jsstring) (key : aes_key) : io jsstring :=
  await! iv <- io_random IV_LENGTH;
  let plaintextBuffer := stringToArrayBuffer plaintext in
  let ciphertext := gcm_encrypt key iv plaintextBuffer in
  let combined := iv ++ ciphertext in
  io_lift (arrayBufferToBase64 combined).

(** [crypto.subtle.decrypt]: rejects when the tag does not authenticate. *)
Definition subtle_decrypt (key : aes_key) (iv ciphertext : list byte)
  : result (list byte) :=
  match gcm_decrypt key iv ciphertext with
  | Some plaintext => Ok plaintext
  | None => Throw OperationError
  end.

(** crypto.js, lines 334-351. *)
Definition aesDecrypt (ciphertextBase64 : jsstring) (key : aes_key)
  : result jsstring :=
  await combined <- base64ToArrayBuffer ciphertextBase64;
  let iv := firstn IV_LENGTH combined in
  let ciphertext := skipn IV_LENGTH combined in
  await plaintextBuffer <- subtle_decrypt key iv ciphertext;
  Ok (arrayBufferToString plaintextBuffer).

(** crypto.js, lines 356-367. *)
Definition encryptWithSharedSecret (plaintext privateKeyJson publicKeyJson : jsstring)
  : io jsstring :=
  await! sharedKey <- io_lift (deriveSharedSecret privateKeyJson publicKeyJson);
  aesEncrypt plaintext sharedKey.

Definition decryptWithSharedSecret (ciphertext privateKeyJson publicKeyJson : jsstring)
  : result jsstring :=
  await sharedKey <- deriveSharedSecret privateKeyJson publicKeyJson;
  aesDecrypt ciphertext sharedKey.

(** crypto.js, lines 382-398. *)
Definition encryptPrivateKey (privateKeyJson passphrase salt : jsstring)
  : io jsstring :=
  let key := deriveAESKeyFromPassword passphrase salt in
  aesEncrypt privateKeyJson key.

Definition decryptPrivateKey (encryptedPrivateKey passphrase salt : jsstring)
  : result jsstring :=
  let key := deriveAESKeyFromPassword passphrase salt in
  aesDecrypt encryptedPrivateKey key.

(** The order of [Array.prototype.sort] without a comparator: strings by
    their code units, a proper prefix first. *)
Fixpoint js_string_lt (a b : jsstring) : bool :=
  match a, b with
  | [], [] => false
  | [], _ :: _ => true
  | _ :: _, [] => false
  | x :: a', y :: b' =>
      if x <? y then true
      else if y <? x then false
      else js_string_lt a' b'
  end.

(** [Array.prototype.sort], which is stable: each element goes behind the
    elements that are not greater. *)
Fixpoint sort_insert (x : jsstring) (sorted : list jsstring) : list jsstring :=
  match sorted with
  | [] => [x]
  | y :: rest =>
      if js_string_lt x y then x :: y :: rest
      else y :: sort_insert x rest
  end.

Definition Array_sort (l : list jsstring) : list jsstring :=
  fold_left (fun sorted x => sort_insert x sorted) l [].

(** [Array.prototype.join]. *)
Fixpoint Array_join (sep : jsstring) (l : list jsstring) : jsstring :=
  match l with
  | [] => []
  | [x] => x
  | x :: rest => x ++ sep ++ Array_join sep rest
  end.

(** crypto.js, lines 413-418. *)
Definition generateChannelId (publicKeyHash1 publicKeyHash2 : jsstring) : jsstring :=
  let sorted := Array_sort [publicKeyHash1; publicKeyHash2] in
  let combined := Array_join (str ":") sorted in
  sha256 combined.

(** crypto.js, lines 433-445. *)
Definition encryptMessage (messageData : jsobject)
    (privateKeyJson receiverPublicKeyJson : jsstring) : io jsobject :=
  await! sharedKey <- io_lift (deriveSharedSecret privateKeyJson receiverPublicKeyJson);
  await! senderName <- aesEncrypt (encode_arg (get messageData "senderName")) sharedKey;
  await! message <- aesEncrypt (encode_arg (get messageData "message")) sharedKey;
  await! timestamp <- aesEncrypt (encode_arg (get messageData "timestamp")) sharedKey;
  io_ret
    (<["senderName" := VStr senderName]>
     (<["message" := VStr message]>
      (<["timestamp" := VStr timestamp]>
       (<["channel" := get messageData "channel"]>
        (<["senderPublicKeyHash" := get messageData "senderPublicKeyHash"]>
         (<["receiverPublicKeyHash" := get messageData "receiverPublicKeyHash"]>
          (<["messageType" := VStr (str "encrypted")]> (∅ : jsobject)))))))).

(** The body of the [try] block of [decryptMessage]. *)
Definition decryptMessage_try (encryptedMessage : jsobject)
    (privateKeyJson senderPublicKeyJson : jsstring) : result jsobject :=
  await sharedKey <- deriveSharedSecret privateKeyJson senderPublicKeyJson;
  await senderName <- aesDecrypt (ToString (get encryptedMessage "senderName")) sharedKey;
  await message <- aesDecrypt (ToString (get encryptedMessage "message")) sharedKey;
  await timestamp <- aesDecrypt (ToString (get encryptedMessage "timestamp")) sharedKey;
  Ok (<["decrypted" := VBool true]>
      (<["timestamp" := VStr timestamp]>
       (<["message" := VStr message]>
        (<["senderName" := VStr senderName]> encryptedMessage)))).

(** crypto.js, lines 455-474. *)
Definition decryptMessage (encryptedMessage : jsobject)
    (privateKeyJson senderPublicKeyJson : jsstring) : jsobject :=
  match decryptMessage_try encryptedMessage privateKeyJson senderPublicKeyJson with
  | Ok decryptedMessage => decryptedMessage
  | Throw error =>
      <["decryptionError" := VBool true]>
        (<["decrypted" := VBool false]> encryptedMessage)
  end.

(** crypto.js, lines 483-486. *)
Definition verifyPublicKeyHash (publicKeyJson expectedHash : jsstring) : bool :=
  let computedHash := sha256 publicKeyJson in
  bool_decide (computedHash = expectedHash).

End Crypto.

(** ** chatStore.js and authStore.js *)

Section Stores.
Context {host : Platform}.

(** The part of the chat store that [sendMessage] reads. *)
Record ChatState : Type := {
  currentChannel : jsstring;
  currentChatmate : option jsobject
}.

(** The part of the auth store that [sendMessage] reads. *)
Record AuthState : Type := {
  auth_user : jsobject;
  auth_privateKey : jsstring
}.

(** chatStore.js, lines 112-139: [sendMessage] up to the message it hands to
    [chatApi.sendMessage]; [timestamp] is [new Date().toISOString()]. *)
Definition sendMessage (chat : ChatState) (auth : AuthState)
    (content timestamp : jsstring) : io jsobject :=
  let user := auth_user auth in
  let messageData : jsobject :=
    <["senderName" := get user "username"]>
    (<["message" := VStr content]>
     (<["channel" := VStr (currentChannel chat)]>
      (<["timestamp" := VStr timestamp]>
       (<["senderPublicKeyHash" := get user "publicKeyHash"]>
        (<["receiverPublicKeyHash" :=
             js_or (get_opt (currentChatmate chat) "publicKeyHash") VNull]>
         (<["messageType" := VStr (str "text")]> (∅ : jsobject))))))) in
  if negb (bool_decide (currentChannel chat = str "global"))
     && ToBoolean (get_opt (currentChatmate chat) "publicKey")
  then encryptMessage messageData (auth_privateKey auth)
         (ToString (get_opt (currentChatmate chat) "publicKey"))
  else io_ret messageData.

(** The values [messageType] may take: Chat.model.js, line 40. *)
Definition messageTypes : list jsstring :=
  [str "text"; str "system"; str "encrypted"].

(** The messages the client builds: the results of [encryptMessage], and
    what [sendMessage] hands to the server. *)
Inductive constructs : jsobject -> Prop :=
| constructs_encryptMessage messageData priv pub e m :
    fst (encryptMessage messageData priv pub e) = Ok m -> constructs m
| constructs_sendMessage chat auth content timestamp e m :
    fst (sendMessage chat auth content timestamp e) = Ok m ->
    constructs m.

(** authStore.js, lines 88-95: the registration request. *)
Record RegistrationRequest : Type := {
  reg_username : jsstring;
  reg_auth : jsstring;
  reg_publicKey : jsstring;
  reg_publicKeyHash : jsstring;
  reg_privateKeyCipher : jsstring;
  reg_keySalt : jsstring
}.

(** authStore.js, lines 67-95: [register] up to the request it sends. *)
Definition register (username password : jsstring) : io RegistrationRequest :=
  let clientAuth := pbkdf2 password (toLowerCase username) 25000 512 in
  await! keyPair <- generateECDHKeyPair;
  let publicKeyHash := sha256 (publicKey keyPair) in
  await! saltBytes <- io_random 16;
  await! keySalt <- io_lift (arrayBufferToBase64 saltBytes);
  let passphrase := pbkdf2 (clientAuth ++ password) keySalt 25000 256 in
  await! privateKeyCipher <- encryptPrivateKey (privateKey keyPair) passphrase keySalt;
  io_ret {| reg_username := toLowerCase username;
            reg_auth := clientAuth;
            reg_publicKey := publicKey keyPair;
            reg_publicKeyHash := publicKeyHash;
            reg_privateKeyCipher := privateKeyCipher;
            reg_keySalt := keySalt |}.

(** authStore.js, lines 137-140: the login request. *)
Record LoginRequest : Type := {
  login_username : jsstring;
  login_auth : jsstring
}.

(** authStore.js, lines 129-140: [login] up to the request it sends. *)
Definition login (username password : jsstring) : LoginRequest :=
  let clientAuth := pbkdf2 password (toLowerCase username) 25000 512 in
  {| login_username := toLowerCase username; login_auth := clientAuth |}.

(** authStore.js, lines 144-146: [login] recovers the private key from the
    user record the server answered with. *)
Definition login_unlock (password clientAuth : jsstring) (user : jsobject)
  : result jsstring :=
  let passphrase :=
    pbkdf2 (clientAuth ++ password) (encode_arg (get user "keySalt")) 25000 256 in
  decryptPrivateKey (ToString (get user "privateKeyCipher")) passphrase
    (encode_arg (get user "keySalt")).

End Stores.

(** ** The notions the theorems speak of *)

Section Notions.
Context {host : Platform}.

(** A valid key pair: its two JWK texts import as a private scalar [d] and
    as the public point [d]G. *)
Definition valid_key_pair (kp : KeyPair) : Prop :=
  exists d : Z,
    importECDHPrivateKey (privateKey kp) = Ok d /\
    importECDHPublicKey (publicKey kp) = Ok (ec_mul d ec_base).

(** A serialized key is [JSON.stringify] of a JWK object (crypto.js, lines
    216-217): well-formed text that opens with a brace. *)
Definition json_object_text (s : jsstring) : Prop :=
  well_formed s = true /\ exists body, s = 0x7B :: body.

(** A text that comes back whole from encoding and decoding. *)
Definition plain_text (s : jsstring) : Prop :=
  well_formed s = true /\ without_bom s = s.

(** The bytes of a sealed blob. *)
Definition blob_bytes (blob : jsstring) (combined : list byte) : Prop :=
  base64ToArrayBuffer blob = Ok combined.

(** Lexicographic comparison, for the channel identifier as the
    specification words it. *)
Fixpoint lex_compare (a b : jsstring) : comparison :=
  match a, b with
  | [], [] => Eq
  | [], _ :: _ => Lt
  | _ :: _, [] => Gt
  | x :: a', y :: b' =>
      match x ?= y with
      | Eq => lex_compare a' b'
      | c => c
      end
  end.

(** Hexadecimal as the specification means it, stated apart from the code's
    [toString(16)] and [padStart]: every octet is written as two characters
    of the alphabet 0123456789abcdef, the one for its high four bits first,
    then the one for its low four bits. *)
Definition hex_alphabet : jsstring := str "0123456789abcdef".

Definition spec_hex_octet (b : byte) : jsstring :=
  [nth (Z.to_nat (Z.shiftr (Z_of_byte b) 4)) hex_alphabet 0;
   nth (Z.to_nat (Z.land (Z_of_byte b) 15)) hex_alphabet 0].

Fixpoint spec_hex (octets : list byte) : jsstring :=
  match octets with
  | [] => []
  | b :: rest => spec_hex_octet b ++ spec_hex rest
  end.

(** Specification, section 4.6: sort the two hashes lexicographically, join
    with a colon, SHA-256 the result, return hex. *)
Definition channelId_spec (hashA hashB : jsstring) : jsstring :=
  let '(lo, hi) :=
    match lex_compare hashA hashB with
    | Gt => (hashB, hashA)
    | _ => (hashA, hashB)
    end in
  spec_hex (digest_sha256 (TextEncoder_encode (lo ++ str ":" ++ hi))).

(** Specification, section 4.3: PBKDF2 of the password, salted with the
    lower-cased username, 25000 iterations, SHA-512, 512 bits, in hex. *)
Definition clientAuth_spec (password username : jsstring) : jsstring :=
  spec_hex
    (pbkdf2_sha512 (TextEncoder_encode password)
       (TextEncoder_encode (toLowerCase username)) 25000 512).


(** Specification, section 3: the message types as the data model lists
    them. *)
Definition spec_messageTypes : list jsstring :=
  [str "plain"; str "system"; str "encrypted"].

(** The bytes [aesEncrypt] seals: the IV it drew, then ciphertext and tag. *)
Definition sealed_bytes (plaintext : jsstring) (key : aes_key) (e : entropy)
  : list byte :=
  let iv := fst (getRandomBytes IV_LENGTH e) in
  iv ++ gcm_encrypt key iv (stringToArrayBuffer plaintext).

(** The object of the [catch] branch: the envelope with the two marks. *)
Definition marked_undecryptable (encryptedMessage : jsobject) : jsobject :=
  <["decryptionError" := VBool true]>
    (<["decrypted" := VBool false]> encryptedMessage).

End Notions.

(** ** A small platform to run the definitions on

    Scalars act on the integers modulo 251; a sealed text is the plaintext
    shifted by the key, followed by the key and a checksum. *)

(** The sum of the bytes, modulo 256. *)
Definition toy_checksum (c : list byte) : Z :=
  fold_right (fun b acc => (Z_of_byte b + acc) mod 256) 0 c.

(** Sealing and opening on the small platform. *)
Definition toy_seal (k : byte) (iv p : list byte) : list byte :=
  let c := map (fun b => byte_of_Z (Z_of_byte b + Z_of_byte k)) p in
  c ++ [k; byte_of_Z (toy_checksum c)].

Definition toy_open (k : byte) (iv x : list byte) : option (list byte) :=
  match rev x with
  | t2 :: t1 :: rc =>
      let c := rev rc in
      if (Z_of_byte t1 =? Z_of_byte k) && (Z_of_byte t2 =? toy_checksum c)
      then Some (map (fun b => byte_of_Z (Z_of_byte b - Z_of_byte k)) c)
      else None
  | _ => None
  end.

(** The toy JWK text of a number: a brace and one code unit. *)
Definition toy_jwk (n : Z) : jsstring := [0x7B; n].

Definition toy_jwk_import (s : jsstring) : result Z :=
  match s with
  | [b; n] => if b =? 0x7B then Ok n else Throw DataError
  | _ => Throw DataError
  end.

(** A stand-in for PBKDF2: one byte, repeated to the length asked for. *)
Definition toy_kdf (password salt : list byte) (iterations bits : Z) : list byte :=
  repeat (byte_of_Z (toy_checksum password + 2 * toy_checksum salt + iterations))
    (Z.to_nat (bits / 8)).

(** Lower-casing of the ASCII letters. *)
Definition toy_lower (s : jsstring) : jsstring :=
  map (fun u => if (65 <=? u) && (u <=? 90) then u + 32 else u) s.

Definition toy : Platform := {|
  ec_point := Z;
  ec_base := 3;
  ec_mul := fun a P => (a * P) mod 251;
  ec_x := fun P => [byte_of_Z P];
  ec_generate := fun e => (1 + Z_of_byte (e 0%nat), fun i => e (S i));
  jwk_export_private := toy_jwk;
  jwk_export_public := toy_jwk;
  jwk_import_private := toy_jwk_import;
  jwk_import_public := toy_jwk_import;
  aes_key := byte;
  aes_import := fun bits => hd Byte.x00 bits;
  gcm_encrypt := toy_seal;
  gcm_decrypt := toy_open;
  pbkdf2_sha512 := toy_kdf;
  digest_sha256 := fun bs => [byte_of_Z (toy_checksum bs)];
  digest_sha512 := fun bs => [byte_of_Z (toy_checksum bs); byte_of_Z (Z.of_nat (length bs))];
  toLowerCase := toy_lower
|}.

(** A source of random bytes for the examples: 7, 8, 9, ... *)
Definition toy_entropy : entropy := fun i => byte_of_Z (7 + Z.of_nat i).

(** The key pair of the small platform with private scalar [d]. *)
Definition toy_pair (d : Z) : KeyPair :=
  {| publicKey := toy_jwk ((d * 3) mod 251); privateKey := toy_jwk d |}.

(** A signed-in user on the public channel. *)
Definition toy_auth : AuthState :=
  {| auth_user :=
       <["username" := VStr (str "alice")]>
         (<["publicKeyHash" := VStr (str "aa")]> (∅ : jsobject));
     auth_privateKey := toy_jwk 5 |}.

(** The chat store as it starts: the public channel, no chat mate. *)
Definition global_chat : ChatState :=
  {| currentChannel := str "global"; currentChatmate := None |}.

(** The message [sendMessage] builds for the text "hi" at time "t0". *)
Definition global_message : jsobject :=
  <["senderName" := VStr (str "alice")]>
  (<["message" := VStr (str "hi")]>
   (<["channel" := VStr (str "global")]>
    (<["timestamp" := VStr (str "t0")]>
     (<["senderPublicKeyHash" := VStr (str "aa")]>
      (<["receiverPublicKeyHash" := VNull]>
       (<["messageType" := VStr (str "text")]> (∅ : jsobject))))))).

(** A message whose sender name was sealed under another key than the one
    the two parties share. *)
Definition toy_foreign_message : jsobject :=
  <["senderName" :=
      VStr (base64_encode
              (sealed_bytes (host := toy) (str "eve") (byte_of_Z 9) toy_entropy))]>
  (<["channel" := VStr (str "c0")]>
   (<["messageType" := VStr (str "encrypted")]> (∅ : jsobject))).

(** ** More of crypto.js: hexadecimal text *)

(** The white space that [parseInt] and [String.prototype.trim] skip:
    WhiteSpace and LineTerminator. *)
Definition is_js_whitespace (u : Z) : bool :=
  (u =? 0x9) || (u =? 0xA) || (u =? 0xB) || (u =? 0xC) || (u =? 0xD) ||
  (u =? 0x20) || (u =? 0xA0) || (u =? 0x1680) ||
  ((0x2000 <=? u) && (u <=? 0x200A)) ||
  (u =? 0x2028) || (u =? 0x2029) || (u =? 0x202F) || (u =? 0x205F) ||
  (u =? 0x3000) || (u =? 0xFEFF).

Fixpoint drop_while (f : Z -> bool) (s : jsstring) : jsstring :=
  match s with
  | [] => []
  | u :: rest => if f u then drop_while f rest else s
  end.

(** The value of a digit of radix 16. *)
Definition hex_value (u : Z) : option Z :=
  if (48 <=? u) && (u <=? 57) then Some (u - 48)
  else if (97 <=? u) && (u <=? 102) then Some (u - 87)
  else if (65 <=? u) && (u <=? 70) then Some (u - 55)
  else None.

(** The number written by the longest prefix of digits, with the count of
    digits read. *)
Fixpoint hex_prefix (acc : Z) (count : nat) (s : jsstring) : Z * nat :=
  match s with
  | [] => (acc, count)
  | u :: rest =>
      match hex_value u with
      | Some d => hex_prefix (acc * 16 + d) (S count) rest
      | None => (acc, count)
      end
  end.

(** [parseInt(s, 16)]: leading white space, a sign, a [0x] prefix, then
    digits; [None] is NaN. *)
Definition parseInt16 (s : jsstring) : option Z :=
  let s := drop_while is_js_whitespace s in
  let '(sign, s) :=
    match s with
    | u :: rest =>
        if u =? 45 then (-1, rest)
        else if u =? 43 then (1, rest)
        else (1, s)
    | [] => (1, s)
    end in
  let s :=
    match s with
    | z :: x :: rest =>
        if (z =? 48) && ((x =? 120) || (x =? 88)) then rest else s
    | _ => s
    end in
  match hex_prefix 0 0 s with
  | (_, O) => None
  | (n, _) => Some (sign * n)
  end.

(** [hex.substr(i, 2)] for i = 0, 2, 4, ... *)
Fixpoint hex_pairs (hex : jsstring) : list jsstring :=
  match hex with
  | a :: b :: rest => [a; b] :: hex_pairs rest
  | [a] => [[a]]
  | [] => []
  end.

(** Storing a number into a [Uint8Array]: NaN is stored as 0. *)
Definition store_uint8 (v : option Z) : byte := byte_of_Z (default 0 v).

(** crypto.js, lines 82-88.  The array has [hex.length / 2] elements, the
    fraction dropped; a write behind its end is ignored. *)
Definition hexToArrayBuffer (hex : jsstring) : list byte :=
  firstn (length hex / 2)%nat
    (map (fun pair => store_uint8 (parseInt16 pair)) (hex_pairs hex)).

(** A lower-case digit of radix 16. *)
Definition is_lower_hex (u : Z) : bool :=
  ((48 <=? u) && (u <=? 57)) || ((97 <=? u) && (u <=? 102)).

(** [String.prototype.toWellFormed]: unpaired surrogates become U+FFFD. *)
Definition toWellFormed (s : jsstring) : jsstring :=
  flat_map utf16_units (code_points s).

(** A code unit: sixteen bits. *)
Definition code_unit (u : Z) : Prop := 0 <= u <= 0xFFFF.

(** ** More of crypto.js: sealed fields and fingerprints *)

(** [String.prototype.toUpperCase] is the platform's. *)
Class Casing : Type := {
  toUpperCase : jsstring -> jsstring
}.

(** The upper-case form of an ASCII character. *)
Definition ascii_upper (u : Z) : Z :=
  if (97 <=? u) && (u <=? 122) then u - 32 else u.

(** On ASCII text, [toUpperCase] raises the letters a to z and keeps the
    rest. *)
Definition toUpperCase_ascii {casing : Casing} : Prop :=
  forall s, Forall (fun u => 0 <= u < 128) s -> toUpperCase s = map ascii_upper s.

(** The characters that [.] of a regular expression does not match. *)
Definition is_line_terminator (u : Z) : bool :=
  (u =? 0xA) || (u =? 0xD) || (u =? 0x2028) || (u =? 0x2029).

(** The matches of [/.{1,4}/g], read from left to right: [cur] is the match
    being read, which ends at its fourth character, at a line terminator
    and at the end. *)
Fixpoint match_groups (cur : jsstring) (s : jsstring) : list jsstring :=
  match s with
  | [] => match cur with [] => [] | _ => [cur] end
  | u :: rest =>
      if is_line_terminator u
      then match cur with [] => match_groups [] rest | _ => cur :: match_groups [] rest end
      else if (length cur =? 3)%nat then (cur ++ [u]) :: match_groups [] rest
      else match_groups (cur ++ [u]) rest
  end.

(** [s.match(/.{1,4}/g)]: [null] when nothing matches. *)
Definition String_match (s : jsstring) : option (list jsstring) :=
  match match_groups [] s with
  | [] => None
  | groups => Some groups
  end.

Section CryptoMore.
Context {host : Platform} {casing : Casing}.

(** AES-GCM's output is as long as the plaintext and a tag of [t] bytes. *)
Definition gcm_expansion (t : nat) : Prop :=
  forall k iv p, length (gcm_encrypt k iv p) = (length p + t)%nat.

(** The properties of the object that [encryptMessage] returns. *)
Definition message_fields : list string :=
  ["senderName"; "message"; "timestamp"; "channel"; "senderPublicKeyHash";
   "receiverPublicKeyHash"; "messageType"]%string.

(** crypto.js, lines 492-496; [None] is the [TypeError] of calling [slice]
    on [null]. *)
Definition generateFingerprint (publicKeyJson : jsstring) : option jsstring :=
  let hash := sha256 publicKeyJson in
  match String_match hash with
  | Some groups => Some (toUpperCase (Array_join (str " ") (firstn 8 groups)))
  | None => None
  end.

End CryptoMore.

(** ** More of chatStore.js, and the components that call it *)

(** [a === b] on the values a message holds.  A number is given by its
    decimal text, so two numbers are equal when their texts are, NaN
    excepted. *)
Definition strict_equals (a b : jsval) : bool :=
  match a, b with
  | VUndefined, VUndefined => true
  | VNull, VNull => true
  | VBool x, VBool y => Bool.eqb x y
  | VNum x, VNum y => bool_decide (x = y) && negb (bool_decide (x = str "NaN"))
  | VStr x, VStr y => bool_decide (x = y)
  | _, _ => false
  end.

(** [String.prototype.trimStart], [trimEnd] and [trim]. *)
Definition trimStart (s : jsstring) : jsstring := drop_while is_js_whitespace s.
Definition trimEnd (s : jsstring) : jsstring := rev (drop_while is_js_whitespace (rev s)).
Definition String_trim (s : jsstring) : jsstring := trimEnd (trimStart s).

(** [text.slice(0, end)]: a negative [end] counts from the end of the text. *)
Definition String_slice0 (text : jsstring) (finish : Z) : jsstring :=
  let len := Z.of_nat (length text) in
  let final := if finish <? 0 then Z.max (len + finish) 0 else Z.min finish len in
  firstn (Z.to_nat final) text.

(** utils.js, lines 73-76, on a string and an integer. *)
Definition truncate (text : jsstring) (maxLength : Z) : jsstring :=
  if negb (ToBoolean (VStr text)) || (Z.of_nat (length text) <=? maxLength) then text
  else String_slice0 text (maxLength - 3) ++ str "...".

Section StoreHandlers.
Context {host : Platform}.

(** [msg.messageType === 'encrypted']. *)
Definition is_encrypted (msg : jsobject) : bool :=
  strict_equals (get msg "messageType") (VStr (str "encrypted")).

(** chatStore.js, lines 83-100: the messages [loadMessages] stores, from the
    ones the server answered with.  [privateKey] is the auth store's, [null]
    when nobody is signed in. *)
Definition loadMessages (channel : jsstring) (privateKey : jsval)
    (currentChatmate : option jsobject) (response : list jsobject) : list jsobject :=
  if negb (bool_decide (channel = str "global")) then
    if ToBoolean (get_opt currentChatmate "publicKey") && ToBoolean privateKey then
      map (fun msg =>
             if is_encrypted msg
             then decryptMessage msg (ToString privateKey)
                    (ToString (get_opt currentChatmate "publicKey"))
             else msg)
          response
    else response
  else response.

(** chatStore.js, lines 168-184: the message list after [receiveMessage]. *)
Definition receiveMessage (chat : ChatState) (privateKey : jsval)
    (messages : list jsobject) (messageData : jsobject) : list jsobject :=
  if strict_equals (get messageData "channel") (VStr (currentChannel chat)) then
    let message :=
      if is_encrypted messageData
         && ToBoolean (get_opt (currentChatmate chat) "publicKey")
      then decryptMessage messageData (ToString privateKey)
             (ToString (get_opt (currentChatmate chat) "publicKey"))
      else messageData in
    messages ++ [message]
  else messages.

(** chatStore.js, lines 273-291. *)
Definition handleUserConnected (onlineUsers : list jsobject) (userData : jsobject)
  : list jsobject :=
  let exists_ :=
    existsb (fun u => strict_equals (get u "publicKeyHash") (get userData "publicKeyHash"))
      onlineUsers in
  if exists_ then onlineUsers else onlineUsers ++ [userData].

Definition handleUserDisconnected (onlineUsers : list jsobject) (userData : jsobject)
  : list jsobject :=
  List.filter
    (fun u => negb (strict_equals (get u "publicKeyHash") (get userData "publicKeyHash")))
    onlineUsers.

(** Inbox.jsx, lines 44-53: the preview of a channel's last message. *)
Definition Inbox_preview (lastMsg : jsobject) (privateKey : jsval) (otherUser : jsobject)
  : jsval :=
  let preview := VStr (str "Encrypted message") in
  if ToBoolean (get otherUser "publicKey") && ToBoolean privateKey then
    let decrypted :=
      decryptMessage lastMsg (ToString privateKey) (ToString (get otherUser "publicKey")) in
    js_or (get decrypted "message") (VStr (str "Encrypted message"))
  else preview.

(** ChatBox.jsx, lines 97-103: what [handleSend] passes to [sendMessage];
    [None] when it returns without sending. *)
Definition handleSend (message : jsstring) (isSending : bool) : option jsstring :=
  if negb (ToBoolean (VStr (String_trim message))) || isSending then None
  else Some (String_trim message).

End StoreHandlers.

(** No two users of the list have the same [publicKeyHash]. *)
Fixpoint distinct_users (users : list jsobject) : Prop :=
  match users with
  | [] => True
  | u :: rest =>
      Forall (fun v => strict_equals (get v "publicKeyHash") (get u "publicKeyHash") = false)
        rest
      /\ distinct_users rest
  end.

(** ** The server's checks *)

(** [Buffer.from(text, 'hex')] is the server platform's. *)
Class Node : Type := {
  Buffer_from_hex : jsstring -> list byte
}.

(** It reads back what [Buffer.toString('hex')] wrote. *)
Definition Buffer_hex_law {node : Node} : Prop :=
  forall bs : list byte, Buffer_from_hex (arrayBufferToHex bs) = bs.

(** The lower-case form of an ASCII character. *)
Definition ascii_lower (u : Z) : Z :=
  if (65 <=? u) && (u <=? 90) then u + 32 else u.

(** On ASCII text, [toLowerCase] lowers the letters A to Z and keeps the
    rest. *)
Definition toLowerCase_ascii {host : Platform} : Prop :=
  forall s, Forall (fun u => 0 <= u < 128) s -> toLowerCase s = map ascii_lower s.

(** [crypto.timingSafeEqual]: [None] is the [RangeError] raised when the two
    buffers differ in length. *)
Definition timingSafeEqual (a b : list byte) : option bool :=
  if (length a =? length b)%nat
  then Some (bool_decide (map Z_of_byte a = map Z_of_byte b))
  else None.

(** The answers of the login route to a request for a user on record: 200,
    401 and 500. *)
Inductive login_answer : Type :=
| LoginSuccessful
| InvalidCredentials
| ServerError.

(** [Joi.string().required()]: a string that is not empty. *)
Definition Joi_string_required (v : jsval) : bool :=
  match v with
  | VStr (_ :: _) => true
  | _ => false
  end.

(** [Joi.string().allow(null, '')]: absent, [null] or a string. *)
Definition Joi_string_allow_null (v : jsval) : bool :=
  match v with
  | VUndefined | VNull | VStr _ => true
  | _ => false
  end.

(** The characters of [[a-zA-Z0-9_]]. *)
Definition is_word_char (u : Z) : bool :=
  ((97 <=? u) && (u <=? 122)) || ((65 <=? u) && (u <=? 90)) ||
  ((48 <=? u) && (u <=? 57)) || (u =? 95).

(** utils.js, lines 133-136: [/^[a-zA-Z0-9_]{2,20}$/.test(username)]. *)
Definition isValidUsername (username : jsstring) : bool :=
  forallb is_word_char username
  && (2 <=? Z.of_nat (length username)) && (Z.of_nat (length username) <=? 20).

(** The rule of [validateRegistration] for the username:
    [Joi.string().min(2).max(20).pattern(/^[a-zA-Z0-9_]+$/).required()]. *)
Definition Joi_username (v : jsval) : bool :=
  match v with
  | VStr s =>
      Joi_string_required v
      && (2 <=? Z.of_nat (length s)) && (Z.of_nat (length s) <=? 20)
      && (forallb is_word_char s && (1 <=? Z.of_nat (length s)))
  | _ => false
  end.

(** A value as [JSON.stringify] and [JSON.parse] carry it to the server:
    [undefined] is left out, a number that is not finite becomes [null]. *)
Definition JSON_value (v : jsval) : option jsval :=
  match v with
  | VUndefined => None
  | VNum text =>
      if bool_decide (text ∈ [str "NaN"; str "Infinity"; str "-Infinity"])
      then Some VNull else Some v
  | _ => Some v
  end.

(** The body of the request that carries a message. *)
Definition request_body (m : jsobject) : jsobject := omap JSON_value m.

(** Chat.model.js, lines 117-129: [validateMessage(data)] reports no error.
    [data] is the body of a request, so none of its properties is
    [undefined]; a key the schema does not name is an error. *)
Definition validateMessage (data : jsobject) : bool :=
  bool_decide (dom data ⊆ (list_to_set message_fields : gset string))
  && Joi_string_required (get data "senderName")
  && match get data "message" with
     | VStr s => (1 <=? Z.of_nat (length s)) && (Z.of_nat (length s) <=? 2000)
     | _ => false
     end
  && Joi_string_required (get data "channel")
  && Joi_string_required (get data "timestamp")
  && Joi_string_allow_null (get data "senderPublicKeyHash")
  && Joi_string_allow_null (get data "receiverPublicKeyHash")
  && match get data "messageType" with
     | VUndefined => true
     | VStr t => bool_decide (t ∈ messageTypes)
     | _ => false
     end.

Section Server.
Context {host : Platform} {node : Node}.

Definition PBKDF2_ITERATIONS : Z := 50000.
Definition PBKDF2_KEYLEN : Z := 64.

(** auth.routes.js, lines 30-44: PBKDF2 with HMAC-SHA-512 of the two texts
    in UTF-8, 64 bytes, in hexadecimal. *)
Definition hashPassword (clientAuth salt : jsstring) : jsstring :=
  let derivedKey :=
    pbkdf2_sha512 (TextEncoder_encode clientAuth) (TextEncoder_encode salt)
      PBKDF2_ITERATIONS (8 * PBKDF2_KEYLEN) in
  arrayBufferToHex derivedKey.

(** auth.routes.js, lines 142-153 and 177-180: the comparison of the login
    route, for the record of a user with the given salt and stored hash. *)
Definition login_compare (auth salt stored : jsstring) : login_answer :=
  let hashedAuth := hashPassword auth salt in
  match timingSafeEqual (Buffer_from_hex hashedAuth) (Buffer_from_hex stored) with
  | Some isMatch => if isMatch then LoginSuccessful else InvalidCredentials
  | None => ServerError
  end.

End Server.

(** ** Key generation, and the route that stores a message *)

(** What was exported as a JWK text imports as the same key. *)
Definition jwk_round_trip {host : Platform} : Prop :=
  (forall d : Z, jwk_import_private (jwk_export_private d) = Ok d) /\
  (forall P : ec_point, jwk_import_public (jwk_export_public P) = Ok P).

(** The answers of the route that stores a message: 400, 403, and 201 with
    the [senderPublicKeyHash] given to the new [Chat]. *)
Inductive post_answer : Type :=
| BadRequest
| Forbidden
| Created (senderPublicKeyHash : jsval).

(** chat.routes.js, lines 62-94: [user] is [req.user], the payload of the
    token; [body] is [req.body].  A failure of the database, which is
    answered 500, is left aside. *)
Definition post_message (user body : jsobject) : post_answer :=
  if negb (validateMessage body) then BadRequest
  else
    let senderPublicKeyHash := get body "senderPublicKeyHash" in
    if ToBoolean senderPublicKeyHash
       && negb (strict_equals senderPublicKeyHash (get user "publicKeyHash"))
    then Forbidden
    else Created (js_or (get user "publicKeyHash") senderPublicKeyHash).

(** ** More of the small platform *)

(** Digests of 32 bytes for the small platform: the first 16 bytes are given
    by the checksum modulo 16, the last 16 by the checksum. *)
Definition toy_digest (bs : list byte) : list byte :=
  map (fun i => byte_of_Z (toy_checksum bs mod 16 + 37 * Z.of_nat i)) (seq 0 16) ++
  map (fun i => byte_of_Z (toy_checksum bs + 37 * Z.of_nat i)) (seq 16 16).

Definition toy_wide : Platform := {|
  ec_point := Z;
  ec_base := 3;
  ec_mul := fun a P => (a * P) mod 251;
  ec_x := fun P => [byte_of_Z P];
  ec_generate := fun e => (1 + Z_of_byte (e 0%nat), fun i => e (S i));
  jwk_export_private := toy_jwk;
  jwk_export_public := toy_jwk;
  jwk_import_private := toy_jwk_import;
  jwk_import_public := toy_jwk_import;
  aes_key := byte;
  aes_import := fun bits => hd Byte.x00 bits;
  gcm_encrypt := toy_seal;
  gcm_decrypt := toy_open;
  pbkdf2_sha512 := toy_kdf;
  digest_sha256 := toy_digest;
  digest_sha512 := toy_digest;
  toLowerCase := toy_lower
|}.

Definition toy_casing : Casing := {| toUpperCase := map ascii_upper |}.

(** A private message as [sendMessage] hands it to [encryptMessage], with a
    property of its own. *)
Definition toy_private_message : jsobject :=
  <["senderName" := VStr (str "alice")]>
  (<["message" := VStr (str "hi")]>
   (<["channel" := VStr (str "c0")]>
    (<["timestamp" := VStr (str "t0")]>
     (<["senderPublicKeyHash" := VStr (str "aa")]>
      (<["receiverPublicKeyHash" := VStr (str "bb")]>
       (<["messageType" := VStr (str "text")]>
        (<["draft" := VBool true]> (∅ : jsobject)))))))).

(** The same message sealed by the holder of the private scalar 5 for the
    holder of 11. *)
Definition toy_sealed_message : jsobject :=
  match fst (encryptMessage (host := toy) toy_private_message
               (privateKey (toy_pair 5)) (publicKey (toy_pair 11)) toy_entropy) with
  | Ok sealed => sealed
  | Throw _ => ∅
  end.

(** What [register] sends for the user Alice with the password pw, and the
    record the server answers a login with. *)
Definition toy_registration : RegistrationRequest :=
  match fst (register (host := toy) (str "Alice") (str "pw") toy_entropy) with
  | Ok req => req
  | Throw _ =>
      {| reg_username := []; reg_auth := []; reg_publicKey := [];
         reg_publicKeyHash := []; reg_privateKeyCipher := []; reg_keySalt := [] |}
  end.

Definition toy_user_record : jsobject :=
  <["username" := VStr (reg_username toy_registration)]>
  (<["publicKey" := VStr (reg_publicKey toy_registration)]>
   (<["publicKeyHash" := VStr (reg_publicKeyHash toy_registration)]>
    (<["privateKeyCipher" := VStr (reg_privateKeyCipher toy_registration)]>
     (<["keySalt" := VStr (reg_keySalt toy_registration)]> (∅ : jsobject))))).

(** The two parties as each has the other in its store. *)
Definition toy_alice : jsobject :=
  <["username" := VStr (str "alice")]>
  (<["publicKeyHash" := VStr (str "aa")]>
   (<["publicKey" := VStr (publicKey (toy_pair 5))]> (∅ : jsobject))).

Definition toy_bob : jsobject :=
  <["username" := VStr (str "bob")]>
  (<["publicKeyHash" := VStr (str "bb")]>
   (<["publicKey" := VStr (publicKey (toy_pair 11))]> (∅ : jsobject))).

(** A private channel whose chat mate has no public key on record. *)
Definition toy_keyless_chat : ChatState :=
  {| currentChannel := str "c0";
     currentChatmate := Some (<["username" := VStr (str "carol")]> (∅ : jsobject)) |}.

(** Two users on line, and a third. *)
Definition toy_online : list jsobject := [toy_alice; toy_bob].

Definition toy_carol : jsobject :=
  <["username" := VStr (str "carol")]>
  (<["publicKeyHash" := VStr (str "cc")]> (∅ : jsobject)).

(** A private channel with a chat mate whose key is on record. *)
Definition toy_private_chat : ChatState :=
  {| currentChannel := str "c0"; currentChatmate := Some toy_bob |}.

(** A decoder of hexadecimal text for the examples: it stops at the first
    pair that is not two digits. *)
Fixpoint toy_hex_decode (s : jsstring) : list byte :=
  match s with
  | a :: b :: rest =>
      match hex_value a, hex_value b with
      | Some x, Some y => byte_of_Z (16 * x + y) :: toy_hex_decode rest
      | _, _ => []
      end
  | _ => []
  end.

Definition toy_node : Node := {| Buffer_from_hex := toy_hex_decode |}.

(** A message that names another sender than the holder of the token. *)
Definition toy_spoofed_message : jsobject :=
  <["senderPublicKeyHash" := VStr (str "bb")]> global_message.

(* ====================================================================== *)
(** * Part II. Theorems                                                     *)
(* ====================================================================== *)

(** ** The text functions on known values *)

Example encode_ascii : TextEncoder_encode (str "hi") = [Byte.x68; Byte.x69].
Proof. reflexivity. Qed.

Example encode_euro : TextEncoder_encode [0x20AC] = [Byte.xe2; Byte.x82; Byte.xac].
Proof. reflexivity. Qed.

Example encode_surrogate_pair :
  TextEncoder_encode [0xD83D; 0xDE00] = [Byte.xf0; Byte.x9f; Byte.x98; Byte.x80].
Proof. reflexivity. Qed.

Example encode_unpaired : TextEncoder_encode [0xD83D] = [Byte.xef; Byte.xbf; Byte.xbd].
Proof. reflexivity. Qed.

Example decode_surrogate_pair :
  TextDecoder_decode [Byte.xf0; Byte.x9f; Byte.x98; Byte.x80] = [0xD83D; 0xDE00].
Proof. reflexivity. Qed.

Example decode_overlong : TextDecoder_decode [Byte.xc0; Byte.x41] = [0xFFFD; 0x41].
Proof. reflexivity. Qed.

Example decode_bom :
  TextDecoder_decode [Byte.xef; Byte.xbb; Byte.xbf; Byte.x68; Byte.x69] = str "hi".
Proof. reflexivity. Qed.

Example btoa_hi : btoa (str "hi") = Ok (str "aGk=").
Proof. reflexivity. Qed.

Example atob_padded : atob (str "aGk=") = Ok (str "hi").
Proof. reflexivity. Qed.

Example atob_unpadded : atob (str "aGk") = Ok (str "hi").
Proof. reflexivity. Qed.

Example atob_undefined : atob (str "undefined") = Throw InvalidCharacterError.
Proof. reflexivity. Qed.

Example hex_bytes : arrayBufferToHex [Byte.x0a; Byte.xff] = str "0aff".
Proof. reflexivity. Qed.

Example sort_pair : Array_sort [str "b1"; str "a2"] = [str "a2"; str "b1"].
Proof. reflexivity. Qed.

Example join_pair : Array_join (str ":") [str "a2"; str "b1"] = str "a2:b1".
Proof. reflexivity. Qed.

(** ** Proof tools *)

Ltac decide_test :=
  match goal with
  | |- context [Z.leb ?a ?b] =>
      first [ rewrite (proj2 (Z.leb_le a b)) by lia
            | rewrite (proj2 (Z.leb_gt a b)) by lia ]
  | |- context [Z.ltb ?a ?b] =>
      first [ rewrite (proj2 (Z.ltb_lt a b)) by lia
            | rewrite (proj2 (Z.ltb_ge a b)) by lia ]
  | |- context [Z.eqb ?a ?b] =>
      first [ rewrite (proj2 (Z.eqb_eq a b)) by lia
            | rewrite (proj2 (Z.eqb_neq a b)) by lia ]
  end.

Ltac decide_tests := repeat (decide_test; cbn [andb orb negb]).

Ltac arith := Z.div_mod_to_equations; lia.

(** ** Bytes *)

Lemma Z_of_byte_range (b : byte) : 0 <= Z_of_byte b < 256.
Proof.
  unfold Z_of_byte. pose proof (Byte.to_N_bounded b). lia.
Qed.

Lemma byte_of_Z_of_byte (b : byte) : byte_of_Z (Z_of_byte b) = b.
Proof.
  unfold byte_of_Z, Z_of_byte.
  pose proof (Byte.to_N_bounded b).
  rewrite Z.mod_small by lia.
  rewrite N2Z.id, Byte.of_to_N. reflexivity.
Qed.

Lemma Z_of_byte_of_Z (z : Z) : 0 <= z < 256 -> Z_of_byte (byte_of_Z z) = z.
Proof.
  intros Hz. unfold byte_of_Z, Z_of_byte.
  rewrite Z.mod_small by lia.
  destruct (Byte.of_N (Z.to_N z)) as [b|] eqn:E.
  - apply Byte.to_of_N in E. simpl. rewrite E. lia.
  - apply Byte.of_N_None_iff in E. lia.
Qed.

(** ** Shifts and masks as arithmetic *)

Lemma land_low_zero (a x n : Z) :
  0 <= n -> 0 <= x < 2 ^ n -> Z.land (Z.shiftl a n) x = 0.
Proof.
  intros Hn Hx. apply Z.bits_inj'. intros i Hi.
  rewrite Z.land_spec, Z.bits_0.
  destruct (Z.ltb_spec i n) as [Hlt|Hge].
  - rewrite Z.shiftl_spec_low by lia. reflexivity.
  - assert (Z.testbit x i = false) as ->; [|apply andb_false_r].
    destruct (Z.eq_dec x 0) as [->|Hx0]; [apply Z.bits_0|].
    apply Z.bits_above_log2; [lia|].
    apply Z.log2_lt_pow2; [lia|].
    apply Z.lt_le_trans with (2 ^ n); [lia|].
    apply Z.pow_le_mono_r; lia.
Qed.

Lemma lor_shiftl_low (a x n : Z) :
  0 <= n -> 0 <= x < 2 ^ n -> Z.lor (Z.shiftl a n) x = a * 2 ^ n + x.
Proof.
  intros Hn Hx.
  rewrite <- Z.lxor_lor by (apply land_low_zero; assumption).
  rewrite <- Z.add_nocarry_lxor by (apply land_low_zero; assumption).
  rewrite Z.shiftl_mul_pow2 by assumption. reflexivity.
Qed.

Lemma land_mask (a n : Z) : 0 <= n -> Z.land a (Z.ones n) = a mod 2 ^ n.
Proof. intros Hn. apply Z.land_ones. assumption. Qed.

Lemma mask_3F (b : Z) : Z.land b 0x3F = b mod 64.
Proof. change 0x3F with (Z.ones 6). rewrite land_mask by lia. reflexivity. Qed.

Lemma mask_1F (b : Z) : Z.land b 0x1F = b mod 32.
Proof. change 0x1F with (Z.ones 5). rewrite land_mask by lia. reflexivity. Qed.

Lemma mask_F (b : Z) : Z.land b 0xF = b mod 16.
Proof. change 0xF with (Z.ones 4). rewrite land_mask by lia. reflexivity. Qed.

Lemma mask_7 (b : Z) : Z.land b 0x7 = b mod 8.
Proof. change 0x7 with (Z.ones 3). rewrite land_mask by lia. reflexivity. Qed.

Lemma mask_3FF (b : Z) : Z.land b 0x3FF = b mod 1024.
Proof. change 0x3FF with (Z.ones 10). rewrite land_mask by lia. reflexivity. Qed.

Lemma shiftr_6 (c : Z) : Z.shiftr c 6 = c / 64.
Proof. rewrite Z.shiftr_div_pow2 by lia. reflexivity. Qed.

Lemma shiftr_10 (c : Z) : Z.shiftr c 10 = c / 1024.
Proof. rewrite Z.shiftr_div_pow2 by lia. reflexivity. Qed.

Lemma shiftr_12 (c : Z) : Z.shiftr c 12 = c / 4096.
Proof. rewrite Z.shiftr_div_pow2 by lia. reflexivity. Qed.

Lemma shiftr_18 (c : Z) : Z.shiftr c 18 = c / 262144.
Proof. rewrite Z.shiftr_div_pow2 by lia. reflexivity. Qed.

Lemma utf8_cont_value (t : Z) : Z_of_byte (utf8_cont t) = 0x80 + t mod 64.
Proof.
  unfold utf8_cont. rewrite mask_3F.
  pose proof (Z.mod_pos_bound t 64 ltac:(lia)) as Hr.
  change 0x80 with (Z.shiftl 2 6).
  rewrite lor_shiftl_low; [|lia|change (2 ^ 6) with 64; lia].
  change (2 ^ 6) with 64. change (Z.shiftl 2 6) with 128.
  rewrite Z_of_byte_of_Z; lia.
Qed.

Lemma utf8_acc_value (cp b : Z) :
  Z.lor (Z.shiftl cp 6) (Z.land b 0x3F) = cp * 64 + b mod 64.
Proof.
  rewrite mask_3F.
  pose proof (Z.mod_pos_bound b 64 ltac:(lia)) as Hr.
  rewrite lor_shiftl_low; [|lia|change (2 ^ 6) with 64; lia].
  reflexivity.
Qed.

(** ** UTF-8: decoding what the encoder wrote *)

Lemma utf8_lead_ascii (b : Z) :
  0 <= b <= 0x7F -> utf8_step utf8_init b = ([b], utf8_init).
Proof.
  intros Hb. unfold utf8_step, utf8_lead. cbn [u_needed utf8_init].
  decide_tests. reflexivity.
Qed.

Lemma utf8_lead_two (x : Z) :
  2 <= x < 32 ->
  utf8_step utf8_init (x + 0xC0) =
  ([], {| u_cp := x; u_seen := 0; u_needed := 1; u_lower := 0x80; u_upper := 0xBF |}).
Proof.
  intros Hx. unfold utf8_step, utf8_lead. cbn [u_needed utf8_init].
  rewrite mask_1F. decide_tests.
  replace ((x + 192) mod 32) with x; [reflexivity|].
  apply Z.mod_unique with (q := 6); lia.
Qed.

Lemma utf8_lead_three (x : Z) :
  0 <= x < 16 ->
  utf8_step utf8_init (x + 0xE0) =
  ([], {| u_cp := x; u_seen := 0; u_needed := 2;
          u_lower := if x =? 0 then 0xA0 else 0x80;
          u_upper := if x =? 0xD then 0x9F else 0xBF |}).
Proof.
  intros Hx. unfold utf8_step, utf8_lead. cbn [u_needed utf8_init].
  rewrite mask_F.
  replace ((x + 224) mod 16) with x
    by (apply Z.mod_unique with (q := 14); lia).
  destruct (Z.eqb_spec x 0) as [->|H0]; [reflexivity|].
  destruct (Z.eqb_spec x 0xD) as [->|HD]; [reflexivity|].
  decide_tests. reflexivity.
Qed.

Lemma utf8_lead_four (x : Z) :
  0 <= x <= 4 ->
  utf8_step utf8_init (x + 0xF0) =
  ([], {| u_cp := x; u_seen := 0; u_needed := 3;
          u_lower := if x =? 0 then 0x90 else 0x80;
          u_upper := if x =? 4 then 0x8F else 0xBF |}).
Proof.
  intros Hx. unfold utf8_step, utf8_lead. cbn [u_needed utf8_init].
  rewrite mask_7.
  replace ((x + 240) mod 8) with x
    by (apply Z.mod_unique with (q := 30); lia).
  destruct (Z.eqb_spec x 0) as [->|H0]; [reflexivity|].
  destruct (Z.eqb_spec x 4) as [->|H4]; [reflexivity|].
  decide_tests. reflexivity.
Qed.

(** A continuation byte inside the expected range, with more to come. *)
Lemma utf8_cont_more (cp seen needed lo hi y : Z) :
  needed <> 0 -> seen + 1 <> needed -> 0 <= y < 64 ->
  lo <= 0x80 + y <= hi ->
  utf8_step {| u_cp := cp; u_seen := seen; u_needed := needed;
               u_lower := lo; u_upper := hi |} (0x80 + y) =
  ([], {| u_cp := cp * 64 + y; u_seen := seen + 1; u_needed := needed;
          u_lower := 0x80; u_upper := 0xBF |}).
Proof.
  intros Hn Hs Hy Hr. unfold utf8_step.
  cbn [u_needed u_lower u_upper u_cp u_seen].
  rewrite utf8_acc_value.
  replace ((128 + y) mod 64) with y
    by (apply Z.mod_unique with (q := 2); lia).
  decide_tests. reflexivity.
Qed.

(** The last continuation byte of a sequence. *)
Lemma utf8_cont_last (cp seen needed lo hi y : Z) :
  needed <> 0 -> seen + 1 = needed -> 0 <= y < 64 ->
  lo <= 0x80 + y <= hi ->
  utf8_step {| u_cp := cp; u_seen := seen; u_needed := needed;
               u_lower := lo; u_upper := hi |} (0x80 + y) =
  ([cp * 64 + y], utf8_init).
Proof.
  intros Hn Hs Hy Hr. unfold utf8_step.
  cbn [u_needed u_lower u_upper u_cp u_seen].
  rewrite utf8_acc_value.
  replace ((128 + y) mod 64) with y
    by (apply Z.mod_unique with (q := 2); lia).
  decide_tests. reflexivity.
Qed.

Lemma utf8_run_cons (st : utf8_state) (b : byte) (rest : list byte) :
  utf8_run st (b :: rest) =
  fst (utf8_step st (Z_of_byte b)) ++ utf8_run (snd (utf8_step st (Z_of_byte b))) rest.
Proof. cbn [utf8_run]. destruct (utf8_step st (Z_of_byte b)). reflexivity. Qed.

Lemma utf8_run_encode_cp (c : Z) (rest : list byte) :
  scalar_value c ->
  utf8_run utf8_init (utf8_encode_cp c ++ rest) = c :: utf8_run utf8_init rest.
Proof.
  intros Hc. unfold scalar_value in Hc. unfold utf8_encode_cp.
  destruct (Z.ltb_spec c 0x80) as [H1|H1].
  { cbn [app]. rewrite utf8_run_cons, Z_of_byte_of_Z by lia.
    rewrite utf8_lead_ascii by lia. reflexivity. }
  destruct (Z.ltb_spec c 0x800) as [H2|H2].
  { cbn [app]. rewrite !utf8_run_cons.
    rewrite shiftr_6, utf8_cont_value.
    rewrite Z_of_byte_of_Z by arith.
    rewrite utf8_lead_two by arith. cbn [fst snd app].
    rewrite utf8_cont_last by arith. cbn [fst snd app].
    f_equal. arith. }
  destruct (Z.ltb_spec c 0x10000) as [H3|H3].
  { cbn [app]. rewrite !utf8_run_cons.
    rewrite shiftr_12, shiftr_6, !utf8_cont_value.
    rewrite Z_of_byte_of_Z by arith.
    rewrite utf8_lead_three by arith. cbn [fst snd app].
    rewrite utf8_cont_more; [ | lia | lia | arith | ].
    2:{ destruct (Z.eqb_spec (c / 4096) 0); destruct (Z.eqb_spec (c / 4096) 13); arith. }
    cbn [fst snd app].
    rewrite utf8_cont_last by arith. cbn [fst snd app].
    f_equal. arith. }
  { cbn [app]. rewrite !utf8_run_cons.
    rewrite shiftr_18, shiftr_12, shiftr_6, !utf8_cont_value.
    rewrite Z_of_byte_of_Z by arith.
    rewrite utf8_lead_four by arith. cbn [fst snd app].
    rewrite utf8_cont_more; [ | lia | lia | arith | ].
    2:{ destruct (Z.eqb_spec (c / 262144) 0); destruct (Z.eqb_spec (c / 262144) 4); arith. }
    cbn [fst snd app].
    rewrite utf8_cont_more by arith. cbn [fst snd app].
    rewrite utf8_cont_last by arith. cbn [fst snd app].
    f_equal. arith. }
Qed.

Lemma utf8_run_encode (cps : list Z) :
  Forall scalar_value cps ->
  utf8_run utf8_init (flat_map utf8_encode_cp cps) = cps.
Proof.
  induction 1 as [|c cps Hc _ IH]; [reflexivity|].
  cbn [flat_map]. rewrite utf8_run_encode_cp by assumption.
  rewrite IH. reflexivity.
Qed.

(** ** UTF-16: a well-formed string and its scalar values *)

Lemma utf16_units_pair (u v : Z) :
  is_high_surrogate u = true -> is_low_surrogate v = true ->
  utf16_units (0x10000 + (u - 0xD800) * 0x400 + (v - 0xDC00)) = [u; v].
Proof.
  unfold is_high_surrogate, is_low_surrogate, utf16_units.
  rewrite !andb_true_iff, !Z.leb_le. intros [Hu1 Hu2] [Hv1 Hv2].
  rewrite shiftr_10, mask_3FF. decide_tests.
  f_equal; [|f_equal]; arith.
Qed.

Lemma utf16_units_bmp (u : Z) : u <= 0xFFFF -> utf16_units u = [u].
Proof. intros Hu. unfold utf16_units. decide_tests. reflexivity. Qed.

Lemma code_points_well_formed_aux (n : nat) (s : jsstring) :
  (length s <= n)%nat -> well_formed s = true ->
  Forall scalar_value (code_points s) /\
  flat_map utf16_units (code_points s) = s.
Proof.
  revert s. induction n as [|n IH]; intros s Hlen Hwf.
  { destruct s; [split; [constructor|reflexivity]|simpl in Hlen; lia]. }
  destruct s as [|u rest]; [split; [constructor|reflexivity]|].
  cbn [well_formed code_points] in *.
  destruct (is_high_surrogate u) eqn:Hhi.
  - destruct rest as [|v rest']; [discriminate|].
    apply andb_true_iff in Hwf as [Hlo Hwf]. rewrite Hlo.
    destruct (IH rest') as [Hsc Hrt]; [simpl in Hlen; lia|assumption|].
    split.
    + constructor; [|assumption].
      unfold is_high_surrogate, is_low_surrogate in Hhi, Hlo.
      rewrite !andb_true_iff, !Z.leb_le in Hhi, Hlo.
      unfold scalar_value. lia.
    + cbn [flat_map]. rewrite utf16_units_pair by assumption.
      rewrite Hrt. reflexivity.
  - rewrite !andb_true_iff in Hwf. destruct Hwf as [[[Hlo H0] Hmax] Hwf].
    apply negb_true_iff in Hlo. rewrite Hlo.
    apply Z.leb_le in H0, Hmax.
    destruct (IH rest) as [Hsc Hrt]; [simpl in Hlen; lia|assumption|].
    split.
    + constructor; [|assumption].
      unfold is_high_surrogate, is_low_surrogate in Hhi, Hlo.
      rewrite !andb_false_iff, !Z.leb_gt in Hhi, Hlo.
      unfold scalar_value. lia.
    + cbn [flat_map]. rewrite utf16_units_bmp by assumption.
      rewrite Hrt. reflexivity.
Qed.

Lemma code_points_scalar (s : jsstring) :
  well_formed s = true -> Forall scalar_value (code_points s).
Proof. intros H. eapply code_points_well_formed_aux; eauto. Qed.

Lemma code_points_units (s : jsstring) :
  well_formed s = true -> flat_map utf16_units (code_points s) = s.
Proof. intros H. eapply code_points_well_formed_aux; eauto. Qed.

Lemma well_formed_tail_bmp (u : Z) (rest : jsstring) :
  is_high_surrogate u = false -> well_formed (u :: rest) = true ->
  well_formed rest = true.
Proof.
  intros Hu. cbn [well_formed]. rewrite Hu, !andb_true_iff. tauto.
Qed.

Lemma text_round_trip (s : jsstring) :
  well_formed s = true ->
  arrayBufferToString (stringToArrayBuffer s) = without_bom s.
Proof.
  intros Hwf.
  unfold arrayBufferToString, stringToArrayBuffer, TextDecoder_decode, TextEncoder_encode.
  rewrite utf8_run_encode by (apply code_points_scalar; assumption).
  destruct s as [|u rest]; [reflexivity|].
  cbn [without_bom].
  destruct (Z.eqb_spec u 0xFEFF) as [->|Hne].
  - assert (well_formed rest = true) as Hr
      by (eapply well_formed_tail_bmp; [|eassumption]; reflexivity).
    change (code_points (0xFEFF :: rest)) with (0xFEFF :: code_points rest).
    cbn [strip_bom]. rewrite Z.eqb_refl.
    apply code_points_units; assumption.
  - pose proof (code_points_units _ Hwf) as Hrt.
    assert (strip_bom (code_points (u :: rest)) = code_points (u :: rest)) as ->;
      [|assumption].
    cbn [code_points well_formed] in *.
    destruct (is_high_surrogate u) eqn:Hhi.
    + destruct rest as [|v rest']; [discriminate|].
      apply andb_true_iff in Hwf as [Hlo _]. rewrite Hlo.
      cbn [strip_bom].
      unfold is_high_surrogate, is_low_surrogate in Hhi, Hlo.
      rewrite !andb_true_iff, !Z.leb_le in Hhi, Hlo.
      decide_tests. reflexivity.
    + rewrite !andb_true_iff in Hwf. destruct Hwf as [[[Hlo _] _] _].
      apply negb_true_iff in Hlo. rewrite Hlo.
      cbn [strip_bom]. decide_tests. reflexivity.
Qed.

Lemma text_round_trip_no_bom (s : jsstring) :
  well_formed s = true -> without_bom s = s ->
  arrayBufferToString (stringToArrayBuffer s) = s.
Proof. intros Hwf Hb. rewrite text_round_trip by assumption. exact Hb. Qed.

(** ** base64: decoding what the encoder wrote *)

Lemma byte_of_Z_unique (z : Z) (b : byte) :
  z mod 256 = Z_of_byte b -> byte_of_Z z = b.
Proof.
  intros H. rewrite <- (byte_of_Z_of_byte b). unfold byte_of_Z.
  rewrite <- H, Z.mod_mod by lia. reflexivity.
Qed.

Lemma map_byte_of_Z_of_byte (bs : list byte) :
  map byte_of_Z (map Z_of_byte bs) = bs.
Proof.
  induction bs as [|b bs IH]; [reflexivity|].
  cbn [map]. rewrite byte_of_Z_of_byte, IH. reflexivity.
Qed.

(** Induction over a list three elements at a time. *)
Lemma list_ind3 {A : Type} (P : list A -> Prop) :
  P [] -> (forall a, P [a]) -> (forall a b, P [a; b]) ->
  (forall a b c l, P l -> P (a :: b :: c :: l)) ->
  forall l, P l.
Proof.
  intros H0 H1 H2 H3.
  assert (forall l, P l /\ (forall a, P (a :: l)) /\ (forall a b, P (a :: b :: l)))
    as Hall.
  { induction l as [|x l (IHa & IHb & IHc)].
    - repeat split; auto.
    - repeat split; auto. }
  intros l. apply Hall.
Qed.

Lemma b64_char_index (n : Z) : sextet n -> b64_index (b64_char n) = Some n.
Proof.
  unfold sextet, b64_char, b64_index. intros Hn.
  destruct (Z.ltb_spec n 26); [decide_tests; f_equal; lia|].
  destruct (Z.ltb_spec n 52); [decide_tests; f_equal; lia|].
  destruct (Z.ltb_spec n 62); [decide_tests; f_equal; lia|].
  destruct (Z.eqb_spec n 62); decide_tests; f_equal; lia.
Qed.

Lemma b64_char_not_space (n : Z) :
  sextet n -> is_ascii_whitespace (b64_char n) = false.
Proof.
  unfold sextet, b64_char, is_ascii_whitespace. intros Hn.
  destruct (Z.ltb_spec n 26); [decide_tests; reflexivity|].
  destruct (Z.ltb_spec n 52); [decide_tests; reflexivity|].
  destruct (Z.ltb_spec n 62); [decide_tests; reflexivity|].
  destruct (Z.eqb_spec n 62); reflexivity.
Qed.

Lemma b64_char_not_pad (n : Z) : sextet n -> b64_char n <> 61.
Proof.
  unfold sextet, b64_char. intros Hn.
  destruct (Z.ltb_spec n 26); [lia|].
  destruct (Z.ltb_spec n 52); [lia|].
  destruct (Z.ltb_spec n 62); [lia|].
  destruct (Z.eqb_spec n 62); lia.
Qed.

Lemma b64_sextets_range (bs : list byte) : Forall sextet (b64_sextets bs).
Proof.
  induction bs as [| b1 | b1 b2 | b1 b2 b3 rest IH] using list_ind3;
    cbn [b64_sextets]; unfold sextet;
    try pose proof (Z_of_byte_range b1);
    try pose proof (Z_of_byte_range b2);
    try pose proof (Z_of_byte_range b3);
    repeat (constructor; [arith|]); auto.
Qed.

Lemma b64_indices_chars (l : list Z) :
  Forall sextet l -> b64_indices (map b64_char l) = Some l.
Proof.
  induction 1 as [|n l Hn _ IH]; [reflexivity|].
  cbn [map b64_indices]. rewrite b64_char_index by assumption.
  rewrite IH. reflexivity.
Qed.

Lemma b64_decode_sextets (bs : list byte) :
  b64_decode_groups (b64_sextets bs) = bs.
Proof.
  induction bs as [| b1 | b1 b2 | b1 b2 b3 rest IH] using list_ind3;
    cbn [b64_sextets b64_decode_groups];
    try pose proof (Z_of_byte_range b1);
    try pose proof (Z_of_byte_range b2);
    try pose proof (Z_of_byte_range b3).
  - reflexivity.
  - f_equal. apply byte_of_Z_unique. arith.
  - f_equal; [|f_equal]; apply byte_of_Z_unique; arith.
  - rewrite IH.
    set (n := (Z_of_byte b1 * 256 + Z_of_byte b2) * 256 + Z_of_byte b3).
    assert (((n / 262144 * 64 + (n / 4096) mod 64) * 64 + (n / 64) mod 64) * 64
            + n mod 64 = n) as -> by arith.
    f_equal; [|f_equal; [|f_equal]]; apply byte_of_Z_unique; subst n; arith.
Qed.

Lemma filter_id {A : Type} (f : A -> bool) (l : list A) :
  Forall (fun x => f x = true) l -> List.filter f l = l.
Proof.
  induction 1 as [|x l Hx _ IH]; [reflexivity|].
  cbn [List.filter]. rewrite Hx, IH. reflexivity.
Qed.

Lemma b64_padding_cases (bs : list byte) :
  b64_padding bs = [] \/ b64_padding bs = [61] \/ b64_padding bs = [61; 61].
Proof.
  induction bs as [| b1 | b1 b2 | b1 b2 b3 rest IH] using list_ind3;
    cbn [b64_padding]; auto.
Qed.

Lemma base64_encode_no_space (bs : list byte) :
  Forall (fun c => negb (is_ascii_whitespace c) = true) (base64_encode bs).
Proof.
  unfold base64_encode. apply Forall_app. split.
  - pose proof (b64_sextets_range bs) as Hr.
    induction Hr as [|n l Hn _ IH]; cbn [map]; constructor; auto.
    rewrite b64_char_not_space by assumption. reflexivity.
  - destruct (b64_padding_cases bs) as [-> | [-> | ->]];
      repeat constructor.
Qed.

(** The encoder's output is a whole number of four-character groups; without
    its padding it is never one character more than that. *)
Lemma base64_encode_length (bs : list byte) :
  exists k : nat,
    (length (b64_sextets bs) + length (b64_padding bs) = 4 * k)%nat /\
    (length (b64_padding bs) = 0%nat \/
     length (b64_sextets bs) = (4 * k - length (b64_padding bs))%nat /\
     (1 <= length (b64_padding bs) <= 2)%nat).
Proof.
  induction bs as [| b1 | b1 b2 | b1 b2 b3 rest IH] using list_ind3;
    cbn [b64_sextets b64_padding length].
  - exists 0%nat. lia.
  - exists 1%nat. lia.
  - exists 1%nat. lia.
  - destruct IH as (k & Hk & Hp). exists (S k). lia.
Qed.

Lemma drop_trailing_pad_snoc (s : jsstring) : drop_trailing_pad (s ++ [61]) = s.
Proof.
  unfold drop_trailing_pad. rewrite rev_app_distr. cbn [rev app].
  rewrite Z.eqb_refl. apply rev_involutive.
Qed.

Lemma drop_trailing_pad_chars (l : list Z) :
  Forall sextet l -> drop_trailing_pad (map b64_char l) = map b64_char l.
Proof.
  intros Hl. unfold drop_trailing_pad.
  rewrite <- map_rev.
  assert (Forall sextet (rev l)) as Hr by (apply Forall_rev; assumption).
  destruct Hr as [|n r Hn _]; [reflexivity|].
  cbn [map]. pose proof (b64_char_not_pad n Hn) as Hne.
  apply Z.eqb_neq in Hne. rewrite Hne. reflexivity.
Qed.

Lemma strip_padding_encode (bs : list byte) :
  drop_trailing_pad (drop_trailing_pad (base64_encode bs)) =
  map b64_char (b64_sextets bs).
Proof.
  unfold base64_encode. pose proof (b64_sextets_range bs) as Hr.
  destruct (b64_padding_cases bs) as [-> | [-> | ->]].
  - rewrite app_nil_r, !drop_trailing_pad_chars by assumption. reflexivity.
  - rewrite drop_trailing_pad_snoc, drop_trailing_pad_chars by assumption.
    reflexivity.
  - change [61; 61] with ([61] ++ [61]). rewrite app_assoc.
    rewrite !drop_trailing_pad_snoc. reflexivity.
Qed.

Lemma atob_base64_encode (bs : list byte) :
  atob (base64_encode bs) = Ok (map Z_of_byte bs).
Proof.
  unfold atob.
  rewrite filter_id by apply base64_encode_no_space.
  destruct (base64_encode_length bs) as (k & Hk & Hp).
  assert (length (base64_encode bs) = (4 * k)%nat) as Hlen.
  { unfold base64_encode. rewrite length_app, length_map. exact Hk. }
  rewrite Hlen.
  replace (Z.of_nat (4 * k) mod 4 =? 0) with true
    by (symmetry; apply Z.eqb_eq; arith).
  rewrite strip_padding_encode, length_map.
  replace (Z.of_nat (length (b64_sextets bs)) mod 4 =? 1) with false.
  2:{ symmetry. apply Z.eqb_neq. destruct Hp as [Hp | [Hs Hp]]; arith. }
  rewrite b64_indices_chars by apply b64_sextets_range.
  rewrite b64_decode_sextets. reflexivity.
Qed.

Lemma base64_round_trip (bs : list byte) :
  exists blob, arrayBufferToBase64 bs = Ok blob /\ base64ToArrayBuffer blob = Ok bs.
Proof.
  exists (base64_encode bs). split.
  - unfold arrayBufferToBase64, btoa.
    assert (forallb (fun u => (0 <=? u) && (u <=? 0xFF)) (map Z_of_byte bs) = true)
      as ->.
    { apply forallb_forall. intros u Hu. apply in_map_iff in Hu as (b & <- & _).
      pose proof (Z_of_byte_range b). apply andb_true_iff.
      rewrite !Z.leb_le. lia. }
    rewrite map_byte_of_Z_of_byte. reflexivity.
  - unfold base64ToArrayBuffer. rewrite atob_base64_encode. cbn [rbind].
    rewrite map_byte_of_Z_of_byte. reflexivity.
Qed.

(** ** Sealing and opening a field *)

Section SealOpen.
Context {host : Platform}.

Lemma arrayBufferToBase64_ok (bs : list byte) :
  arrayBufferToBase64 bs = Ok (base64_encode bs).
Proof.
  destruct (base64_round_trip bs) as (blob & Hb & _).
  unfold arrayBufferToBase64, btoa in *.
  destruct (forallb _ _); [|discriminate].
  rewrite map_byte_of_Z_of_byte. reflexivity.
Qed.

Lemma base64ToArrayBuffer_encode (bs : list byte) :
  base64ToArrayBuffer (base64_encode bs) = Ok bs.
Proof.
  destruct (base64_round_trip bs) as (blob & Hb & Hd).
  rewrite arrayBufferToBase64_ok in Hb. injection Hb as <-. exact Hd.
Qed.

Lemma getRandomBytes_length (n : nat) (e : entropy) :
  length (fst (getRandomBytes n e)) = n.
Proof. unfold getRandomBytes. cbn [fst]. rewrite length_map, length_seq. reflexivity. Qed.

Lemma aesEncrypt_run (plaintext : jsstring) (key : aes_key) (e : entropy) :
  aesEncrypt plaintext key e =
  (Ok (base64_encode (sealed_bytes plaintext key e)), snd (getRandomBytes IV_LENGTH e)).
Proof.
  unfold aesEncrypt, io_bind, io_random, io_lift, sealed_bytes.
  destruct (getRandomBytes IV_LENGTH e) as [iv e'] eqn:Hiv. cbn [fst snd].
  rewrite arrayBufferToBase64_ok. reflexivity.
Qed.

Lemma aesDecrypt_combined (iv ciphertext : list byte) (key : aes_key) :
  length iv = IV_LENGTH ->
  aesDecrypt (base64_encode (iv ++ ciphertext)) key =
  await plaintextBuffer <- subtle_decrypt key iv ciphertext;
  Ok (arrayBufferToString plaintextBuffer).
Proof.
  intros Hlen. unfold aesDecrypt.
  rewrite base64ToArrayBuffer_encode. cbn [rbind].
  rewrite take_app_length', drop_app_length' by (symmetry; exact Hlen).
  reflexivity.
Qed.

Lemma aesDecrypt_sealed (s : jsstring) (k : aes_key) (e : entropy) :
  gcm_correct -> well_formed s = true ->
  aesDecrypt (base64_encode (sealed_bytes s k e)) k = Ok (without_bom s).
Proof.
  intros Hgcm Hwf.
  unfold sealed_bytes. rewrite aesDecrypt_combined by apply getRandomBytes_length.
  unfold subtle_decrypt. rewrite Hgcm. cbn [rbind].
  rewrite text_round_trip by assumption. reflexivity.
Qed.

(** Opening a sealed field under the key that sealed it: the plaintext comes
    back, short of a leading byte order mark. *)
Lemma aes_round_trip (s : jsstring) (k : aes_key) (e : entropy) :
  gcm_correct -> well_formed s = true ->
  exists blob,
    fst (aesEncrypt s k e) = Ok blob /\ aesDecrypt blob k = Ok (without_bom s).
Proof.
  intros Hgcm Hwf. rewrite aesEncrypt_run. cbn [fst].
  eexists. split; [reflexivity|]. apply aesDecrypt_sealed; assumption.
Qed.

End SealOpen.

(** ** The small platform obeys the laws *)

Lemma Z_of_byte_of_Z_mod (z : Z) : Z_of_byte (byte_of_Z z) = z mod 256.
Proof.
  assert (byte_of_Z z = byte_of_Z (z mod 256)) as ->.
  { unfold byte_of_Z. rewrite Z.mod_mod by lia. reflexivity. }
  apply Z_of_byte_of_Z. apply Z.mod_pos_bound. lia.
Qed.

Lemma Z_of_byte_inj (a b : byte) : Z_of_byte a = Z_of_byte b -> a = b.
Proof.
  intros Hab. rewrite <- (byte_of_Z_of_byte a), <- (byte_of_Z_of_byte b), Hab.
  reflexivity.
Qed.

Lemma toy_checksum_range (c : list byte) : 0 <= toy_checksum c < 256.
Proof.
  destruct c as [|b c]; cbn [toy_checksum fold_right]; [lia|].
  apply Z.mod_pos_bound. lia.
Qed.

Lemma toy_checksum_insert (c : list byte) (j : nat) (b b' : byte) :
  c !! j = Some b -> b' <> b ->
  toy_checksum (<[j := b']> c) <> toy_checksum c.
Proof.
  revert j. induction c as [|x c IH]; intros j Hj Hne; [discriminate|].
  destruct j as [|j]; cbn in Hj.
  - injection Hj as ->. cbn [toy_checksum fold_right insert list_insert].
    fold (toy_checksum c).
    pose proof (toy_checksum_range c). pose proof (Z_of_byte_range b).
    pose proof (Z_of_byte_range b').
    assert (Z_of_byte b' <> Z_of_byte b) by (intros Heq; apply Hne, Z_of_byte_inj, Heq).
    arith.
  - specialize (IH j Hj Hne).
    change (<[S j := b']> (x :: c)) with (x :: <[j := b']> c).
    cbn [toy_checksum fold_right].
    fold (toy_checksum c). fold (toy_checksum (<[j := b']> c)).
    pose proof (toy_checksum_range c).
    pose proof (toy_checksum_range (<[j := b']> c)).
    pose proof (Z_of_byte_range x).
    arith.
Qed.

Lemma toy_open_snoc (k k' t : byte) (iv c : list byte) :
  toy_open k iv (c ++ [k'; t]) =
  if (Z_of_byte k' =? Z_of_byte k) && (Z_of_byte t =? toy_checksum c)
  then Some (map (fun b => byte_of_Z (Z_of_byte b - Z_of_byte k)) c)
  else None.
Proof.
  unfold toy_open. rewrite rev_app_distr. cbn [rev app].
  rewrite rev_involutive. reflexivity.
Qed.

Lemma toy_ec_mul_law : ec_mul_law (host := toy).
Proof.
  intros a b P. cbn [ec_mul toy].
  rewrite Z.mul_mod_idemp_r by lia. f_equal. lia.
Qed.

Lemma toy_gcm_correct : gcm_correct (host := toy).
Proof.
  intros k iv p. cbn [gcm_decrypt gcm_encrypt toy]. unfold toy_seal.
  rewrite toy_open_snoc, Z.eqb_refl.
  rewrite Z_of_byte_of_Z by apply toy_checksum_range.
  rewrite Z.eqb_refl. cbn [andb]. f_equal.
  rewrite map_map. rewrite <- (map_id p) at 2.
  apply map_ext. intros b. apply byte_of_Z_unique.
  rewrite Z_of_byte_of_Z_mod.
  pose proof (Z_of_byte_range b). pose proof (Z_of_byte_range k). arith.
Qed.


Lemma toy_gcm_integrity : gcm_integrity (host := toy).
Proof.
  intros k iv p j b b' Hj Hne. cbn [gcm_decrypt gcm_encrypt toy] in *.
  unfold toy_seal in *.
  set (c := map (fun b => byte_of_Z (Z_of_byte b + Z_of_byte k)) p) in *.
  destruct (Nat.lt_ge_cases j (length c)) as [Hlt|Hge].
  - rewrite insert_app_l by exact Hlt.
    rewrite lookup_app_l in Hj by exact Hlt.
    rewrite toy_open_snoc.
    rewrite Z_of_byte_of_Z by apply toy_checksum_range.
    pose proof (toy_checksum_insert c j b b' Hj Hne) as Hcs.
    assert ((toy_checksum c =? toy_checksum (<[j := b']> c)) = false) as ->
      by (apply Z.eqb_neq; congruence).
    rewrite andb_false_r. reflexivity.
  - rewrite lookup_app_r in Hj by exact Hge.
    rewrite insert_app_r_alt by exact Hge.
    destruct (j - length c)%nat as [|[|n]] eqn:Hd; cbn in Hj.
    + injection Hj as <-.
      change (<[0%nat := b']> [k; byte_of_Z (toy_checksum c)])
        with [b'; byte_of_Z (toy_checksum c)].
      rewrite toy_open_snoc.
      assert ((Z_of_byte b' =? Z_of_byte k) = false) as ->; [|reflexivity].
      apply Z.eqb_neq. intros Heq. apply Hne, Z_of_byte_inj, Heq.
    + injection Hj as <-.
      change (<[1%nat := b']> [k; byte_of_Z (toy_checksum c)]) with [k; b'].
      rewrite toy_open_snoc.
      assert ((Z_of_byte b' =? toy_checksum c) = false) as ->;
        [|rewrite andb_false_r; reflexivity].
      apply Z.eqb_neq. intros Heq. apply Hne.
      rewrite <- Heq. symmetry. apply byte_of_Z_of_byte.
    + discriminate.
Qed.

(** ** Shared-secret agreement *)

Section Agreement.
Context {host : Platform}.

Lemma ecdh_point_symmetric (a b : Z) :
  ec_mul_law -> ec_mul a (ec_mul b ec_base) = ec_mul b (ec_mul a ec_base).
Proof.
  intros Hlaw. rewrite !Hlaw. f_equal. apply Z.mul_comm.
Qed.

Lemma deriveSharedSecret_imported (priv pub : jsstring) (d : Z) (Q : ec_point) :
  importECDHPrivateKey priv = Ok d -> importECDHPublicKey pub = Ok Q ->
  deriveSharedSecret priv pub = Ok (aes_import (ecdh_bits d Q AES_KEY_LENGTH)).
Proof.
  intros Hd HQ. unfold deriveSharedSecret. rewrite Hd. cbn [rbind].
  rewrite HQ. reflexivity.
Qed.

(** C1. For every two valid ECDH key pairs A and B,
    [deriveSharedSecret(A.privateKey, B.publicKey)] and
    [deriveSharedSecret(B.privateKey, A.publicKey)] both succeed and yield
    the same AES key (the curve's scalar multiplication composing as
    [a]([b]P) = [ab]P). *)
Theorem deriveSharedSecret_symmetric (A B : KeyPair) :
  ec_mul_law -> valid_key_pair A -> valid_key_pair B ->
  exists k : aes_key,
    deriveSharedSecret (privateKey A) (publicKey B) = Ok k /\
    deriveSharedSecret (privateKey B) (publicKey A) = Ok k.
Proof.
  intros Hlaw (a & Ha_priv & Ha_pub) (b & Hb_priv & Hb_pub).
  exists (aes_import (ecdh_bits a (ec_mul b ec_base) AES_KEY_LENGTH)). split.
  - apply deriveSharedSecret_imported; assumption.
  - rewrite (deriveSharedSecret_imported _ _ b (ec_mul a ec_base)) by assumption.
    unfold ecdh_bits. rewrite (ecdh_point_symmetric a b Hlaw). reflexivity.
Qed.

End Agreement.

Lemma toy_pair_valid (d : Z) : valid_key_pair (host := toy) (toy_pair d).
Proof. exists d. split; reflexivity. Qed.

Lemma deriveSharedSecret_symmetric_witness :
  ec_mul_law (host := toy) /\
  valid_key_pair (host := toy) (toy_pair 5) /\
  valid_key_pair (host := toy) (toy_pair 11) /\
  exists k : byte,
    deriveSharedSecret (host := toy) (privateKey (toy_pair 5)) (publicKey (toy_pair 11)) = Ok k /\
    deriveSharedSecret (host := toy) (privateKey (toy_pair 11)) (publicKey (toy_pair 5)) = Ok k.
Proof.
  split; [exact toy_ec_mul_law|].
  split; [exact (toy_pair_valid 5)|].
  split; [exact (toy_pair_valid 11)|].
  exact (deriveSharedSecret_symmetric (host := toy) (toy_pair 5) (toy_pair 11)
           toy_ec_mul_law (toy_pair_valid 5) (toy_pair_valid 11)).
Defined.

(** ** Round trips of a sealed field and of a wrapped private key *)

Section RoundTrips.
Context {host : Platform}.

(** A sealed field opens to its plaintext when that does not begin with
    U+FEFF; the empty string is no exception. *)
Lemma aes_round_trip_no_bom (s : jsstring) (k : aes_key) (e : entropy) :
  gcm_correct -> well_formed s = true -> without_bom s = s ->
  exists blob, fst (aesEncrypt s k e) = Ok blob /\ aesDecrypt blob k = Ok s.
Proof.
  intros Hgcm Hwf Hbom.
  destruct (aes_round_trip s k e Hgcm Hwf) as (blob & Henc & Hdec).
  exists blob. split; [exact Henc|]. rewrite Hdec, Hbom. reflexivity.
Qed.

Lemma aes_round_trip_empty (k : aes_key) (e : entropy) :
  gcm_correct ->
  exists blob, fst (aesEncrypt [] k e) = Ok blob /\ aesDecrypt blob k = Ok [].
Proof. intros Hgcm. apply aes_round_trip_no_bom; auto. Qed.

(** C2, at the failing input. A plaintext that begins with U+FEFF does not
    come back from [aesDecrypt (aesEncrypt s k) k]: the decoder drops the
    mark, so the string returned is the rest of [s] and differs from [s]. *)
Theorem aes_round_trip_loses_bom (rest : jsstring) (k : aes_key) (e : entropy) :
  gcm_correct -> well_formed rest = true ->
  exists blob,
    fst (aesEncrypt (0xFEFF :: rest) k e) = Ok blob /\
    aesDecrypt blob k = Ok rest /\
    rest <> 0xFEFF :: rest.
Proof.
  intros Hgcm Hwf.
  assert (well_formed (0xFEFF :: rest) = true) as Hwf'.
  { cbn [well_formed]. rewrite Hwf. reflexivity. }
  destruct (aes_round_trip (0xFEFF :: rest) k e Hgcm Hwf') as (blob & Henc & Hdec).
  exists blob. split; [exact Henc|]. split; [exact Hdec|].
  intros Heq. apply (f_equal (@length Z)) in Heq. cbn [length] in Heq. lia.
Qed.

Lemma json_object_text_no_bom (s : jsstring) :
  json_object_text s -> well_formed s = true /\ without_bom s = s.
Proof.
  intros [Hwf (body & ->)]. split; [exact Hwf|]. reflexivity.
Qed.

(** C5. For every serialized private key [pk], passphrase [pp] and salt,
    [encryptPrivateKey pk pp salt] succeeds and
    [decryptPrivateKey] of its result under the same passphrase and salt
    is [pk]. *)
Theorem private_key_round_trip (pk pp salt : jsstring) (e : entropy) :
  gcm_correct -> json_object_text pk ->
  exists blob,
    fst (encryptPrivateKey pk pp salt e) = Ok blob /\
    decryptPrivateKey blob pp salt = Ok pk.
Proof.
  intros Hgcm Hpk.
  destruct (json_object_text_no_bom pk Hpk) as [Hwf Hbom].
  unfold encryptPrivateKey, decryptPrivateKey.
  apply aes_round_trip_no_bom; assumption.
Qed.

(** X9. What one party seals for the other, the other opens: the second form of
    the symmetry of the shared secret. *)
Lemma sealed_by_one_opens_by_other (A B : KeyPair) (s : jsstring) (e : entropy) :
  ec_mul_law -> gcm_correct -> valid_key_pair A -> valid_key_pair B ->
  well_formed s = true -> without_bom s = s ->
  exists blob,
    fst (encryptWithSharedSecret s (privateKey A) (publicKey B) e) = Ok blob /\
    decryptWithSharedSecret blob (privateKey B) (publicKey A) = Ok s.
Proof.
  intros Hlaw Hgcm (a & Ha_priv & Ha_pub) (b & Hb_priv & Hb_pub) Hwf Hbom.
  unfold encryptWithSharedSecret, decryptWithSharedSecret, io_bind, io_lift.
  rewrite (deriveSharedSecret_imported _ _ a (ec_mul b ec_base)) by assumption.
  rewrite (deriveSharedSecret_imported _ _ b (ec_mul a ec_base)) by assumption.
  cbn [rbind]. unfold ecdh_bits. rewrite (ecdh_point_symmetric b a Hlaw).
  apply aes_round_trip_no_bom; assumption.
Qed.

End RoundTrips.

Lemma toy_jwk_text (n : Z) :
  0 <= n < 0xD800 -> json_object_text (toy_jwk n).
Proof.
  intros Hn. split; [|eexists; reflexivity].
  unfold toy_jwk. cbn [well_formed].
  unfold is_high_surrogate, is_low_surrogate. decide_tests. reflexivity.
Qed.

Lemma aes_round_trip_loses_bom_witness :
  gcm_correct (host := toy) /\ well_formed (str "hi") = true /\
  exists blob,
    fst (aesEncrypt (host := toy) (0xFEFF :: str "hi") (byte_of_Z 5) toy_entropy) = Ok blob /\
    aesDecrypt (host := toy) blob (byte_of_Z 5) = Ok (str "hi") /\
    str "hi" <> 0xFEFF :: str "hi".
Proof.
  split; [exact toy_gcm_correct|]. split; [reflexivity|].
  exact (aes_round_trip_loses_bom (host := toy) (str "hi") (byte_of_Z 5) toy_entropy
           toy_gcm_correct eq_refl).
Defined.

Lemma private_key_round_trip_witness :
  gcm_correct (host := toy) /\ json_object_text (toy_jwk 5) /\
  exists blob,
    fst (encryptPrivateKey (host := toy) (toy_jwk 5) (str "secret") (str "salt") toy_entropy)
      = Ok blob /\
    decryptPrivateKey (host := toy) blob (str "secret") (str "salt") = Ok (toy_jwk 5).
Proof.
  split; [exact toy_gcm_correct|].
  split; [apply toy_jwk_text; lia|].
  exact (private_key_round_trip (host := toy) (toy_jwk 5) (str "secret") (str "salt")
           toy_entropy toy_gcm_correct (toy_jwk_text 5 ltac:(lia))).
Defined.

(** ** Tampering and wrong keys *)

Section Rejection.
Context {host : Platform}.

Lemma aesEncrypt_blob (s : jsstring) (k : aes_key) (e : entropy) (blob : jsstring) :
  fst (aesEncrypt s k e) = Ok blob -> blob = base64_encode (sealed_bytes s k e).
Proof. rewrite aesEncrypt_run. cbn [fst]. intros Heq. injection Heq as <-. reflexivity. Qed.

(** C3. For every blob that [aesEncrypt] produced under key [k], changing
    any one byte behind the 12-byte IV (ciphertext or tag) makes
    [aesDecrypt] under [k] reject with an [OperationError]; no plaintext is
    returned. *)
Theorem aesDecrypt_rejects_tampering
    (s : jsstring) (k : aes_key) (e : entropy) (blob : jsstring)
    (combined : list byte) (i : nat) (b b' : byte) :
  gcm_integrity ->
  fst (aesEncrypt s k e) = Ok blob ->
  blob_bytes blob combined ->
  (IV_LENGTH <= i)%nat -> combined !! i = Some b -> b' <> b ->
  exists blob',
    arrayBufferToBase64 (<[i := b']> combined) = Ok blob' /\
    aesDecrypt blob' k = Throw OperationError.
Proof.
  intros Hint Henc Hbytes Hi Hb Hne.
  apply aesEncrypt_blob in Henc. subst blob.
  unfold blob_bytes in Hbytes. rewrite base64ToArrayBuffer_encode in Hbytes.
  injection Hbytes as <-.
  exists (base64_encode (<[i := b']> (sealed_bytes s k e))).
  split; [apply arrayBufferToBase64_ok|].
  unfold sealed_bytes in *.
  set (iv := fst (getRandomBytes IV_LENGTH e)) in *.
  assert (length iv = IV_LENGTH) as Hlen by apply getRandomBytes_length.
  rewrite insert_app_r_alt by lia.
  rewrite lookup_app_r in Hb by lia.
  rewrite aesDecrypt_combined by exact Hlen.
  unfold subtle_decrypt.
  rewrite (Hint k iv _ _ b b' Hb Hne). reflexivity.
Qed.


(** An unpaired surrogate is encoded as U+FFFD is. *)
Lemma encode_unpaired_surrogate :
  TextEncoder_encode [0xD800] = TextEncoder_encode [0xFFFD].
Proof. reflexivity. Qed.



End Rejection.

Lemma aesDecrypt_rejects_tampering_witness :
  let k := byte_of_Z 5 in
  let combined := sealed_bytes (host := toy) (str "hi") k toy_entropy in
  let blob := base64_encode combined in
  gcm_integrity (host := toy) /\
  fst (aesEncrypt (host := toy) (str "hi") k toy_entropy) = Ok blob /\
  blob_bytes blob combined /\
  (IV_LENGTH <= 13)%nat /\ combined !! 13%nat = Some (byte_of_Z 110) /\
  Byte.x00 <> byte_of_Z 110 /\
  exists blob',
    arrayBufferToBase64 (<[13%nat := Byte.x00]> combined) = Ok blob' /\
    aesDecrypt (host := toy) blob' k = Throw OperationError.
Proof.
  intros k combined blob.
  assert (fst (aesEncrypt (host := toy) (str "hi") k toy_entropy) = Ok blob) as Henc
    by (vm_compute; reflexivity).
  assert (blob_bytes blob combined) as Hbytes by (vm_compute; reflexivity).
  assert (combined !! 13%nat = Some (byte_of_Z 110)) as Hb by (vm_compute; reflexivity).
  assert (Byte.x00 <> byte_of_Z 110) as Hne by (vm_compute; discriminate).
  split; [exact toy_gcm_integrity|]. split; [exact Henc|].
  split; [exact Hbytes|]. split; [unfold IV_LENGTH; lia|].
  split; [exact Hb|]. split; [exact Hne|].
  exact (aesDecrypt_rejects_tampering (host := toy) (str "hi") k toy_entropy blob
           combined 13 (byte_of_Z 110) Byte.x00 toy_gcm_integrity Henc Hbytes
           ltac:(unfold IV_LENGTH; lia) Hb Hne).
Defined.



(** ** The code's hexadecimal text is the specification's *)

Lemma hex_byte_digits (n : Z) :
  0 <= n < 256 ->
  padStart2 (toString16 n) = [hex_digit (n / 16); hex_digit (n mod 16)].
Proof.
  intros Hn. unfold toString16, padStart2.
  destruct (Z.ltb_spec n 16) as [Hlt|Hge]; cbn [length Nat.sub repeat app].
  - rewrite Z.div_small, Z.mod_small by lia. reflexivity.
  - reflexivity.
Qed.

Lemma hex_alphabet_digit (d : Z) :
  0 <= d < 16 -> nth (Z.to_nat d) hex_alphabet 0 = hex_digit d.
Proof.
  intros Hd. rewrite <- (Z2Nat.id d) at 2 by lia.
  assert (Z.to_nat d < 16)%nat as Hn by lia.
  revert Hn. generalize (Z.to_nat d). intros n Hn.
  do 16 (destruct n as [|n]; [reflexivity|]). lia.
Qed.

Lemma spec_hex_octet_digits (b : byte) :
  spec_hex_octet b = [hex_digit (Z_of_byte b / 16); hex_digit (Z_of_byte b mod 16)].
Proof.
  pose proof (Z_of_byte_range b) as Hb. unfold spec_hex_octet.
  rewrite Z.shiftr_div_pow2 by lia.
  change 15 with (Z.ones 4). rewrite Z.land_ones by lia.
  change (2 ^ 4) with 16.
  rewrite !hex_alphabet_digit by arith. reflexivity.
Qed.

(** [arrayBufferToHex] writes every octet as the specification's hexadecimal
    does: [toString(16)] gives the digits, [padStart] the leading zero. *)
Lemma arrayBufferToHex_spec_hex (buffer : list byte) :
  arrayBufferToHex buffer = spec_hex buffer.
Proof.
  induction buffer as [|b bs IH]; [reflexivity|].
  unfold arrayBufferToHex in *. cbn [flat_map spec_hex].
  rewrite hex_byte_digits by apply Z_of_byte_range.
  rewrite spec_hex_octet_digits, IH. reflexivity.
Qed.

(** ** Channel addressing *)

Lemma lex_compare_eq (a b : jsstring) : lex_compare a b = Eq -> a = b.
Proof.
  revert b. induction a as [|x a IH]; intros [|y b] Hc; cbn in Hc;
    try discriminate; [reflexivity|].
  destruct (Z.compare_spec x y) as [->|Hlt|Hgt]; try discriminate.
  f_equal. apply IH, Hc.
Qed.

Lemma lex_compare_antisym (a b : jsstring) :
  lex_compare b a = CompOpp (lex_compare a b).
Proof.
  revert b. induction a as [|x a IH]; intros [|y b]; cbn; try reflexivity.
  rewrite (Z.compare_antisym x y).
  destruct (x ?= y); cbn; [apply IH|reflexivity|reflexivity].
Qed.

(** The sort's order is the lexicographic one. *)
Lemma js_string_lt_lex (a b : jsstring) :
  js_string_lt a b = true <-> lex_compare a b = Lt.
Proof.
  revert b. induction a as [|x a IH]; intros [|y b]; cbn; try easy.
  destruct (Z.compare_spec x y) as [->|Hlt|Hgt].
  - rewrite Z.ltb_irrefl. apply IH.
  - rewrite (proj2 (Z.ltb_lt x y)) by lia. easy.
  - rewrite (proj2 (Z.ltb_ge x y)) by lia.
    rewrite (proj2 (Z.ltb_lt y x)) by lia. easy.
Qed.

Lemma Array_sort_pair (a b : jsstring) :
  Array_sort [a; b] = if js_string_lt b a then [b; a] else [a; b].
Proof.
  unfold Array_sort. cbn [fold_left sort_insert].
  destruct (js_string_lt b a); reflexivity.
Qed.

Lemma Array_join_pair (sep a b : jsstring) :
  Array_join sep [a; b] = a ++ sep ++ b.
Proof. reflexivity. Qed.

Section Channel.
Context {host : Platform}.

Lemma generateChannelId_spec (h1 h2 : jsstring) :
  generateChannelId h1 h2 = channelId_spec h1 h2.
Proof.
  unfold generateChannelId, channelId_spec, sha256, stringToArrayBuffer.
  rewrite arrayBufferToHex_spec_hex, Array_sort_pair.
  destruct (js_string_lt h2 h1) eqn:Hlt.
  - apply js_string_lt_lex in Hlt.
    rewrite (lex_compare_antisym h2 h1), Hlt. reflexivity.
  - destruct (lex_compare h1 h2) eqn:Hc; try reflexivity.
    assert (js_string_lt h2 h1 = true) as Habs; [|congruence].
    apply js_string_lt_lex. rewrite (lex_compare_antisym h1 h2), Hc. reflexivity.
Qed.

Lemma channelId_spec_comm (h1 h2 : jsstring) :
  channelId_spec h1 h2 = channelId_spec h2 h1.
Proof.
  unfold channelId_spec. rewrite (lex_compare_antisym h1 h2).
  destruct (lex_compare h1 h2) eqn:Hc; cbn [CompOpp]; try reflexivity.
  apply lex_compare_eq in Hc. subst h2. reflexivity.
Qed.

(** C4. For all hash strings [h1], [h2]:
    [generateChannelId h1 h2 = generateChannelId h2 h1], and the value is
    the hex SHA-256 of the two hashes sorted lexicographically and joined
    with a colon.  The identifier is a function of the two strings alone, so
    repeated calls agree. *)
Theorem generateChannelId_symmetric (h1 h2 : jsstring) :
  generateChannelId h1 h2 = generateChannelId h2 h1 /\
  generateChannelId h1 h2 = channelId_spec h1 h2.
Proof.
  split.
  - rewrite !generateChannelId_spec. apply channelId_spec_comm.
  - apply generateChannelId_spec.
Qed.

End Channel.

(** ** Opening a message *)

Section OpenMessage.
Context {host : Platform}.

Lemma decryptMessage_caught (msg : jsobject) (priv pub : jsstring) (e : exn) :
  decryptMessage_try msg priv pub = Throw e ->
  decryptMessage msg priv pub = marked_undecryptable msg.
Proof. intros Htry. unfold decryptMessage. rewrite Htry. reflexivity. Qed.

Lemma decryptMessage_opened (msg out : jsobject) (priv pub : jsstring) :
  decryptMessage_try msg priv pub = Ok out ->
  decryptMessage msg priv pub = out.
Proof. intros Htry. unfold decryptMessage. rewrite Htry. reflexivity. Qed.

(** A rejected field rejects the whole [try] block, whichever field it is
    and whatever the fields before it gave. *)
Lemma decryptMessage_try_field_rejected
    (msg : jsobject) (priv pub : jsstring) (key : aes_key) (f : string) (e : exn) :
  deriveSharedSecret priv pub = Ok key ->
  f ∈ ["senderName"; "message"; "timestamp"]%string ->
  aesDecrypt (ToString (get msg f)) key = Throw e ->
  exists e', decryptMessage_try msg priv pub = Throw e'.
Proof.
  intros Hkey Hf Hrej. unfold decryptMessage_try. rewrite Hkey. cbn [rbind].
  rewrite !elem_of_cons in Hf. destruct Hf as [-> | [-> | [-> | Hf]]].
  - rewrite Hrej. eexists. reflexivity.
  - destruct (aesDecrypt (ToString (get msg "senderName")) key); cbn [rbind].
    + rewrite Hrej. eexists. reflexivity.
    + eexists. reflexivity.
  - destruct (aesDecrypt (ToString (get msg "senderName")) key); cbn [rbind];
      [|eexists; reflexivity].
    destruct (aesDecrypt (ToString (get msg "message")) key); cbn [rbind];
      [|eexists; reflexivity].
    rewrite Hrej. eexists. reflexivity.
  - apply elem_of_nil in Hf. destruct Hf.
Qed.

Lemma marked_undecryptable_frame (msg : jsobject) (k : string) :
  k <> "decrypted"%string -> k <> "decryptionError"%string ->
  marked_undecryptable msg !! k = msg !! k.
Proof.
  intros H1 H2. unfold marked_undecryptable.
  rewrite !lookup_insert_ne by congruence. reflexivity.
Qed.

(** C7. If the authentication of a payload field fails while
    [decryptMessage] runs, the call does not raise: it returns the message it
    was given with [decrypted] set to false and [decryptionError] set to
    true, every other property as it was. *)
Theorem decryptMessage_marks_failure
    (msg : jsobject) (priv pub : jsstring) (key : aes_key) (f : string) :
  deriveSharedSecret priv pub = Ok key ->
  f ∈ ["senderName"; "message"; "timestamp"]%string ->
  aesDecrypt (ToString (get msg f)) key = Throw OperationError ->
  decryptMessage msg priv pub = marked_undecryptable msg /\
  get (decryptMessage msg priv pub) "decrypted" = VBool false /\
  get (decryptMessage msg priv pub) "decryptionError" = VBool true /\
  forall k : string,
    k <> "decrypted"%string -> k <> "decryptionError"%string ->
    decryptMessage msg priv pub !! k = msg !! k.
Proof.
  intros Hkey Hf Hrej.
  destruct (decryptMessage_try_field_rejected msg priv pub key f _ Hkey Hf Hrej)
    as [e' Htry].
  rewrite (decryptMessage_caught _ _ _ _ Htry).
  split; [reflexivity|]. split; [|split].
  - unfold get, marked_undecryptable.
    rewrite lookup_insert_ne by discriminate.
    rewrite lookup_insert_eq. reflexivity.
  - unfold get, marked_undecryptable. rewrite lookup_insert_eq. reflexivity.
  - intros k H1 H2. apply marked_undecryptable_frame; assumption.
Qed.

(** C10. [decryptMessage] leaves [channel], [senderPublicKeyHash],
    [receiverPublicKeyHash] and [messageType] as they were, and treats the
    payload as a whole: either [senderName], [message] and [timestamp] are
    all three replaced by their decryptions and [decrypted] is true, or all
    three are as in the message given and [decryptionError] is true. *)
Theorem decryptMessage_all_or_nothing (msg : jsobject) (priv pub : jsstring) :
  (forall k : string,
     k ∈ ["channel"; "senderPublicKeyHash"; "receiverPublicKeyHash"; "messageType"]%string ->
     decryptMessage msg priv pub !! k = msg !! k) /\
  ((exists (key : aes_key) (a b c : jsstring),
      deriveSharedSecret priv pub = Ok key /\
      aesDecrypt (ToString (get msg "senderName")) key = Ok a /\
      aesDecrypt (ToString (get msg "message")) key = Ok b /\
      aesDecrypt (ToString (get msg "timestamp")) key = Ok c /\
      decryptMessage msg priv pub !! "senderName"%string = Some (VStr a) /\
      decryptMessage msg priv pub !! "message"%string = Some (VStr b) /\
      decryptMessage msg priv pub !! "timestamp"%string = Some (VStr c) /\
      decryptMessage msg priv pub !! "decrypted"%string = Some (VBool true))
   \/
   (decryptMessage msg priv pub !! "senderName"%string = msg !! "senderName"%string /\
    decryptMessage msg priv pub !! "message"%string = msg !! "message"%string /\
    decryptMessage msg priv pub !! "timestamp"%string = msg !! "timestamp"%string /\
    decryptMessage msg priv pub !! "decrypted"%string = Some (VBool false) /\
    decryptMessage msg priv pub !! "decryptionError"%string = Some (VBool true))).
Proof.
  destruct (decryptMessage_try msg priv pub) as [out|e] eqn:Htry.
  - rewrite (decryptMessage_opened _ _ _ _ Htry).
    unfold decryptMessage_try in Htry.
    destruct (deriveSharedSecret priv pub) as [key|] eqn:Hkey;
      cbn [rbind] in Htry; [|discriminate].
    destruct (aesDecrypt (ToString (get msg "senderName")) key) as [a|] eqn:Ha;
      cbn [rbind] in Htry; [|discriminate].
    destruct (aesDecrypt (ToString (get msg "message")) key) as [b|] eqn:Hb;
      cbn [rbind] in Htry; [|discriminate].
    destruct (aesDecrypt (ToString (get msg "timestamp")) key) as [c|] eqn:Hc;
      cbn [rbind] in Htry; [|discriminate].
    injection Htry as <-. split.
    + intros k Hk. rewrite !elem_of_cons in Hk.
      destruct Hk as [-> | [-> | [-> | [-> | Hk]]]];
        [..|apply elem_of_nil in Hk; destruct Hk];
        rewrite !lookup_insert_ne by discriminate; reflexivity.
    + left. exists key, a, b, c.
      do 4 (split; [first [reflexivity | assumption]|]).
      split; [|split; [|split]].
      * rewrite !lookup_insert_ne by discriminate. apply lookup_insert_eq.
      * rewrite !lookup_insert_ne by discriminate. apply lookup_insert_eq.
      * rewrite !lookup_insert_ne by discriminate. apply lookup_insert_eq.
      * apply lookup_insert_eq.
  - rewrite (decryptMessage_caught _ _ _ _ Htry). split.
    + intros k Hk. rewrite !elem_of_cons in Hk.
      destruct Hk as [-> | [-> | [-> | [-> | Hk]]]];
        [..|apply elem_of_nil in Hk; destruct Hk];
        apply marked_undecryptable_frame; discriminate.
    + right. unfold marked_undecryptable.
      repeat split;
        try (rewrite !lookup_insert_ne by discriminate; reflexivity).
      * rewrite lookup_insert_ne by discriminate. apply lookup_insert_eq.
      * apply lookup_insert_eq.
Qed.

End OpenMessage.

Lemma decryptMessage_marks_failure_witness :
  let priv := privateKey (toy_pair 5) in
  let pub := publicKey (toy_pair 11) in
  deriveSharedSecret (host := toy) priv pub = Ok (byte_of_Z 165) /\
  "senderName"%string ∈ ["senderName"; "message"; "timestamp"]%string /\
  aesDecrypt (host := toy) (ToString (get toy_foreign_message "senderName")) (byte_of_Z 165)
    = Throw OperationError /\
  decryptMessage (host := toy) toy_foreign_message priv pub
    = marked_undecryptable toy_foreign_message /\
  get (decryptMessage (host := toy) toy_foreign_message priv pub) "decrypted" = VBool false /\
  get (decryptMessage (host := toy) toy_foreign_message priv pub) "decryptionError" = VBool true /\
  forall k : string,
    k <> "decrypted"%string -> k <> "decryptionError"%string ->
    decryptMessage (host := toy) toy_foreign_message priv pub !! k = toy_foreign_message !! k.
Proof.
  intros priv pub.
  assert (deriveSharedSecret (host := toy) priv pub = Ok (byte_of_Z 165)) as Hkey
    by (vm_compute; reflexivity).
  assert ("senderName"%string ∈ ["senderName"; "message"; "timestamp"]%string) as Hf
    by (apply elem_of_cons; left; reflexivity).
  assert (aesDecrypt (host := toy) (ToString (get toy_foreign_message "senderName"))
            (byte_of_Z 165) = Throw OperationError) as Hrej.
  { unfold get, toy_foreign_message. rewrite lookup_insert_eq. cbn [default ToString].
    vm_compute. reflexivity. }
  split; [exact Hkey|]. split; [exact Hf|]. split; [exact Hrej|].
  exact (decryptMessage_marks_failure (host := toy) toy_foreign_message priv pub
           (byte_of_Z 165) "senderName" Hkey Hf Hrej).
Defined.

(** ** The type of the messages the client builds *)

Section MessageType.
Context {host : Platform}.

Lemma io_bind_aesEncrypt {B : Type} (s : jsstring) (k : aes_key)
    (f : jsstring -> io B) (e : entropy) :
  io_bind (aesEncrypt s k) f e =
  f (base64_encode (sealed_bytes s k e)) (snd (getRandomBytes IV_LENGTH e)).
Proof. unfold io_bind. rewrite aesEncrypt_run. reflexivity. Qed.

(** [encryptMessage] always sets [messageType] to ['encrypted'], and keeps
    the routing fields of the message it was given. *)
Lemma encryptMessage_type (messageData : jsobject) (priv pub : jsstring)
    (e : entropy) (m : jsobject) :
  fst (encryptMessage messageData priv pub e) = Ok m ->
  get m "messageType" = VStr (str "encrypted") /\
  get m "channel" = get messageData "channel" /\
  get m "senderPublicKeyHash" = get messageData "senderPublicKeyHash" /\
  get m "receiverPublicKeyHash" = get messageData "receiverPublicKeyHash".
Proof.
  unfold encryptMessage. unfold io_bind at 1. unfold io_lift.
  destruct (deriveSharedSecret priv pub) as [key|err]; [|discriminate].
  rewrite !io_bind_aesEncrypt. unfold io_ret. cbn [fst].
  intros Hm. injection Hm as <-. unfold get.
  repeat split;
    rewrite !lookup_insert_ne by discriminate;
    rewrite lookup_insert_eq; reflexivity.
Qed.

(** The object [encryptMessage] builds, and the random stream it leaves. *)
Lemma encryptMessage_run (messageData : jsobject) (priv pub : jsstring)
    (key : aes_key) (e : entropy) :
  deriveSharedSecret priv pub = Ok key ->
  encryptMessage messageData priv pub e =
  (Ok (<["senderName" :=
           VStr (base64_encode
                   (sealed_bytes (encode_arg (get messageData "senderName")) key e))]>
       (<["message" :=
            VStr (base64_encode
                    (sealed_bytes (encode_arg (get messageData "message")) key
                       (fun i => e (12 + i)%nat)))]>
        (<["timestamp" :=
             VStr (base64_encode
                     (sealed_bytes (encode_arg (get messageData "timestamp")) key
                        (fun i => e (24 + i)%nat)))]>
         (<["channel" := get messageData "channel"]>
          (<["senderPublicKeyHash" := get messageData "senderPublicKeyHash"]>
           (<["receiverPublicKeyHash" := get messageData "receiverPublicKeyHash"]>
            (<["messageType" := VStr (str "encrypted")]> (∅ : jsobject)))))))),
   fun i => e (36 + i)%nat).
Proof.
  intros Hkey. unfold encryptMessage. unfold io_bind at 1. unfold io_lift.
  rewrite Hkey. rewrite !io_bind_aesEncrypt. reflexivity.
Qed.

(** [sendMessage] sends an unencrypted message as ['text'], an encrypted one
    as ['encrypted']. *)
Lemma sendMessage_type
    (chat : ChatState) (auth : AuthState) (content timestamp : jsstring)
    (e : entropy) (m : jsobject) :
  fst (sendMessage chat auth content timestamp e) = Ok m ->
  get m "messageType" = VStr (str "encrypted") \/
  get m "messageType" = VStr (str "text") /\
  (currentChannel chat = str "global" \/
   ToBoolean (get_opt (currentChatmate chat) "publicKey") = false).
Proof.
  unfold sendMessage.
  destruct (bool_decide (currentChannel chat = str "global")) eqn:Hglobal;
    cbn [negb andb].
  - apply bool_decide_eq_true in Hglobal.
    unfold io_ret. cbn [fst]. intros Hm. injection Hm as <-.
    right. split; [|left; exact Hglobal].
    unfold get. rewrite !lookup_insert_ne by discriminate.
    rewrite lookup_insert_eq. reflexivity.
  - destruct (ToBoolean (get_opt (currentChatmate chat) "publicKey")) eqn:Hkey.
    + intros Hm. apply encryptMessage_type in Hm as (Ht & _). left. exact Ht.
    + unfold io_ret. cbn [fst]. intros Hm. injection Hm as <-.
      right. split; [|right; reflexivity].
      unfold get. rewrite !lookup_insert_ne by discriminate.
      rewrite lookup_insert_eq. reflexivity.
Qed.

(** C8, amended. Every message the client builds has its [messageType] among
    ['text'], ['system'] and ['encrypted'].  [encryptMessage] always sets
    ['encrypted'].  [sendMessage] hands over either the text as it was
    typed, as a message of type ['text'], which it does on the public
    channel and when the chat mate has no public key on record, or the text
    sealed under the shared key, as a message of type ['encrypted'], which
    it does on a private channel with a chat mate whose key is on record:
    an unencrypted message is always of type ['text'], a sealed one always
    of type ['encrypted']. *)
Theorem constructed_messageType :
  (forall (messageData : jsobject) (priv pub : jsstring) (e : entropy) (m : jsobject),
     fst (encryptMessage messageData priv pub e) = Ok m ->
     get m "messageType" = VStr (str "encrypted")) /\
  (forall (chat : ChatState) (auth : AuthState) (content timestamp : jsstring)
          (e : entropy) (m : jsobject),
     fst (sendMessage chat auth content timestamp e) = Ok m ->
     let publicKey := get_opt (currentChatmate chat) "publicKey" in
     (get m "messageType" = VStr (str "text") /\
      get m "message" = VStr content /\
      (currentChannel chat = str "global" \/ ToBoolean publicKey = false)) \/
     (get m "messageType" = VStr (str "encrypted") /\
      (exists key : aes_key,
         deriveSharedSecret (auth_privateKey auth) (ToString publicKey) = Ok key /\
         get m "message" =
         VStr (base64_encode (sealed_bytes content key (fun i => e (12 + i)%nat)))) /\
      currentChannel chat <> str "global" /\ ToBoolean publicKey = true)) /\
  (forall m : jsobject,
     constructs m ->
     exists t : jsstring,
       get m "messageType" = VStr t /\
       (t = str "encrypted" \/ t = str "text") /\
       t ∈ messageTypes).
Proof.
  split; [|split].
  - intros md priv pub e m Henc. apply (encryptMessage_type md priv pub e m Henc).
  - intros chat auth content ts e m. cbv zeta. unfold sendMessage.
    destruct (bool_decide (currentChannel chat = str "global")) eqn:Hglobal;
      cbn [negb andb].
    + apply bool_decide_eq_true in Hglobal.
      unfold io_ret. cbn [fst]. intros Hm. injection Hm as <-.
      left. unfold get. split; [|split; [|left; exact Hglobal]].
      * do 6 (rewrite lookup_insert_ne by discriminate).
        rewrite lookup_insert_eq. reflexivity.
      * rewrite lookup_insert_ne by discriminate.
        rewrite lookup_insert_eq. reflexivity.
    + apply bool_decide_eq_false in Hglobal.
      destruct (ToBoolean (get_opt (currentChatmate chat) "publicKey")) eqn:Hkey.
      * destruct (deriveSharedSecret (auth_privateKey auth)
                    (ToString (get_opt (currentChatmate chat) "publicKey")))
          as [key|x] eqn:Hderive.
        -- rewrite (encryptMessage_run _ _ _ key e Hderive). cbn [fst].
           intros Hm. injection Hm as <-. right. unfold get.
           split; [|split; [|split; [exact Hglobal|reflexivity]]].
           ++ do 6 (rewrite lookup_insert_ne by discriminate).
              rewrite lookup_insert_eq. reflexivity.
           ++ exists key. split; [reflexivity|].
              do 2 (rewrite (lookup_insert_ne _ "senderName" "message") by discriminate).
              rewrite !lookup_insert_eq. reflexivity.
        -- unfold encryptMessage. unfold io_bind at 1. unfold io_lift.
           rewrite Hderive. discriminate.
      * unfold io_ret. cbn [fst]. intros Hm. injection Hm as <-.
        left. unfold get. split; [|split; [|right; reflexivity]].
        -- do 6 (rewrite lookup_insert_ne by discriminate).
           rewrite lookup_insert_eq. reflexivity.
        -- rewrite lookup_insert_ne by discriminate.
           rewrite lookup_insert_eq. reflexivity.
  - intros m Hm.
    assert (get m "messageType" = VStr (str "encrypted") \/
            get m "messageType" = VStr (str "text")) as [Ht | Ht].
    { destruct Hm as [md priv pub e m Henc | chat auth content ts e m Hsend].
      - left. apply (encryptMessage_type md priv pub e m Henc).
      - destruct (sendMessage_type chat auth content ts e m Hsend) as [Ht | [Ht _]];
          [left|right]; exact Ht. }
    + exists (str "encrypted"). split; [exact Ht|]. split; [left; reflexivity|].
      unfold messageTypes. rewrite !elem_of_cons. right. right. left. reflexivity.
    + exists (str "text"). split; [exact Ht|]. split; [right; reflexivity|].
      unfold messageTypes. apply elem_of_cons. left. reflexivity.
Qed.

End MessageType.

Lemma sendMessage_global :
  fst (sendMessage (host := toy) global_chat toy_auth (str "hi") (str "t0")
         toy_entropy) = Ok global_message.
Proof.
  unfold sendMessage, global_chat, toy_auth.
  cbn [currentChannel currentChatmate auth_user auth_privateKey get_opt].
  rewrite bool_decide_eq_true_2 by reflexivity. cbn [negb andb io_ret fst].
  unfold global_message, get, js_or. cbn [ToBoolean].
  rewrite lookup_insert_eq. rewrite lookup_insert_ne by discriminate.
  rewrite lookup_insert_eq. reflexivity.
Qed.

Lemma global_message_constructed : constructs (host := toy) global_message.
Proof.
  apply (constructs_sendMessage (host := toy) global_chat toy_auth (str "hi") (str "t0")
           toy_entropy).
  exact sendMessage_global.
Qed.

(** C8, as stated, fails: the message [sendMessage] builds on the public
    channel has the type ['text'], which is none of ['plain'], ['system']
    and ['encrypted']. *)
Lemma constructed_type_not_in_spec :
  exists m t,
    constructs (host := toy) m /\
    get m "messageType" = VStr t /\
    t ∉ spec_messageTypes.
Proof.
  exists global_message, (str "text"). split; [exact global_message_constructed|].
  split.
  - unfold get, global_message. rewrite !lookup_insert_ne by discriminate.
    rewrite lookup_insert_eq. reflexivity.
  - unfold spec_messageTypes. rewrite !elem_of_cons, elem_of_nil.
    intros [Heq | [Heq | [Heq | []]]]; discriminate Heq.
Qed.

Lemma toy_private_message_sealed :
  fst (encryptMessage (host := toy) toy_private_message
         (privateKey (toy_pair 5)) (publicKey (toy_pair 11)) toy_entropy)
  = Ok toy_sealed_message.
Proof.
  unfold toy_sealed_message.
  rewrite (encryptMessage_run (host := toy) toy_private_message
             (privateKey (toy_pair 5)) (publicKey (toy_pair 11)) (byte_of_Z 165)
             toy_entropy eq_refl).
  reflexivity.
Qed.

Lemma constructed_messageType_witness :
  (fst (encryptMessage (host := toy) toy_private_message
          (privateKey (toy_pair 5)) (publicKey (toy_pair 11)) toy_entropy)
   = Ok toy_sealed_message /\
   get toy_sealed_message "messageType" = VStr (str "encrypted")) /\
  (fst (sendMessage (host := toy) global_chat toy_auth (str "hi") (str "t0")
          toy_entropy) = Ok global_message /\
   get global_message "messageType" = VStr (str "text") /\
   get global_message "message" = VStr (str "hi")) /\
  (constructs (host := toy) global_message /\
   exists t : jsstring,
     get global_message "messageType" = VStr t /\
     (t = str "encrypted" \/ t = str "text") /\
     t ∈ messageTypes).
Proof.
  destruct (constructed_messageType (host := toy)) as (Hsealed & Hsent & Hall).
  split; [|split].
  - split; [exact toy_private_message_sealed|].
    exact (Hsealed _ _ _ _ _ toy_private_message_sealed).
  - split; [exact sendMessage_global|].
    destruct (Hsent global_chat toy_auth (str "hi") (str "t0") toy_entropy
                global_message sendMessage_global)
      as [(Htype & Hmessage & _) | (_ & _ & Hchannel & _)].
    + split; [exact Htype|exact Hmessage].
    + exfalso. apply Hchannel. reflexivity.
  - split; [exact global_message_constructed|].
    exact (Hall global_message global_message_constructed).
Defined.

(** ** The client's authentication value *)

Section ClientAuth.
Context {host : Platform}.

Lemma pbkdf2_client_spec (password username : jsstring) :
  pbkdf2 password (toLowerCase username) 25000 512 = clientAuth_spec password username.
Proof.
  unfold pbkdf2, clientAuth_spec, stringToArrayBuffer.
  apply arrayBufferToHex_spec_hex.
Qed.

(** [register] always gets as far as its request. *)
Lemma register_runs (username password : jsstring) (e : entropy) :
  exists req,
    fst (register username password e) = Ok req /\
    reg_username req = toLowerCase username /\
    reg_auth req = pbkdf2 password (toLowerCase username) 25000 512.
Proof.
  unfold register, generateECDHKeyPair.
  unfold io_bind at 1. destruct (ec_generate e) as [d e1].
  unfold io_bind at 1, io_random.
  destruct (getRandomBytes 16 e1) as [saltBytes e2].
  unfold io_bind at 1, io_lift. rewrite arrayBufferToBase64_ok.
  unfold encryptPrivateKey. rewrite io_bind_aesEncrypt.
  unfold io_ret. cbn [fst]. eexists. split; [reflexivity|].
  split; reflexivity.
Qed.

(** C9. For every password and username, the auth value of the registration
    request is the hex form of PBKDF2-SHA-512 of the password, salted with
    the lower-cased username, 25000 iterations, 512 bits; the login request
    carries the same value, computed by the same function of the username
    and the password. *)
Theorem clientAuth_register_login (username password : jsstring) (e : entropy) :
  exists req,
    fst (register username password e) = Ok req /\
    reg_auth req = clientAuth_spec password username /\
    login_auth (login username password) = reg_auth req /\
    login_username (login username password) = reg_username req.
Proof.
  destruct (register_runs username password e) as (req & Hreq & Hname & Hauth).
  exists req. split; [exact Hreq|].
  rewrite Hauth, Hname. split; [apply pbkdf2_client_spec|].
  split; reflexivity.
Qed.

End ClientAuth.

(** ** From one party to the other, and from registration to login *)

Section EndToEnd.
Context {host : Platform}.

(** X13. A message sealed by one party opens at the other to the sender name,
    text and time stamp it was built from. *)
Lemma message_round_trip (A B : KeyPair) (messageData : jsobject) (e : entropy) :
  ec_mul_law -> gcm_correct -> valid_key_pair A -> valid_key_pair B ->
  plain_text (encode_arg (get messageData "senderName")) ->
  plain_text (encode_arg (get messageData "message")) ->
  plain_text (encode_arg (get messageData "timestamp")) ->
  exists sealed,
    fst (encryptMessage messageData (privateKey A) (publicKey B) e) = Ok sealed /\
    let opened := decryptMessage sealed (privateKey B) (publicKey A) in
    get opened "senderName" = VStr (encode_arg (get messageData "senderName")) /\
    get opened "message" = VStr (encode_arg (get messageData "message")) /\
    get opened "timestamp" = VStr (encode_arg (get messageData "timestamp")) /\
    get opened "decrypted" = VBool true /\
    get opened "channel" = get messageData "channel".
Proof.
  intros Hlaw Hgcm (a & Ha_priv & Ha_pub) (b & Hb_priv & Hb_pub)
    [Hwf1 Hb1] [Hwf2 Hb2] [Hwf3 Hb3].
  unfold encryptMessage. unfold io_bind at 1. unfold io_lift.
  rewrite (deriveSharedSecret_imported _ _ a (ec_mul b ec_base)) by assumption.
  set (key := aes_import (ecdh_bits a (ec_mul b ec_base) AES_KEY_LENGTH)).
  rewrite !io_bind_aesEncrypt. unfold io_ret. cbn [fst].
  eexists. split; [reflexivity|]. cbv zeta.
  match goal with |- context [decryptMessage ?M _ _] => set (sealed := M) end.
  assert (deriveSharedSecret (privateKey B) (publicKey A) = Ok key) as Hkey.
  { rewrite (deriveSharedSecret_imported _ _ b (ec_mul a ec_base)) by assumption.
    unfold key, ecdh_bits. rewrite (ecdh_point_symmetric b a Hlaw). reflexivity. }
  assert (aesDecrypt (ToString (get sealed "senderName")) key
          = Ok (encode_arg (get messageData "senderName"))) as H1.
  { unfold get at 1. unfold sealed. rewrite lookup_insert_eq. cbn [default from_option id ToString].
    rewrite aesDecrypt_sealed, Hb1 by assumption. reflexivity. }
  assert (aesDecrypt (ToString (get sealed "message")) key
          = Ok (encode_arg (get messageData "message"))) as H2.
  { unfold get at 1. unfold sealed. rewrite lookup_insert_ne by discriminate.
    rewrite lookup_insert_eq. cbn [default from_option id ToString].
    rewrite aesDecrypt_sealed, Hb2 by assumption. reflexivity. }
  assert (aesDecrypt (ToString (get sealed "timestamp")) key
          = Ok (encode_arg (get messageData "timestamp"))) as H3.
  { unfold get at 1. unfold sealed. rewrite !lookup_insert_ne by discriminate.
    rewrite lookup_insert_eq. cbn [default from_option id ToString].
    rewrite aesDecrypt_sealed, Hb3 by assumption. reflexivity. }
  unfold decryptMessage, decryptMessage_try.
  rewrite Hkey. cbn [rbind]. rewrite H1. cbn [rbind].
  rewrite H2. cbn [rbind]. rewrite H3. cbn [rbind].
  unfold get at 1 3 5 7 9.
  repeat split;
    rewrite ?lookup_insert_ne by discriminate;
    try (rewrite lookup_insert_eq; reflexivity).
Qed.

(** X17. The private key wrapped at registration is the one [login] recovers
    from the stored record, given the same password. *)
Lemma register_then_login (username password : jsstring) (e : entropy)
    (req : RegistrationRequest) (user : jsobject) :
  gcm_correct ->
  json_object_text (jwk_export_private (fst (ec_generate e))) ->
  fst (register username password e) = Ok req ->
  get user "keySalt" = VStr (reg_keySalt req) ->
  get user "privateKeyCipher" = VStr (reg_privateKeyCipher req) ->
  login_unlock password (login_auth (login username password)) user =
  Ok (jwk_export_private (fst (ec_generate e))).
Proof.
  intros Hgcm Hjson Hreq Hsalt Hcipher.
  unfold register, generateECDHKeyPair in Hreq.
  unfold io_bind at 1 in Hreq. destruct (ec_generate e) as [d e1].
  unfold io_bind at 1, io_random in Hreq.
  destruct (getRandomBytes 16 e1) as [saltBytes e2].
  unfold io_bind at 1, io_lift in Hreq. rewrite arrayBufferToBase64_ok in Hreq.
  unfold encryptPrivateKey in Hreq. rewrite io_bind_aesEncrypt in Hreq.
  unfold io_ret in Hreq. cbn [fst publicKey privateKey] in *.
  injection Hreq as <-. cbn [reg_keySalt reg_privateKeyCipher] in *.
  unfold login_unlock, login, decryptPrivateKey. cbn [login_auth].
  rewrite Hsalt, Hcipher. cbn [encode_arg ToString].
  destruct (json_object_text_no_bom _ Hjson) as [Hwf Hbom].
  rewrite aesDecrypt_sealed, Hbom by assumption. reflexivity.
Qed.
End EndToEnd.

(** ** Hexadecimal text, trimming and validation on known values *)

Example hex_odd : hexToArrayBuffer (str "0aff1") = [Byte.x0a; Byte.xff].
Proof. reflexivity. Qed.
Example hex_bad : hexToArrayBuffer (str "zz1g-1 f0x") = [Byte.x00; Byte.x01; Byte.xff; Byte.x0f; Byte.x00].
Proof. reflexivity. Qed.

Example parseInt16_signed : parseInt16 (str "-f") = Some (-15).
Proof. reflexivity. Qed.

Example parseInt16_prefix : parseInt16 (str "0x") = None.
Proof. reflexivity. Qed.

Example trim_spaces : String_trim (str "  a b  ") = str "a b".
Proof. reflexivity. Qed.

Example match_groups_line :
  match_groups [] (str "abcde" ++ [10] ++ str "fg") = [str "abcd"; str "e"; str "fg"].
Proof. reflexivity. Qed.

Example strict_equals_nan :
  strict_equals (VNum (str "NaN")) (VNum (str "NaN")) = false.
Proof. reflexivity. Qed.

Example validateMessage_global : validateMessage (request_body global_message) = true.
Proof. vm_compute. reflexivity. Qed.

Example validateMessage_unknown_key :
  validateMessage (<["draft" := VBool true]> global_message) = false.
Proof. vm_compute. reflexivity. Qed.

Example validateMessage_empty_text :
  validateMessage (<["message" := VStr []]> global_message) = false.
Proof. vm_compute. reflexivity. Qed.

(** ** base64, hexadecimal text and strings as bytes *)

Lemma base64_encode_length_formula (bs : list byte) :
  Z.of_nat (length (base64_encode bs)) = 4 * ((Z.of_nat (length bs) + 2) / 3).
Proof.
  unfold base64_encode. rewrite length_app, length_map.
  induction bs as [| b1 | b1 b2 | b1 b2 b3 rest IH] using list_ind3;
    cbn [b64_sextets b64_padding length]; try reflexivity.
  replace (Z.of_nat (S (S (S (length rest)))) + 2)
    with ((Z.of_nat (length rest) + 2) + 1 * 3) by lia.
  rewrite Z.div_add by lia. lia.
Qed.

(** X1. For every byte sequence, [arrayBufferToBase64] succeeds with a text
    of 4 * ceil(n / 3) characters, and [base64ToArrayBuffer] of that text is
    the byte sequence again. *)
Theorem arrayBuffer_base64_round_trip (bs : list byte) :
  exists blob : jsstring,
    arrayBufferToBase64 bs = Ok blob /\
    base64ToArrayBuffer blob = Ok bs /\
    Z.of_nat (length blob) = 4 * ((Z.of_nat (length bs) + 2) / 3).
Proof.
  exists (base64_encode bs). split; [|split].
  - apply arrayBufferToBase64_ok.
  - apply base64ToArrayBuffer_encode.
  - apply base64_encode_length_formula.
Qed.

Lemma drop_trailing_pad_keeps (s : jsstring) (c : Z) :
  In c s -> c <> 61 -> In c (drop_trailing_pad s).
Proof.
  intros Hin Hc. unfold drop_trailing_pad.
  destruct (rev s) as [|x r] eqn:Hrev; [exact Hin|].
  destruct (Z.eqb_spec x 61) as [->|Hx]; [|exact Hin].
  apply in_rev in Hin. rewrite Hrev in Hin.
  apply in_rev. rewrite rev_involutive.
  destruct Hin as [Heq|Hin]; [congruence|exact Hin].
Qed.

Lemma b64_indices_rejects (s : jsstring) (c : Z) :
  In c s -> b64_index c = None -> b64_indices s = None.
Proof.
  induction s as [|x s IH]; intros Hin Hc; [destruct Hin|].
  cbn [b64_indices]. destruct Hin as [->|Hin].
  - rewrite Hc. reflexivity.
  - rewrite (IH Hin Hc). destruct (b64_index x); reflexivity.
Qed.

(** X2. A text that holds a character that is neither of the base64
    alphabet, nor white space, nor [=] is rejected by [base64ToArrayBuffer]
    with an [InvalidCharacterError]: no bytes come back. *)
Theorem base64ToArrayBuffer_rejects (data : jsstring) (c : Z) :
  In c data -> is_ascii_whitespace c = false -> c <> 61 ->
  b64_index c = None ->
  base64ToArrayBuffer data = Throw InvalidCharacterError.
Proof.
  intros Hin Hws Hpad Hidx. unfold base64ToArrayBuffer, atob.
  set (kept := List.filter (fun c => negb (is_ascii_whitespace c)) data).
  assert (In c kept) as Hkept.
  { apply filter_In. split; [exact Hin|]. rewrite Hws. reflexivity. }
  set (stripped := if Z.of_nat (length kept) mod 4 =? 0
                   then drop_trailing_pad (drop_trailing_pad kept) else kept).
  assert (In c stripped) as Hstripped.
  { unfold stripped. destruct (Z.of_nat (length kept) mod 4 =? 0);
      [|exact Hkept].
    apply drop_trailing_pad_keeps; [|exact Hpad].
    apply drop_trailing_pad_keeps; assumption. }
  destruct (Z.of_nat (length stripped) mod 4 =? 1); [reflexivity|].
  rewrite (b64_indices_rejects stripped c Hstripped Hidx). reflexivity.
Qed.

Lemma base64ToArrayBuffer_rejects_witness :
  In 42 (str "aG*r") /\ is_ascii_whitespace 42 = false /\ 42 <> 61 /\
  b64_index 42 = None /\
  base64ToArrayBuffer (str "aG*r") = Throw InvalidCharacterError.
Proof.
  assert (In 42 (str "aG*r")) as Hin by (cbn; tauto).
  assert (42 <> 61) as Hne by lia.
  split; [exact Hin|]. split; [reflexivity|]. split; [exact Hne|].
  split; [reflexivity|].
  exact (base64ToArrayBuffer_rejects (str "aG*r") 42 Hin eq_refl Hne eq_refl).
Defined.

(** The scalar values of any string of code units. *)
Lemma code_points_scalar_any (s : jsstring) :
  Forall code_unit s -> Forall scalar_value (code_points s).
Proof.
  intros Hs.
  assert (forall n s, (length s <= n)%nat -> Forall code_unit s ->
            Forall scalar_value (code_points s)) as Haux; [|eapply Haux; eauto].
  clear s Hs. induction n as [|n IH]; intros s Hlen Hs.
  { destruct s; [constructor|simpl in Hlen; lia]. }
  destruct s as [|u rest]; [constructor|].
  inversion Hs as [|? ? Hu Hrest]; subst.
  assert (scalar_value 0xFFFD) as Hrep by (unfold scalar_value; lia).
  cbn [code_points].
  destruct (is_high_surrogate u) eqn:Hhi.
  - destruct rest as [|v rest']; [constructor; [exact Hrep|constructor]|].
    destruct (is_low_surrogate v) eqn:Hlo.
    + inversion Hrest; subst. constructor.
      * unfold is_high_surrogate, is_low_surrogate in Hhi, Hlo.
        rewrite !andb_true_iff, !Z.leb_le in Hhi, Hlo.
        unfold scalar_value. lia.
      * apply IH; [cbn [length] in *; lia|assumption].
    + constructor; [exact Hrep|]. apply IH; [cbn [length] in *; lia|assumption].
  - destruct (is_low_surrogate u) eqn:Hlo.
    + constructor; [exact Hrep|]. apply IH; [cbn [length] in *; lia|assumption].
    + constructor; [|apply IH; [cbn [length] in *; lia|assumption]].
      unfold is_high_surrogate, is_low_surrogate, code_unit in *.
      rewrite !andb_false_iff, !Z.leb_gt in Hhi, Hlo.
      unfold scalar_value. lia.
Qed.

(** X3. For every string, [arrayBufferToString (stringToArrayBuffer s)] is
    [s] with its unpaired surrogates replaced by U+FFFD and then one leading
    U+FEFF dropped; a well-formed string that does not begin with U+FEFF
    comes back unchanged. *)
Theorem string_buffer_round_trip (s : jsstring) :
  Forall code_unit s ->
  arrayBufferToString (stringToArrayBuffer s) = without_bom (toWellFormed s) /\
  (well_formed s = true -> toWellFormed s = s).
Proof.
  intros Hs. split; [|apply code_points_units].
  unfold arrayBufferToString, stringToArrayBuffer, TextDecoder_decode,
    TextEncoder_encode, toWellFormed.
  pose proof (code_points_scalar_any s Hs) as Hsc.
  rewrite utf8_run_encode by exact Hsc.
  destruct (code_points s) as [|c cps]; [reflexivity|].
  cbn [strip_bom flat_map].
  inversion Hsc as [|? ? Hc _]; subst. unfold scalar_value in Hc.
  destruct (Z.eqb_spec c 0xFEFF) as [->|Hne].
  - reflexivity.
  - cbn [flat_map]. unfold utf16_units.
    destruct (Z.ltb_spec c 0x10000) as [Hlt|Hge]; cbn [app without_bom].
    + decide_tests. reflexivity.
    + rewrite shiftr_10.
      assert ((0xD800 + (c - 0x10000) / 1024 =? 0xFEFF) = false) as ->
        by (apply Z.eqb_neq; arith).
      reflexivity.
Qed.

Lemma string_buffer_round_trip_witness :
  Forall code_unit [0xD800; 0x68] /\
  arrayBufferToString (stringToArrayBuffer [0xD800; 0x68])
    = without_bom (toWellFormed [0xD800; 0x68]) /\
  (well_formed [0xD800; 0x68] = true -> toWellFormed [0xD800; 0x68] = [0xD800; 0x68]).
Proof.
  assert (Forall code_unit [0xD800; 0x68]) as Hs
    by (repeat constructor; unfold code_unit; lia).
  split; [exact Hs|].
  exact (string_buffer_round_trip [0xD800; 0x68] Hs).
Defined.

Lemma hex_digit_lower (d : Z) : 0 <= d < 16 -> is_lower_hex (hex_digit d) = true.
Proof.
  intros Hd. unfold is_lower_hex, hex_digit.
  destruct (Z.ltb_spec d 10); decide_tests; reflexivity.
Qed.

Lemma hex_value_digit (d : Z) : 0 <= d < 16 -> hex_value (hex_digit d) = Some d.
Proof.
  intros Hd. unfold hex_value, hex_digit.
  destruct (Z.ltb_spec d 10); decide_tests; f_equal; lia.
Qed.

Lemma hex_digit_plain (d : Z) :
  0 <= d < 16 ->
  is_js_whitespace (hex_digit d) = false /\
  hex_digit d <> 45 /\ hex_digit d <> 43 /\ hex_digit d <> 120 /\ hex_digit d <> 88.
Proof.
  intros Hd. unfold is_js_whitespace, hex_digit.
  destruct (Z.ltb_spec d 10); (split; [decide_tests; reflexivity|lia]).
Qed.

Lemma parseInt16_digits (a b : Z) :
  0 <= a < 16 -> 0 <= b < 16 ->
  parseInt16 [hex_digit a; hex_digit b] = Some (a * 16 + b).
Proof.
  intros Ha Hb. unfold parseInt16.
  destruct (hex_digit_plain a Ha) as (Hws & Hminus & Hplus & _).
  destruct (hex_digit_plain b Hb) as (_ & _ & _ & Hx & HX).
  cbn [drop_while]. rewrite Hws.
  apply Z.eqb_neq in Hminus, Hplus, Hx, HX.
  rewrite Hminus, Hplus, Hx, HX. cbn [orb]. rewrite andb_false_r.
  cbn [hex_prefix]. rewrite !hex_value_digit by assumption.
  f_equal. lia.
Qed.

Lemma arrayBufferToHex_cons (b : byte) (bs : list byte) :
  arrayBufferToHex (b :: bs) =
  hex_digit (Z_of_byte b / 16) :: hex_digit (Z_of_byte b mod 16) :: arrayBufferToHex bs.
Proof.
  unfold arrayBufferToHex. cbn [flat_map].
  rewrite hex_byte_digits by apply Z_of_byte_range. reflexivity.
Qed.

Lemma arrayBufferToHex_length (bs : list byte) :
  length (arrayBufferToHex bs) = (2 * length bs)%nat.
Proof.
  induction bs as [|b bs IH]; [reflexivity|].
  rewrite arrayBufferToHex_cons. cbn [length]. rewrite IH. lia.
Qed.

Lemma arrayBufferToHex_lower (bs : list byte) :
  forallb is_lower_hex (arrayBufferToHex bs) = true.
Proof.
  induction bs as [|b bs IH]; [reflexivity|].
  rewrite arrayBufferToHex_cons. pose proof (Z_of_byte_range b) as Hb.
  cbn [forallb]. rewrite !hex_digit_lower by arith. exact IH.
Qed.

Lemma hexToArrayBuffer_arrayBufferToHex (bs : list byte) :
  hexToArrayBuffer (arrayBufferToHex bs) = bs.
Proof.
  unfold hexToArrayBuffer. rewrite arrayBufferToHex_length.
  replace (2 * length bs / 2)%nat with (length bs)
    by (symmetry; rewrite Nat.mul_comm; apply Nat.div_mul; lia).
  assert (map (fun pair => store_uint8 (parseInt16 pair))
            (hex_pairs (arrayBufferToHex bs)) = bs) as ->.
  { induction bs as [|b bs IH]; [reflexivity|].
    rewrite arrayBufferToHex_cons. cbn [hex_pairs map]. rewrite IH.
    pose proof (Z_of_byte_range b) as Hb.
    rewrite parseInt16_digits by arith.
    f_equal. unfold store_uint8. cbn [default from_option id].
    apply byte_of_Z_unique. arith. }
  apply firstn_all.
Qed.

(** X4. [arrayBufferToHex] writes two lower-case hexadecimal digits for
    every byte, so a digest of n bytes is shown in 2 n characters. *)
Theorem arrayBufferToHex_shape (bs : list byte) :
  length (arrayBufferToHex bs) = (2 * length bs)%nat /\
  forallb is_lower_hex (arrayBufferToHex bs) = true.
Proof.
  induction bs as [|b bs [IHlen IHdig]]; [split; reflexivity|].
  rewrite arrayBufferToHex_cons. pose proof (Z_of_byte_range b) as Hb.
  split.
  - cbn [length]. rewrite IHlen. lia.
  - cbn [forallb]. rewrite !hex_digit_lower by arith. exact IHdig.
Qed.

Lemma hex_digit_upper_value (d : Z) :
  0 <= d < 16 -> hex_value (ascii_upper (hex_digit d)) = Some d.
Proof.
  intros Hd. unfold hex_value, ascii_upper, hex_digit.
  destruct (Z.ltb_spec d 10); decide_tests; f_equal; lia.
Qed.

Lemma hex_digit_upper_plain (d : Z) :
  0 <= d < 16 ->
  is_js_whitespace (ascii_upper (hex_digit d)) = false /\
  ascii_upper (hex_digit d) <> 45 /\ ascii_upper (hex_digit d) <> 43 /\
  ascii_upper (hex_digit d) <> 120 /\ ascii_upper (hex_digit d) <> 88.
Proof.
  intros Hd. unfold is_js_whitespace, ascii_upper, hex_digit.
  destruct (Z.ltb_spec d 10); decide_tests; (split; [reflexivity|lia]).
Qed.

Lemma parseInt16_upper_digits (a b : Z) :
  0 <= a < 16 -> 0 <= b < 16 ->
  parseInt16 [ascii_upper (hex_digit a); ascii_upper (hex_digit b)] = Some (a * 16 + b).
Proof.
  intros Ha Hb. unfold parseInt16.
  destruct (hex_digit_upper_plain a Ha) as (Hws & Hminus & Hplus & _).
  destruct (hex_digit_upper_plain b Hb) as (_ & _ & _ & Hx & HX).
  cbn [drop_while]. rewrite Hws.
  apply Z.eqb_neq in Hminus, Hplus, Hx, HX.
  rewrite Hminus, Hplus, Hx, HX. cbn [orb]. rewrite andb_false_r.
  cbn [hex_prefix]. rewrite !hex_digit_upper_value by assumption.
  f_equal. lia.
Qed.

(** X5. [hexToArrayBuffer] reads back what [arrayBufferToHex] wrote, and
    reads it back as well when the digits a to f have been put in upper
    case. *)
Theorem hex_round_trip (bs : list byte) :
  hexToArrayBuffer (arrayBufferToHex bs) = bs /\
  hexToArrayBuffer (map ascii_upper (arrayBufferToHex bs)) = bs.
Proof.
  split; [apply hexToArrayBuffer_arrayBufferToHex|].
  unfold hexToArrayBuffer. rewrite length_map, arrayBufferToHex_length.
  replace (2 * length bs / 2)%nat with (length bs)
    by (symmetry; rewrite Nat.mul_comm; apply Nat.div_mul; lia).
  assert (map (fun pair => store_uint8 (parseInt16 pair))
            (hex_pairs (map ascii_upper (arrayBufferToHex bs))) = bs) as ->.
  { induction bs as [|b bs IH]; [reflexivity|].
    rewrite arrayBufferToHex_cons. cbn [hex_pairs map]. rewrite IH.
    pose proof (Z_of_byte_range b) as Hb.
    rewrite parseInt16_upper_digits by arith.
    f_equal. unfold store_uint8. cbn [default from_option id].
    apply byte_of_Z_unique. arith. }
  apply firstn_all.
Qed.

Lemma hex_pairs_even (n : nat) (s : jsstring) (c : Z) :
  length s = (2 * n)%nat ->
  length (hex_pairs s) = n /\ hex_pairs (s ++ [c]) = hex_pairs s ++ [[c]].
Proof.
  revert s. induction n as [|n IH]; intros s Hs.
  - destruct s; [split; reflexivity|cbn in Hs; lia].
  - destruct s as [|a [|b rest]]; [cbn in Hs; lia|cbn in Hs; lia|].
    destruct (IH rest) as [Hlen Happ]; [cbn [length] in Hs; lia|].
    split.
    + cbn [hex_pairs length]. rewrite Hlen. reflexivity.
    + cbn [app hex_pairs]. rewrite Happ. reflexivity.
Qed.

(** X6. [hexToArrayBuffer] never rejects: a text of even length 2 n gives n
    bytes, and one more character behind it changes nothing, so a text of
    odd length loses its last character. *)
Theorem hexToArrayBuffer_odd (n : nat) (hex : jsstring) (c : Z) :
  length hex = (2 * n)%nat ->
  length (hexToArrayBuffer hex) = n /\
  hexToArrayBuffer (hex ++ [c]) = hexToArrayBuffer hex.
Proof.
  intros Hlen. destruct (hex_pairs_even n hex c Hlen) as [Hpairs Happ].
  unfold hexToArrayBuffer. rewrite length_app, Happ, map_app, Hlen.
  cbn [length].
  replace ((2 * n + 1) / 2)%nat with n
    by (symmetry; rewrite Nat.mul_comm, Nat.div_add_l by lia; cbn; lia).
  replace (2 * n / 2)%nat with n
    by (symmetry; rewrite Nat.mul_comm; apply Nat.div_mul; lia).
  assert (length (map (fun pair => store_uint8 (parseInt16 pair)) (hex_pairs hex)) = n)
    as Hm by (rewrite length_map; exact Hpairs).
  split.
  - rewrite firstn_all2 by lia. exact Hm.
  - rewrite firstn_app, firstn_all2 by lia.
    rewrite Hm, Nat.sub_diag. cbn [firstn]. apply app_nil_r.
Qed.

Lemma hexToArrayBuffer_odd_witness :
  length (str "0aff") = (2 * 2)%nat /\
  length (hexToArrayBuffer (str "0aff")) = 2%nat /\
  hexToArrayBuffer (str "0aff" ++ [49]) = hexToArrayBuffer (str "0aff").
Proof.
  split; [reflexivity|].
  exact (hexToArrayBuffer_odd 2 (str "0aff") 49 eq_refl).
Defined.

(** ** The shared secret in hexadecimal *)

Section SharedSecretHex.
Context {host : Platform}.

(** X7. For every two valid key pairs, [deriveSharedSecretHex] gives both
    parties the same text, and that text is the raw AES key: decoded by
    [hexToArrayBuffer] and imported, it is the key [deriveSharedSecret]
    returns. *)
Theorem deriveSharedSecretHex_symmetric (A B : KeyPair) :
  ec_mul_law -> valid_key_pair A -> valid_key_pair B ->
  exists h : jsstring,
    deriveSharedSecretHex (privateKey A) (publicKey B) = Ok h /\
    deriveSharedSecretHex (privateKey B) (publicKey A) = Ok h /\
    deriveSharedSecret (privateKey A) (publicKey B)
      = Ok (aes_import (hexToArrayBuffer h)).
Proof.
  intros Hlaw (a & Ha_priv & Ha_pub) (b & Hb_priv & Hb_pub).
  exists (arrayBufferToHex (ecdh_bits a (ec_mul b ec_base) 256)).
  unfold deriveSharedSecretHex.
  rewrite Ha_priv, Hb_pub, Hb_priv, Ha_pub. cbn [rbind].
  split; [reflexivity|]. split.
  - unfold ecdh_bits. rewrite (ecdh_point_symmetric b a Hlaw). reflexivity.
  - rewrite hexToArrayBuffer_arrayBufferToHex.
    apply deriveSharedSecret_imported; assumption.
Qed.

End SharedSecretHex.

Lemma deriveSharedSecretHex_symmetric_witness :
  ec_mul_law (host := toy) /\
  valid_key_pair (host := toy) (toy_pair 5) /\
  valid_key_pair (host := toy) (toy_pair 11) /\
  exists h : jsstring,
    deriveSharedSecretHex (host := toy) (privateKey (toy_pair 5)) (publicKey (toy_pair 11))
      = Ok h /\
    deriveSharedSecretHex (host := toy) (privateKey (toy_pair 11)) (publicKey (toy_pair 5))
      = Ok h /\
    deriveSharedSecret (host := toy) (privateKey (toy_pair 5)) (publicKey (toy_pair 11))
      = Ok (aes_import (Platform := toy) (hexToArrayBuffer h)).
Proof.
  split; [exact toy_ec_mul_law|].
  split; [exact (toy_pair_valid 5)|].
  split; [exact (toy_pair_valid 11)|].
  exact (deriveSharedSecretHex_symmetric (host := toy) (toy_pair 5) (toy_pair 11)
           toy_ec_mul_law (toy_pair_valid 5) (toy_pair_valid 11)).
Defined.

(** ** What a sealed field and a sealed message are made of *)

Section Sealed.
Context {host : Platform}.

(** X10. The text [aesEncrypt] returns for a plaintext of n UTF-8 bytes has
    4 * ceil((12 + n + t) / 3) characters, where t is the length of the
    tag that AES-GCM appends. *)
Theorem aesEncrypt_blob_length (t : nat) (s : jsstring) (k : aes_key) (e : entropy) :
  gcm_expansion t ->
  exists blob : jsstring,
    fst (aesEncrypt s k e) = Ok blob /\
    Z.of_nat (length blob) =
    4 * ((12 + Z.of_nat (length (stringToArrayBuffer s)) + Z.of_nat t + 2) / 3).
Proof.
  intros Hexp. rewrite aesEncrypt_run. cbn [fst].
  eexists. split; [reflexivity|].
  rewrite base64_encode_length_formula. unfold sealed_bytes.
  rewrite length_app, getRandomBytes_length, Hexp. unfold IV_LENGTH.
  do 2 f_equal. lia.
Qed.

(** X11. [encryptMessage] seals its three fields under three draws of 12
    random bytes, the bytes 0 to 11, 12 to 23 and 24 to 35 of the stream,
    and leaves the stream 36 bytes further; when the shared key cannot be
    derived it rejects and draws nothing. *)
Theorem encryptMessage_draws (messageData : jsobject) (priv pub : jsstring)
    (e : entropy) :
  match deriveSharedSecret priv pub with
  | Ok key =>
      let field f := stringToArrayBuffer (encode_arg (get messageData f)) in
      let iv n := map e (seq n 12) in
      exists sealed : jsobject,
        encryptMessage messageData priv pub e = (Ok sealed, fun i => e (36 + i)%nat) /\
        blob_bytes (ToString (get sealed "senderName"))
          (iv 0%nat ++ gcm_encrypt key (iv 0%nat) (field "senderName"%string)) /\
        blob_bytes (ToString (get sealed "message"))
          (iv 12%nat ++ gcm_encrypt key (iv 12%nat) (field "message"%string)) /\
        blob_bytes (ToString (get sealed "timestamp"))
          (iv 24%nat ++ gcm_encrypt key (iv 24%nat) (field "timestamp"%string))
  | Throw x => encryptMessage messageData priv pub e = (Throw x, e)
  end.
Proof.
  destruct (deriveSharedSecret priv pub) as [key|x] eqn:Hkey.
  - cbv zeta. rewrite (encryptMessage_run _ _ _ key e Hkey).
    eexists. split; [reflexivity|].
    unfold blob_bytes, get.
    rewrite lookup_insert_eq.
    rewrite (lookup_insert_ne _ "senderName" "message") by discriminate.
    rewrite lookup_insert_eq.
    rewrite (lookup_insert_ne _ "senderName" "timestamp") by discriminate.
    rewrite (lookup_insert_ne _ "message" "timestamp") by discriminate.
    rewrite lookup_insert_eq.
    cbn [default from_option id ToString].
    rewrite !base64ToArrayBuffer_encode.
    split; [|split]; reflexivity.
  - unfold encryptMessage. unfold io_bind at 1. unfold io_lift.
    rewrite Hkey. reflexivity.
Qed.

Lemma encryptMessage_dom (messageData : jsobject) (priv pub : jsstring)
    (e : entropy) (sealed : jsobject) :
  fst (encryptMessage messageData priv pub e) = Ok sealed ->
  dom sealed = (list_to_set message_fields : gset string).
Proof.
  unfold encryptMessage. unfold io_bind at 1. unfold io_lift.
  destruct (deriveSharedSecret priv pub) as [key|err]; [|discriminate].
  rewrite !io_bind_aesEncrypt. unfold io_ret. cbn [fst].
  intros Hm. injection Hm as <-.
  rewrite !dom_insert_L, dom_empty_L. unfold message_fields.
  cbn [list_to_set]. reflexivity.
Qed.

(** X12. The object [encryptMessage] returns has the seven properties
    senderName, message, timestamp, channel, senderPublicKeyHash,
    receiverPublicKeyHash and messageType and no other: whatever else the
    message held is not passed on. *)
Theorem encryptMessage_fields (messageData : jsobject) (priv pub : jsstring)
    (e : entropy) (sealed : jsobject) :
  fst (encryptMessage messageData priv pub e) = Ok sealed ->
  dom sealed = (list_to_set message_fields : gset string) /\
  forall k : string, k ∉ message_fields -> get sealed k = VUndefined.
Proof.
  intros Hm. pose proof (encryptMessage_dom _ _ _ _ _ Hm) as Hdom.
  split; [exact Hdom|].
  intros k Hk. unfold get.
  assert (sealed !! k = None) as ->; [|reflexivity].
  apply not_elem_of_dom. rewrite Hdom. rewrite elem_of_list_to_set. exact Hk.
Qed.

End Sealed.

Lemma toy_gcm_expansion : gcm_expansion (host := toy) 2.
Proof.
  intros k iv p. cbn [gcm_encrypt toy]. unfold toy_seal.
  rewrite length_app, length_map. reflexivity.
Qed.

Lemma aesEncrypt_blob_length_witness :
  gcm_expansion (host := toy) 2 /\
  exists blob : jsstring,
    fst (aesEncrypt (host := toy) (str "hi") (byte_of_Z 5) toy_entropy) = Ok blob /\
    Z.of_nat (length blob) =
    4 * ((12 + Z.of_nat (length (stringToArrayBuffer (str "hi"))) + Z.of_nat 2 + 2) / 3).
Proof.
  split; [exact toy_gcm_expansion|].
  exact (aesEncrypt_blob_length (host := toy) 2 (str "hi") (byte_of_Z 5) toy_entropy
           toy_gcm_expansion).
Defined.

Lemma encryptMessage_fields_witness :
  fst (encryptMessage (host := toy) toy_private_message
         (privateKey (toy_pair 5)) (publicKey (toy_pair 11)) toy_entropy)
    = Ok toy_sealed_message /\
  dom toy_sealed_message = (list_to_set message_fields : gset string) /\
  forall k : string, k ∉ message_fields -> get toy_sealed_message k = VUndefined.
Proof.
  split; [exact toy_private_message_sealed|].
  exact (encryptMessage_fields (host := toy) toy_private_message
           (privateKey (toy_pair 5)) (publicKey (toy_pair 11)) toy_entropy
           toy_sealed_message toy_private_message_sealed).
Defined.

(** ** A message opened by someone else *)

Section Outsider.
Context {host : Platform}.

(** X14. A message that [encryptMessage] sealed under one shared key, taken
    by a party whose own derivation gives a key [key']: whenever AES-GCM
    under [key'] rejects one of the three sealed fields, as it does under
    another key short of a tag that happens to verify, [decryptMessage]
    returns the sealed message, marked undecryptable, and none of the three
    plaintexts. *)
Theorem decryptMessage_other_key
    (messageData : jsobject) (priv pub priv' pub' : jsstring)
    (key key' : aes_key) (e : entropy) :
  deriveSharedSecret priv pub = Ok key ->
  deriveSharedSecret priv' pub' = Ok key' ->
  let field f := stringToArrayBuffer (encode_arg (get messageData f)) in
  let iv n := map e (seq n 12) in
  gcm_decrypt key' (iv 0%nat) (gcm_encrypt key (iv 0%nat) (field "senderName"%string))
    = None \/
  gcm_decrypt key' (iv 12%nat) (gcm_encrypt key (iv 12%nat) (field "message"%string))
    = None \/
  gcm_decrypt key' (iv 24%nat) (gcm_encrypt key (iv 24%nat) (field "timestamp"%string))
    = None ->
  exists sealed : jsobject,
    fst (encryptMessage messageData priv pub e) = Ok sealed /\
    decryptMessage sealed priv' pub' = marked_undecryptable sealed /\
    get (decryptMessage sealed priv' pub') "senderName" = get sealed "senderName" /\
    get (decryptMessage sealed priv' pub') "message" = get sealed "message" /\
    get (decryptMessage sealed priv' pub') "timestamp" = get sealed "timestamp".
Proof.
  intros Hkey Hkey' field iv Hrej.
  rewrite (encryptMessage_run _ _ _ key e Hkey). cbn [fst].
  eexists. split; [reflexivity|].
  match goal with |- context [decryptMessage ?M _ _] => set (sealed := M) end.
  assert (decryptMessage sealed priv' pub' = marked_undecryptable sealed) as Hmark.
  { assert (exists f : string,
              f ∈ ["senderName"; "message"; "timestamp"]%string /\
              aesDecrypt (ToString (get sealed f)) key' = Throw OperationError)
      as (f & Hf & Hthrow).
    { unfold field, iv in Hrej. destruct Hrej as [Hr | [Hr | Hr]].
      - exists "senderName"%string. split; [apply list_elem_of_here|].
        unfold get, sealed. rewrite lookup_insert_eq.
        cbn [default from_option id ToString]. unfold sealed_bytes.
        rewrite aesDecrypt_combined by apply getRandomBytes_length.
        unfold subtle_decrypt.
        change (fst (getRandomBytes IV_LENGTH e)) with (map e (seq 0 12)).
        rewrite Hr. reflexivity.
      - exists "message"%string.
        split; [apply list_elem_of_further, list_elem_of_here|].
        unfold get, sealed. rewrite lookup_insert_ne by discriminate.
        rewrite lookup_insert_eq.
        cbn [default from_option id ToString]. unfold sealed_bytes.
        rewrite aesDecrypt_combined by apply getRandomBytes_length.
        unfold subtle_decrypt.
        change (fst (getRandomBytes IV_LENGTH (fun i => e (12 + i)%nat)))
          with (map e (seq 12 12)).
        rewrite Hr. reflexivity.
      - exists "timestamp"%string.
        split; [apply list_elem_of_further, list_elem_of_further, list_elem_of_here|].
        unfold get, sealed. do 2 (rewrite lookup_insert_ne by discriminate).
        rewrite lookup_insert_eq.
        cbn [default from_option id ToString]. unfold sealed_bytes.
        rewrite aesDecrypt_combined by apply getRandomBytes_length.
        unfold subtle_decrypt.
        change (fst (getRandomBytes IV_LENGTH (fun i => e (24 + i)%nat)))
          with (map e (seq 24 12)).
        rewrite Hr. reflexivity. }
    destruct (decryptMessage_try_field_rejected sealed priv' pub' key' f _
                Hkey' Hf Hthrow) as [x Htry].
    apply (decryptMessage_caught _ _ _ _ Htry). }
  split; [exact Hmark|].
  rewrite Hmark. unfold get.
  rewrite !marked_undecryptable_frame by discriminate.
  split; [|split]; reflexivity.
Qed.

End Outsider.

Lemma decryptMessage_other_key_witness :
  let field f :=
    stringToArrayBuffer (encode_arg (get toy_private_message f)) in
  let iv n := map toy_entropy (seq n 12) in
  deriveSharedSecret (host := toy) (privateKey (toy_pair 5)) (publicKey (toy_pair 11))
    = Ok (byte_of_Z 165) /\
  deriveSharedSecret (host := toy) (privateKey (toy_pair 7)) (publicKey (toy_pair 5))
    = Ok (byte_of_Z 105) /\
  @gcm_decrypt toy (byte_of_Z 105) (iv 0%nat)
    (@gcm_encrypt toy (byte_of_Z 165) (iv 0%nat) (field "senderName"%string)) = None /\
  exists sealed : jsobject,
    fst (encryptMessage (host := toy) toy_private_message
           (privateKey (toy_pair 5)) (publicKey (toy_pair 11)) toy_entropy) = Ok sealed /\
    decryptMessage (host := toy) sealed (privateKey (toy_pair 7)) (publicKey (toy_pair 5))
      = marked_undecryptable sealed /\
    get (decryptMessage (host := toy) sealed (privateKey (toy_pair 7))
           (publicKey (toy_pair 5))) "senderName" = get sealed "senderName" /\
    get (decryptMessage (host := toy) sealed (privateKey (toy_pair 7))
           (publicKey (toy_pair 5))) "message" = get sealed "message" /\
    get (decryptMessage (host := toy) sealed (privateKey (toy_pair 7))
           (publicKey (toy_pair 5))) "timestamp" = get sealed "timestamp".
Proof.
  intros field iv.
  assert (@gcm_decrypt toy (byte_of_Z 105) (iv 0%nat)
            (@gcm_encrypt toy (byte_of_Z 165) (iv 0%nat) (field "senderName"%string))
          = None) as Hrej by (vm_compute; reflexivity).
  split; [reflexivity|]. split; [reflexivity|]. split; [exact Hrej|].
  exact (decryptMessage_other_key (host := toy) toy_private_message
           (privateKey (toy_pair 5)) (publicKey (toy_pair 11))
           (privateKey (toy_pair 7)) (publicKey (toy_pair 5))
           (byte_of_Z 165) (byte_of_Z 105) toy_entropy
           eq_refl eq_refl (or_introl Hrej)).
Defined.

(** ** The channel identifier and the fingerprint *)

Lemma is_lower_hex_global : forallb is_lower_hex (str "global") = false.
Proof. reflexivity. Qed.

Section ChannelShape.
Context {host : Platform}.

(** X15. A channel identifier is made of lower-case hexadecimal digits, two
    for each byte of the digest, so it is never the name ['global'] of the
    public channel. *)
Theorem generateChannelId_not_global (h1 h2 : jsstring) :
  forallb is_lower_hex (generateChannelId h1 h2) = true /\
  generateChannelId h1 h2 <> str "global".
Proof.
  assert (forallb is_lower_hex (generateChannelId h1 h2) = true) as Hhex.
  { unfold generateChannelId, sha256. apply arrayBufferToHex_lower. }
  split; [exact Hhex|].
  intros Heq. rewrite Heq, is_lower_hex_global in Hhex. discriminate.
Qed.

End ChannelShape.

Lemma hex_digit_ascii (d : Z) : 0 <= d < 16 -> 0 <= hex_digit d < 128.
Proof. intros Hd. unfold hex_digit. destruct (Z.ltb_spec d 10); lia. Qed.

Lemma hex_digit_no_terminator (d : Z) :
  0 <= d < 16 -> is_line_terminator (hex_digit d) = false.
Proof.
  intros Hd. unfold is_line_terminator, hex_digit.
  destruct (Z.ltb_spec d 10); decide_tests; reflexivity.
Qed.

(** Two bytes are four characters to [/.{1,4}/g]: one match. *)
Lemma match_groups_two_bytes (b1 b2 : byte) (bs : list byte) :
  match_groups [] (arrayBufferToHex (b1 :: b2 :: bs)) =
  [hex_digit (Z_of_byte b1 / 16); hex_digit (Z_of_byte b1 mod 16);
   hex_digit (Z_of_byte b2 / 16); hex_digit (Z_of_byte b2 mod 16)]
  :: match_groups [] (arrayBufferToHex bs).
Proof.
  rewrite !arrayBufferToHex_cons.
  pose proof (Z_of_byte_range b1) as H1. pose proof (Z_of_byte_range b2) as H2.
  cbn [match_groups].
  rewrite !hex_digit_no_terminator by arith. reflexivity.
Qed.

Lemma match_groups_one_byte (b : byte) :
  match_groups [] (arrayBufferToHex [b]) =
  [[hex_digit (Z_of_byte b / 16); hex_digit (Z_of_byte b mod 16)]].
Proof.
  rewrite arrayBufferToHex_cons. pose proof (Z_of_byte_range b) as Hb.
  cbn [match_groups arrayBufferToHex flat_map].
  rewrite !hex_digit_no_terminator by arith. reflexivity.
Qed.

(** The first n matches are read off the first 2 n bytes. *)
Lemma match_groups_firstn (n : nat) (bs : list byte) :
  firstn n (match_groups [] (arrayBufferToHex bs)) =
  firstn n (match_groups [] (arrayBufferToHex (firstn (2 * n) bs))).
Proof.
  revert bs. induction n as [|n IH]; intros bs; [reflexivity|].
  replace (2 * S n)%nat with (S (S (2 * n))) by lia.
  destruct bs as [|b1 [|b2 bs]]; [reflexivity|reflexivity|].
  cbn [firstn]. rewrite !match_groups_two_bytes. cbn [firstn].
  f_equal. apply IH.
Qed.

Lemma firstn_nil_iff {A : Type} (n : nat) (l : list A) :
  firstn (S n) l = [] -> l = [].
Proof. destruct l; [reflexivity|discriminate]. Qed.

Section Fingerprint.
Context {host : Platform} {casing : Casing}.

(** The fingerprint as a function of the first eight matches. *)
Lemma generateFingerprint_groups (pk : jsstring) :
  generateFingerprint pk =
  match firstn 8 (match_groups [] (sha256 pk)) with
  | [] => None
  | groups => Some (toUpperCase (Array_join (str " ") groups))
  end.
Proof.
  unfold generateFingerprint, String_match.
  destruct (match_groups [] (sha256 pk)) as [|g groups] eqn:Hg; reflexivity.
Qed.

(** X16. The fingerprint shows the first 16 bytes of the SHA-256 digest and
    nothing of the rest: two keys whose digests agree on their first 16
    bytes have the same fingerprint, a text of 39 characters (eight groups
    of four, with a space between). *)
Theorem generateFingerprint_prefix (pk pk' : jsstring) :
  toUpperCase_ascii ->
  (16 <= length (digest_sha256 (stringToArrayBuffer pk)))%nat ->
  firstn 16 (digest_sha256 (stringToArrayBuffer pk'))
    = firstn 16 (digest_sha256 (stringToArrayBuffer pk)) ->
  exists fp : jsstring,
    generateFingerprint pk = Some fp /\
    generateFingerprint pk' = Some fp /\
    length fp = 39%nat.
Proof.
  intros Hupper Hlen Hprefix.
  rewrite !generateFingerprint_groups. unfold sha256.
  rewrite (match_groups_firstn 8 (digest_sha256 (stringToArrayBuffer pk'))).
  rewrite (match_groups_firstn 8 (digest_sha256 (stringToArrayBuffer pk))).
  change (2 * 8)%nat with 16%nat. rewrite Hprefix.
  destruct (digest_sha256 (stringToArrayBuffer pk)) as [|b1 d]; [cbn in Hlen; lia|].
  do 15 (destruct d as [|? d]; [cbn in Hlen; lia|]).
  cbn [firstn]. rewrite !match_groups_two_bytes. cbn [firstn Array_join app].
  eexists. split; [reflexivity|]. split; [reflexivity|].
  rewrite Hupper.
  - rewrite length_map. reflexivity.
  - repeat (apply List.Forall_cons;
            [first [apply hex_digit_ascii;
                    match goal with |- context [Z_of_byte ?b] =>
                      pose proof (Z_of_byte_range b) end; arith
                   | cbv; split; [discriminate|reflexivity]]|]).
    apply List.Forall_nil.
Qed.

End Fingerprint.

Lemma toy_toUpperCase_ascii : toUpperCase_ascii (casing := toy_casing).
Proof. intros s _. reflexivity. Qed.

Lemma generateFingerprint_prefix_witness :
  toUpperCase_ascii (casing := toy_casing) /\
  (16 <= length (digest_sha256 (Platform := toy_wide) (stringToArrayBuffer (str "a"))))%nat /\
  firstn 16 (digest_sha256 (Platform := toy_wide) (stringToArrayBuffer (str "q")))
    = firstn 16 (digest_sha256 (Platform := toy_wide) (stringToArrayBuffer (str "a"))) /\
  exists fp : jsstring,
    generateFingerprint (host := toy_wide) (casing := toy_casing) (str "a") = Some fp /\
    generateFingerprint (host := toy_wide) (casing := toy_casing) (str "q") = Some fp /\
    length fp = 39%nat.
Proof.
  assert (16 <= length (digest_sha256 (Platform := toy_wide)
                          (stringToArrayBuffer (str "a"))))%nat as Hlen
    by (vm_compute; lia).
  split; [exact toy_toUpperCase_ascii|]. split; [exact Hlen|].
  split; [vm_compute; reflexivity|].
  exact (generateFingerprint_prefix (host := toy_wide) (casing := toy_casing)
           (str "a") (str "q") toy_toUpperCase_ascii Hlen eq_refl).
Defined.

Example fingerprint_a :
  generateFingerprint (host := toy_wide) (casing := toy_casing) (str "a")
  = Some (str "0126 4B70 95BA DF04 294E 7398 BDE2 072C").
Proof. vm_compute. reflexivity. Qed.

Lemma sealed_by_one_opens_by_other_witness :
  ec_mul_law (host := toy) /\ gcm_correct (host := toy) /\
  valid_key_pair (host := toy) (toy_pair 5) /\
  valid_key_pair (host := toy) (toy_pair 11) /\
  well_formed (str "hi") = true /\ without_bom (str "hi") = str "hi" /\
  exists blob,
    fst (encryptWithSharedSecret (host := toy) (str "hi") (privateKey (toy_pair 5))
           (publicKey (toy_pair 11)) toy_entropy) = Ok blob /\
    decryptWithSharedSecret (host := toy) blob (privateKey (toy_pair 11))
      (publicKey (toy_pair 5)) = Ok (str "hi").
Proof.
  split; [exact toy_ec_mul_law|]. split; [exact toy_gcm_correct|].
  split; [exact (toy_pair_valid 5)|]. split; [exact (toy_pair_valid 11)|].
  split; [reflexivity|]. split; [reflexivity|].
  exact (sealed_by_one_opens_by_other (host := toy) (toy_pair 5) (toy_pair 11)
           (str "hi") toy_entropy toy_ec_mul_law toy_gcm_correct
           (toy_pair_valid 5) (toy_pair_valid 11) eq_refl eq_refl).
Defined.

Lemma message_round_trip_witness :
  ec_mul_law (host := toy) /\ gcm_correct (host := toy) /\
  valid_key_pair (host := toy) (toy_pair 5) /\
  valid_key_pair (host := toy) (toy_pair 11) /\
  plain_text (encode_arg (get toy_private_message "senderName")) /\
  plain_text (encode_arg (get toy_private_message "message")) /\
  plain_text (encode_arg (get toy_private_message "timestamp")) /\
  exists sealed,
    fst (encryptMessage (host := toy) toy_private_message (privateKey (toy_pair 5))
           (publicKey (toy_pair 11)) toy_entropy) = Ok sealed /\
    let opened :=
      decryptMessage (host := toy) sealed (privateKey (toy_pair 11))
        (publicKey (toy_pair 5)) in
    get opened "senderName" = VStr (encode_arg (get toy_private_message "senderName")) /\
    get opened "message" = VStr (encode_arg (get toy_private_message "message")) /\
    get opened "timestamp" = VStr (encode_arg (get toy_private_message "timestamp")) /\
    get opened "decrypted" = VBool true /\
    get opened "channel" = get toy_private_message "channel".
Proof.
  assert (plain_text (encode_arg (get toy_private_message "senderName"))) as H1
    by (split; reflexivity).
  assert (plain_text (encode_arg (get toy_private_message "message"))) as H2
    by (split; reflexivity).
  assert (plain_text (encode_arg (get toy_private_message "timestamp"))) as H3
    by (split; reflexivity).
  split; [exact toy_ec_mul_law|]. split; [exact toy_gcm_correct|].
  split; [exact (toy_pair_valid 5)|]. split; [exact (toy_pair_valid 11)|].
  split; [exact H1|]. split; [exact H2|]. split; [exact H3|].
  exact (message_round_trip (host := toy) (toy_pair 5) (toy_pair 11)
           toy_private_message toy_entropy toy_ec_mul_law toy_gcm_correct
           (toy_pair_valid 5) (toy_pair_valid 11) H1 H2 H3).
Defined.

Lemma toy_registration_sent :
  fst (register (host := toy) (str "Alice") (str "pw") toy_entropy) = Ok toy_registration.
Proof. vm_compute. reflexivity. Qed.

Lemma register_then_login_witness :
  gcm_correct (host := toy) /\
  json_object_text (jwk_export_private (Platform := toy)
                      (fst (ec_generate (Platform := toy) toy_entropy))) /\
  fst (register (host := toy) (str "Alice") (str "pw") toy_entropy) = Ok toy_registration /\
  get toy_user_record "keySalt" = VStr (reg_keySalt toy_registration) /\
  get toy_user_record "privateKeyCipher" = VStr (reg_privateKeyCipher toy_registration) /\
  login_unlock (host := toy) (str "pw")
    (login_auth (login (host := toy) (str "Alice") (str "pw"))) toy_user_record
  = Ok (jwk_export_private (Platform := toy)
          (fst (ec_generate (Platform := toy) toy_entropy))).
Proof.
  assert (json_object_text (jwk_export_private (Platform := toy)
                              (fst (ec_generate (Platform := toy) toy_entropy)))) as Hjson
    by (apply (toy_jwk_text 8); lia).
  split; [exact toy_gcm_correct|]. split; [exact Hjson|].
  split; [exact toy_registration_sent|].
  split; [reflexivity|]. split; [reflexivity|].
  exact (register_then_login (host := toy) (str "Alice") (str "pw") toy_entropy
           toy_registration toy_user_record toy_gcm_correct Hjson
           toy_registration_sent eq_refl eq_refl).
Defined.

(** ** Messages loaded, received and previewed *)

Lemma strict_equals_sym (a b : jsval) : strict_equals a b = strict_equals b a.
Proof.
  destruct a as [| |x|x|x], b as [| |y|y|y]; cbn [strict_equals]; try reflexivity.
  - destruct x, y; reflexivity.
  - destruct (decide (x = y)) as [->|Hne]; [reflexivity|].
    rewrite (bool_decide_eq_false_2 (x = y)), (bool_decide_eq_false_2 (y = x))
      by congruence.
    reflexivity.
  - destruct (decide (x = y)) as [->|Hne]; [reflexivity|].
    rewrite (bool_decide_eq_false_2 (x = y)), (bool_decide_eq_false_2 (y = x))
      by congruence.
    reflexivity.
Qed.

Ltac field_in :=
  unfold message_fields;
  repeat first [apply list_elem_of_here | apply list_elem_of_further].

Section Delivery.
Context {host : Platform}.

(** [decryptMessage] writes five properties and no other. *)
Lemma decryptMessage_frame (msg : jsobject) (priv pub : jsstring) (k : string) :
  k ∉ ["senderName"; "message"; "timestamp"; "decrypted"; "decryptionError"]%string ->
  decryptMessage msg priv pub !! k = msg !! k.
Proof.
  intros Hk. rewrite !not_elem_of_cons in Hk.
  destruct Hk as (H1 & H2 & H3 & H4 & H5 & _).
  destruct (decryptMessage_try msg priv pub) as [out|x] eqn:Htry.
  - rewrite (decryptMessage_opened _ _ _ _ Htry).
    unfold decryptMessage_try in Htry.
    destruct (deriveSharedSecret priv pub) as [key|]; cbn [rbind] in Htry;
      [|discriminate].
    destruct (aesDecrypt (ToString (get msg "senderName")) key);
      cbn [rbind] in Htry; [|discriminate].
    destruct (aesDecrypt (ToString (get msg "message")) key);
      cbn [rbind] in Htry; [|discriminate].
    destruct (aesDecrypt (ToString (get msg "timestamp")) key);
      cbn [rbind] in Htry; [|discriminate].
    injection Htry as <-. rewrite !lookup_insert_ne by congruence. reflexivity.
  - rewrite (decryptMessage_caught _ _ _ _ Htry).
    apply marked_undecryptable_frame; congruence.
Qed.

(** A message whose three fields were sealed under the receiver's key opens
    to their plaintexts. *)
Lemma decryptMessage_sealed (msg : jsobject) (priv pub : jsstring) (key : aes_key)
    (s1 s2 s3 : jsstring) (e1 e2 e3 : entropy) :
  gcm_correct -> deriveSharedSecret priv pub = Ok key ->
  get msg "senderName" = VStr (base64_encode (sealed_bytes s1 key e1)) ->
  get msg "message" = VStr (base64_encode (sealed_bytes s2 key e2)) ->
  get msg "timestamp" = VStr (base64_encode (sealed_bytes s3 key e3)) ->
  plain_text s1 -> plain_text s2 -> plain_text s3 ->
  decryptMessage msg priv pub =
  <["decrypted" := VBool true]>
    (<["timestamp" := VStr s3]>
     (<["message" := VStr s2]>
      (<["senderName" := VStr s1]> msg))).
Proof.
  intros Hgcm Hkey Hf1 Hf2 Hf3 [Hwf1 Hb1] [Hwf2 Hb2] [Hwf3 Hb3].
  unfold decryptMessage, decryptMessage_try. rewrite Hkey. cbn [rbind].
  rewrite Hf1, Hf2, Hf3. cbn [ToString].
  rewrite !aesDecrypt_sealed by assumption. cbn [rbind].
  rewrite Hb1, Hb2, Hb3. reflexivity.
Qed.

(** X22. [loadMessages] keeps the number and the order of the messages the
    server answered with, and of each message every property but
    senderName, message, timestamp, decrypted and decryptionError; on the
    public channel, and for a message that is not of type ['encrypted'], it
    keeps the message as it is. *)
Theorem loadMessages_frame (channel : jsstring) (privateKey : jsval)
    (currentChatmate : option jsobject) (response : list jsobject) :
  length (loadMessages channel privateKey currentChatmate response) = length response /\
  forall (i : nat) (msg : jsobject),
    response !! i = Some msg ->
    exists out : jsobject,
      loadMessages channel privateKey currentChatmate response !! i = Some out /\
      (forall k : string,
         k ∉ ["senderName"; "message"; "timestamp"; "decrypted"; "decryptionError"]%string ->
         out !! k = msg !! k) /\
      (is_encrypted msg = false -> out = msg) /\
      (channel = str "global" -> out = msg).
Proof.
  unfold loadMessages.
  destruct (bool_decide (channel = str "global")) eqn:Hglobal; cbn [negb].
  { split; [reflexivity|]. intros i msg Hi. exists msg. auto. }
  apply bool_decide_eq_false in Hglobal.
  destruct (ToBoolean (get_opt currentChatmate "publicKey") && ToBoolean privateKey).
  2:{ split; [reflexivity|]. intros i msg Hi. exists msg. auto. }
  split; [apply length_map|].
  intros i msg Hi. rewrite list_lookup_fmap, Hi. cbn [fmap option_fmap option_map].
  eexists. split; [reflexivity|].
  destruct (is_encrypted msg).
  - split; [intros k Hk; apply decryptMessage_frame; exact Hk|].
    split; [discriminate|]. intros Hg. contradiction.
  - auto.
Qed.

(** X21. A private message that [sendMessage] sealed reaches the chat mate
    as it was written: whatever object the server relays that agrees with
    the sent one on its seven properties, [receiveMessage] appends to the
    chat mate's list a message with the sender's name, the text and the time
    stamp in clear. *)
Theorem private_message_delivered
    (A B : KeyPair) (alice bob : jsobject) (auth : AuthState)
    (channel name content timestamp : jsstring) (e : entropy)
    (messages : list jsobject) :
  ec_mul_law -> gcm_correct -> valid_key_pair A -> valid_key_pair B ->
  channel <> str "global" ->
  auth_privateKey auth = privateKey A ->
  get (auth_user auth) "username" = VStr name ->
  get bob "publicKey" = VStr (publicKey B) -> publicKey B <> [] ->
  get alice "publicKey" = VStr (publicKey A) -> publicKey A <> [] ->
  plain_text name -> plain_text content -> plain_text timestamp ->
  exists sent : jsobject,
    fst (sendMessage {| currentChannel := channel; currentChatmate := Some bob |}
           auth content timestamp e) = Ok sent /\
    get sent "messageType" = VStr (str "encrypted") /\
    forall saved : jsobject,
      (forall f : string, f ∈ message_fields -> get saved f = get sent f) ->
      exists opened : jsobject,
        receiveMessage {| currentChannel := channel; currentChatmate := Some alice |}
          (VStr (privateKey B)) messages saved = messages ++ [opened] /\
        get opened "senderName" = VStr name /\
        get opened "message" = VStr content /\
        get opened "timestamp" = VStr timestamp /\
        get opened "decrypted" = VBool true.
Proof.
  intros Hlaw Hgcm HA HB Hchannel Hpriv Hname Hbob HBkey Halice HAkey Hn Hc Ht.
  pose proof HA as (a & Ha_priv & Ha_pub). pose proof HB as (b & Hb_priv & Hb_pub).
  set (key := aes_import (ecdh_bits a (ec_mul b ec_base) AES_KEY_LENGTH)).
  assert (deriveSharedSecret (privateKey A) (publicKey B) = Ok key) as HkeyA
    by (apply deriveSharedSecret_imported; assumption).
  assert (deriveSharedSecret (privateKey B) (publicKey A) = Ok key) as HkeyB.
  { rewrite (deriveSharedSecret_imported _ _ b (ec_mul a ec_base)) by assumption.
    unfold key, ecdh_bits. rewrite (ecdh_point_symmetric b a Hlaw). reflexivity. }
  assert (ToBoolean (VStr (publicKey A)) = true) as HAtrue
    by (cbn [ToBoolean]; destruct (publicKey A); [contradiction|reflexivity]).
  assert (ToBoolean (VStr (publicKey B)) = true) as HBtrue
    by (cbn [ToBoolean]; destruct (publicKey B); [contradiction|reflexivity]).
  unfold sendMessage. cbn [currentChannel currentChatmate get_opt].
  rewrite bool_decide_eq_false_2 by exact Hchannel.
  rewrite Hbob, HBtrue, Hpriv. cbn [negb andb ToString].
  rewrite (encryptMessage_run _ _ _ key e HkeyA). cbn [fst].
  eexists. split; [reflexivity|].
  match goal with |- context [get ?M "messageType"] => set (sent := M) end.
  assert (get sent "senderName"
          = VStr (base64_encode (sealed_bytes name key e))) as Hs1.
  { unfold sent, get. rewrite lookup_insert_eq. cbn [default from_option id].
    rewrite lookup_insert_eq. cbn [default from_option id].
    fold (get (auth_user auth) "username"). rewrite Hname. reflexivity. }
  assert (get sent "message"
          = VStr (base64_encode (sealed_bytes content key (fun i => e (12 + i)%nat))))
    as Hs2.
  { unfold sent, get. rewrite lookup_insert_ne, lookup_insert_eq by discriminate.
    cbn [default from_option id].
    rewrite lookup_insert_ne, lookup_insert_eq by discriminate. reflexivity. }
  assert (get sent "timestamp"
          = VStr (base64_encode (sealed_bytes timestamp key (fun i => e (24 + i)%nat))))
    as Hs3.
  { unfold sent, get. rewrite !lookup_insert_ne by discriminate.
    rewrite lookup_insert_eq. cbn [default from_option id].
    rewrite !lookup_insert_ne by discriminate.
    rewrite lookup_insert_eq. reflexivity. }
  assert (get sent "messageType" = VStr (str "encrypted")) as Hs4.
  { unfold sent, get. rewrite !lookup_insert_ne by discriminate.
    rewrite lookup_insert_eq. reflexivity. }
  assert (get sent "channel" = VStr channel) as Hs5.
  { unfold sent, get. rewrite !lookup_insert_ne by discriminate.
    rewrite lookup_insert_eq. cbn [default from_option id].
    rewrite !lookup_insert_ne by discriminate.
    rewrite lookup_insert_eq. reflexivity. }
  split; [exact Hs4|].
  intros saved Hsaved.
  assert (forall f, f ∈ message_fields -> get saved f = get sent f) as Hf by exact Hsaved.
  unfold receiveMessage. cbn [currentChannel currentChatmate get_opt].
  rewrite (Hf "channel"), Hs5 by field_in.
  cbn [strict_equals]. rewrite bool_decide_eq_true_2 by reflexivity.
  unfold is_encrypted. rewrite (Hf "messageType"), Hs4 by field_in.
  cbn [strict_equals]. rewrite bool_decide_eq_true_2 by reflexivity.
  rewrite Halice, HAtrue. cbn [andb ToString].
  rewrite (decryptMessage_sealed saved _ _ key name content timestamp
             e (fun i => e (12 + i)%nat) (fun i => e (24 + i)%nat) Hgcm HkeyB).
  2:{ rewrite (Hf "senderName") by field_in. exact Hs1. }
  2:{ rewrite (Hf "message") by field_in. exact Hs2. }
  2:{ rewrite (Hf "timestamp") by field_in. exact Hs3. }
  2,3,4: assumption.
  eexists. split; [reflexivity|]. unfold get.
  split; [|split; [|split]].
  - do 3 (rewrite lookup_insert_ne by discriminate).
    rewrite lookup_insert_eq. reflexivity.
  - do 2 (rewrite lookup_insert_ne by discriminate).
    rewrite lookup_insert_eq. reflexivity.
  - rewrite lookup_insert_ne by discriminate.
    rewrite lookup_insert_eq. reflexivity.
  - rewrite lookup_insert_eq. reflexivity.
Qed.

End Delivery.

Lemma private_message_delivered_witness :
  ec_mul_law (host := toy) /\ gcm_correct (host := toy) /\
  valid_key_pair (host := toy) (toy_pair 5) /\
  valid_key_pair (host := toy) (toy_pair 11) /\
  str "c0" <> str "global" /\
  auth_privateKey toy_auth = privateKey (toy_pair 5) /\
  get (auth_user toy_auth) "username" = VStr (str "alice") /\
  get toy_bob "publicKey" = VStr (publicKey (toy_pair 11)) /\
  publicKey (toy_pair 11) <> [] /\
  get toy_alice "publicKey" = VStr (publicKey (toy_pair 5)) /\
  publicKey (toy_pair 5) <> [] /\
  plain_text (str "alice") /\ plain_text (str "hi") /\ plain_text (str "t0") /\
  exists sent : jsobject,
    fst (sendMessage (host := toy)
           {| currentChannel := str "c0"; currentChatmate := Some toy_bob |}
           toy_auth (str "hi") (str "t0") toy_entropy) = Ok sent /\
    get sent "messageType" = VStr (str "encrypted") /\
    forall saved : jsobject,
      (forall f : string, f ∈ message_fields -> get saved f = get sent f) ->
      exists opened : jsobject,
        receiveMessage (host := toy)
          {| currentChannel := str "c0"; currentChatmate := Some toy_alice |}
          (VStr (privateKey (toy_pair 11))) [] saved = [] ++ [opened] /\
        get opened "senderName" = VStr (str "alice") /\
        get opened "message" = VStr (str "hi") /\
        get opened "timestamp" = VStr (str "t0") /\
        get opened "decrypted" = VBool true.
Proof.
  assert (str "c0" <> str "global") as Hc by discriminate.
  assert (publicKey (toy_pair 11) <> []) as H11 by discriminate.
  assert (publicKey (toy_pair 5) <> []) as H5 by discriminate.
  assert (plain_text (str "alice")) as Hp1 by (split; reflexivity).
  assert (plain_text (str "hi")) as Hp2 by (split; reflexivity).
  assert (plain_text (str "t0")) as Hp3 by (split; reflexivity).
  split; [exact toy_ec_mul_law|]. split; [exact toy_gcm_correct|].
  split; [exact (toy_pair_valid 5)|]. split; [exact (toy_pair_valid 11)|].
  split; [exact Hc|]. split; [reflexivity|]. split; [reflexivity|].
  split; [reflexivity|]. split; [exact H11|].
  split; [reflexivity|]. split; [exact H5|].
  split; [exact Hp1|]. split; [exact Hp2|]. split; [exact Hp3|].
  exact (private_message_delivered (host := toy) (toy_pair 5) (toy_pair 11)
           toy_alice toy_bob toy_auth (str "c0") (str "alice") (str "hi") (str "t0")
           toy_entropy [] toy_ec_mul_law toy_gcm_correct
           (toy_pair_valid 5) (toy_pair_valid 11) Hc eq_refl eq_refl
           eq_refl H11 eq_refl H5 Hp1 Hp2 Hp3).
Defined.

Section Unsealed.
Context {host : Platform}.

(** X20. When the chat mate's record has no public key, [sendMessage] hands
    the server the text as it was typed, as a message of type ['text'], on
    a private channel as on the public one, and draws no random bytes. *)
Theorem sendMessage_unsealed (chat : ChatState) (auth : AuthState)
    (content timestamp : jsstring) (e : entropy) :
  ToBoolean (get_opt (currentChatmate chat) "publicKey") = false ->
  exists m : jsobject,
    sendMessage chat auth content timestamp e = (Ok m, e) /\
    get m "message" = VStr content /\
    get m "channel" = VStr (currentChannel chat) /\
    get m "messageType" = VStr (str "text").
Proof.
  intros Hkey. unfold sendMessage. rewrite Hkey, andb_false_r. unfold io_ret.
  eexists. split; [reflexivity|]. unfold get.
  split; [|split].
  - rewrite lookup_insert_ne by discriminate.
    rewrite lookup_insert_eq. reflexivity.
  - do 2 (rewrite lookup_insert_ne by discriminate).
    rewrite lookup_insert_eq. reflexivity.
  - do 6 (rewrite lookup_insert_ne by discriminate).
    rewrite lookup_insert_eq. reflexivity.
Qed.

End Unsealed.

Lemma sendMessage_unsealed_witness :
  ToBoolean (get_opt (currentChatmate toy_keyless_chat) "publicKey") = false /\
  exists m : jsobject,
    sendMessage (host := toy) toy_keyless_chat toy_auth (str "hi") (str "t0") toy_entropy
      = (Ok m, toy_entropy) /\
    get m "message" = VStr (str "hi") /\
    get m "channel" = VStr (currentChannel toy_keyless_chat) /\
    get m "messageType" = VStr (str "text").
Proof.
  split; [reflexivity|].
  exact (sendMessage_unsealed (host := toy) toy_keyless_chat toy_auth (str "hi")
           (str "t0") toy_entropy eq_refl).
Defined.

(** ** The list of users on line *)

Lemma distinct_users_snoc (users : list jsobject) (userData : jsobject) :
  distinct_users users ->
  Forall (fun u =>
            strict_equals (get u "publicKeyHash") (get userData "publicKeyHash") = false)
    users ->
  distinct_users (users ++ [userData]).
Proof.
  induction users as [|u rest IH]; intros Hd Hnew.
  - cbn. split; [constructor|exact I].
  - destruct Hd as [Hu Hrest]. inversion Hnew as [|? ? Hnu Hnrest]; subst.
    cbn [app distinct_users]. split; [|apply IH; assumption].
    apply Forall_app. split; [exact Hu|].
    constructor; [|constructor]. rewrite strict_equals_sym. exact Hnu.
Qed.

Lemma distinct_users_filter (f : jsobject -> bool) (users : list jsobject) :
  distinct_users users -> distinct_users (List.filter f users).
Proof.
  induction users as [|u rest IH]; intros Hd; [exact I|].
  destruct Hd as [Hu Hrest]. cbn [List.filter].
  destruct (f u); [|apply IH; exact Hrest].
  cbn [distinct_users]. split; [|apply IH; exact Hrest].
  clear IH Hrest. induction Hu as [|v rest Hv _ IH]; [constructor|].
  cbn [List.filter]. destruct (f v); [constructor; assumption|assumption].
Qed.

(** X23. The list of users on line never holds two users with the same
    [publicKeyHash]: [handleUserConnected] and [handleUserDisconnected]
    keep it so, and after [handleUserDisconnected] no user with the hash of
    the one that left is on it. *)
Theorem onlineUsers_distinct (onlineUsers : list jsobject) (userData : jsobject) :
  distinct_users onlineUsers ->
  distinct_users (handleUserConnected onlineUsers userData) /\
  distinct_users (handleUserDisconnected onlineUsers userData) /\
  Forall (fun u =>
            strict_equals (get u "publicKeyHash") (get userData "publicKeyHash") = false)
    (handleUserDisconnected onlineUsers userData).
Proof.
  intros Hd. split; [|split].
  - unfold handleUserConnected.
    destruct (existsb _ onlineUsers) eqn:Hex; [exact Hd|].
    apply distinct_users_snoc; [exact Hd|].
    apply List.Forall_forall. intros u Hu.
    destruct (strict_equals (get u "publicKeyHash") (get userData "publicKeyHash"))
      eqn:Heq; [|reflexivity].
    assert (existsb
              (fun u => strict_equals (get u "publicKeyHash")
                          (get userData "publicKeyHash")) onlineUsers = true) as Habs
      by (apply existsb_exists; exists u; split; assumption).
    congruence.
  - apply distinct_users_filter. exact Hd.
  - unfold handleUserDisconnected. apply List.Forall_forall. intros u Hu.
    apply filter_In in Hu as [_ Hu]. apply negb_true_iff in Hu. exact Hu.
Qed.

Lemma onlineUsers_distinct_witness :
  distinct_users toy_online /\
  distinct_users (handleUserConnected toy_online toy_carol) /\
  distinct_users (handleUserDisconnected toy_online toy_carol) /\
  Forall (fun u =>
            strict_equals (get u "publicKeyHash") (get toy_carol "publicKeyHash") = false)
    (handleUserDisconnected toy_online toy_carol).
Proof.
  assert (distinct_users toy_online) as Hd.
  { cbn [toy_online distinct_users]. split; [|split; [constructor|exact I]].
    constructor; [reflexivity|constructor]. }
  split; [exact Hd|].
  exact (onlineUsers_distinct toy_online toy_carol Hd).
Defined.

(** ** The preview of the inbox *)

Section Preview.
Context {host : Platform}.

(** X24. When the last message of a channel cannot be opened, the inbox
    does not fall back to the words 'Encrypted message': [decryptMessage]
    hands back the sealed message, so the preview is the sealed text of the
    message itself. *)
Theorem Inbox_preview_undecryptable
    (lastMsg : jsobject) (privateKey : jsval) (otherUser : jsobject) (x : exn) :
  ToBoolean (get otherUser "publicKey") = true ->
  ToBoolean privateKey = true ->
  ToBoolean (get lastMsg "message") = true ->
  decryptMessage_try lastMsg (ToString privateKey)
    (ToString (get otherUser "publicKey")) = Throw x ->
  Inbox_preview lastMsg privateKey otherUser = get lastMsg "message".
Proof.
  intros Hpub Hpriv Hmsg Htry. unfold Inbox_preview.
  rewrite Hpub, Hpriv. cbn [andb].
  rewrite (decryptMessage_caught _ _ _ _ Htry).
  unfold get at 1. rewrite marked_undecryptable_frame by discriminate.
  fold (get lastMsg "message"). unfold js_or. rewrite Hmsg. reflexivity.
Qed.

End Preview.

Lemma Inbox_preview_undecryptable_witness :
  ToBoolean (get toy_alice "publicKey") = true /\
  ToBoolean (VStr (privateKey (toy_pair 7))) = true /\
  ToBoolean (get toy_sealed_message "message") = true /\
  decryptMessage_try (host := toy) toy_sealed_message
    (ToString (VStr (privateKey (toy_pair 7))))
    (ToString (get toy_alice "publicKey")) = Throw OperationError /\
  Inbox_preview (host := toy) toy_sealed_message (VStr (privateKey (toy_pair 7))) toy_alice
    = get toy_sealed_message "message".
Proof.
  assert (ToBoolean (get toy_sealed_message "message") = true) as Hmsg
    by (vm_compute; reflexivity).
  assert (decryptMessage_try (host := toy) toy_sealed_message
            (ToString (VStr (privateKey (toy_pair 7))))
            (ToString (get toy_alice "publicKey")) = Throw OperationError) as Htry
    by (vm_compute; reflexivity).
  split; [reflexivity|]. split; [reflexivity|]. split; [exact Hmsg|].
  split; [exact Htry|].
  exact (Inbox_preview_undecryptable (host := toy) toy_sealed_message
           (VStr (privateKey (toy_pair 7))) toy_alice OperationError
           eq_refl eq_refl Hmsg Htry).
Defined.

(** ** What the chat box sends *)

Lemma well_formed_drop_space (u : Z) (s : jsstring) :
  is_js_whitespace u = true -> well_formed (u :: s) = true -> well_formed s = true.
Proof.
  intros Hws Hwf. cbn [well_formed] in Hwf.
  assert (is_high_surrogate u = false) as Hhi.
  { unfold is_js_whitespace in Hws. unfold is_high_surrogate.
    rewrite !orb_true_iff, !andb_true_iff, !Z.eqb_eq, !Z.leb_le in Hws.
    apply andb_false_iff. rewrite !Z.leb_gt. lia. }
  rewrite Hhi in Hwf. rewrite !andb_true_iff in Hwf. tauto.
Qed.

Lemma well_formed_trimStart (s : jsstring) :
  well_formed s = true -> well_formed (trimStart s) = true.
Proof.
  unfold trimStart. induction s as [|u s IH]; intros Hwf; [reflexivity|].
  cbn [drop_while]. destruct (is_js_whitespace u) eqn:Hws; [|exact Hwf].
  apply IH. apply (well_formed_drop_space u); assumption.
Qed.

(** A well-formed string stays so without its last character, when that is
    white space. *)
Lemma well_formed_snoc_space (s : jsstring) (u : Z) :
  is_js_whitespace u = true -> well_formed (s ++ [u]) = true -> well_formed s = true.
Proof.
  intros Hws.
  assert (is_low_surrogate u = false) as Hlo.
  { unfold is_js_whitespace in Hws. unfold is_low_surrogate.
    rewrite !orb_true_iff, !andb_true_iff, !Z.eqb_eq, !Z.leb_le in Hws.
    apply andb_false_iff. rewrite !Z.leb_gt. lia. }
  assert (forall n s, (length s <= n)%nat ->
            well_formed (s ++ [u]) = true -> well_formed s = true) as Haux;
    [|apply (Haux (length s)); lia].
  clear s. induction n as [|n IH]; intros s Hlen Hwf.
  { destruct s; [reflexivity|cbn in Hlen; lia]. }
  destruct s as [|a rest]; [reflexivity|].
  cbn [app well_formed] in Hwf |- *.
  destruct (is_high_surrogate a).
  - destruct rest as [|v rest'].
    + cbn [app] in Hwf. rewrite Hlo in Hwf. discriminate.
    + cbn [app] in Hwf. apply andb_true_iff in Hwf as [Hv Hrest].
      rewrite Hv. cbn [andb]. apply IH; [cbn [length] in Hlen; lia|exact Hrest].
  - rewrite !andb_true_iff in Hwf. destruct Hwf as [[[H1 H2] H3] Hrest].
    rewrite H1, H2, H3. cbn [andb]. apply IH; [cbn [length] in Hlen; lia|exact Hrest].
Qed.

Lemma trimEnd_snoc (s : jsstring) (u : Z) :
  trimEnd (s ++ [u]) = if is_js_whitespace u then trimEnd s else s ++ [u].
Proof.
  unfold trimEnd. rewrite rev_app_distr. cbn [rev app drop_while].
  destruct (is_js_whitespace u); [reflexivity|].
  cbn [rev]. rewrite rev_involutive. reflexivity.
Qed.

Lemma well_formed_trimEnd (s : jsstring) :
  well_formed s = true -> well_formed (trimEnd s) = true.
Proof.
  induction s as [|u s IH] using rev_ind; intros Hwf; [reflexivity|].
  rewrite trimEnd_snoc. destruct (is_js_whitespace u) eqn:Hws; [|exact Hwf].
  apply IH. apply (well_formed_snoc_space s u); assumption.
Qed.

(** [trimEnd] keeps a first character that is no white space. *)
Lemma trimEnd_cons (u : Z) (s : jsstring) :
  is_js_whitespace u = false -> trimEnd (u :: s) = u :: trimEnd s.
Proof.
  intros Hu. induction s as [|v s IH] using rev_ind.
  - change [u] with ([] ++ [u]). rewrite trimEnd_snoc, Hu. reflexivity.
  - rewrite app_comm_cons, !trimEnd_snoc.
    destruct (is_js_whitespace v); [exact IH|reflexivity].
Qed.

Lemma trimStart_head (s : jsstring) :
  match trimStart s with
  | [] => True
  | u :: _ => is_js_whitespace u = false
  end.
Proof.
  unfold trimStart. induction s as [|u s IH]; [exact I|].
  cbn [drop_while]. destruct (is_js_whitespace u) eqn:Hu; [exact IH|exact Hu].
Qed.

Lemma String_trim_head (s : jsstring) :
  without_bom (String_trim s) = String_trim s.
Proof.
  unfold String_trim. pose proof (trimStart_head s) as Hhead.
  destruct (trimStart s) as [|u rest]; [reflexivity|].
  rewrite trimEnd_cons by exact Hhead. cbn [without_bom].
  destruct (Z.eqb_spec u 0xFEFF) as [->|Hne]; [discriminate Hhead|reflexivity].
Qed.

Section ChatBox.
Context {host : Platform}.

(** X25. What the chat box passes to [sendMessage] is the typed text
    without the white space at its two ends, and never the empty text; it
    does not begin with U+FEFF, which is white space, so a well-formed
    typed text is sent as a text that comes back whole from sealing and
    opening. *)
Theorem handleSend_plain_text (message content : jsstring) (isSending : bool) :
  well_formed message = true ->
  handleSend message isSending = Some content ->
  content = String_trim message /\ content <> [] /\ isSending = false /\
  plain_text content.
Proof.
  intros Hwf. unfold handleSend. cbn [ToBoolean].
  destruct (String_trim message) as [|u rest] eqn:Htrim; [discriminate|].
  cbn [negb orb]. destruct isSending; [discriminate|].
  intros Hsome. injection Hsome as <-.
  split; [reflexivity|]. split; [discriminate|]. split; [reflexivity|].
  rewrite <- Htrim. split.
  - unfold String_trim. apply well_formed_trimEnd, well_formed_trimStart, Hwf.
  - apply String_trim_head.
Qed.

End ChatBox.

Lemma handleSend_plain_text_witness :
  well_formed (0xFEFF :: str " hi ") = true /\
  handleSend (0xFEFF :: str " hi ") false = Some (str "hi") /\
  str "hi" = String_trim (0xFEFF :: str " hi ") /\ str "hi" <> [] /\ false = false /\
  plain_text (str "hi").
Proof.
  split; [reflexivity|]. split; [reflexivity|].
  exact (handleSend_plain_text (0xFEFF :: str " hi ") (str "hi") false eq_refl eq_refl).
Defined.

(** ** utils.js *)

(** X26. [truncate] with a limit of at least 3 returns a text of at most
    that many characters: the text itself when it is short enough, else its
    first [maxLength - 3] characters and three dots. *)
Theorem truncate_length (text : jsstring) (maxLength : Z) :
  3 <= maxLength ->
  Z.of_nat (length (truncate text maxLength)) <= maxLength /\
  (Z.of_nat (length text) <= maxLength -> truncate text maxLength = text) /\
  (maxLength < Z.of_nat (length text) ->
   truncate text maxLength = firstn (Z.to_nat (maxLength - 3)) text ++ str "...").
Proof.
  intros Hmax. unfold truncate. cbn [ToBoolean].
  destruct text as [|u rest].
  { cbn [negb orb length]. split; [lia|]. split; [reflexivity|]. cbn [length]. lia. }
  cbn [negb orb].
  destruct (Z.leb_spec (Z.of_nat (length (u :: rest))) maxLength) as [Hle|Hgt].
  { split; [exact Hle|]. split; [reflexivity|]. lia. }
  assert (String_slice0 (u :: rest) (maxLength - 3)
          = firstn (Z.to_nat (maxLength - 3)) (u :: rest)) as Hslice.
  { unfold String_slice0.
    destruct (Z.ltb_spec (maxLength - 3) 0) as [Hneg|_]; [lia|].
    rewrite Z.min_l by lia. reflexivity. }
  rewrite Hslice. split; [|split; [lia|reflexivity]].
  rewrite length_app, length_take. change (length (str "...")) with 3%nat. lia.
Qed.

Lemma truncate_length_witness :
  3 <= 5 /\
  Z.of_nat (length (truncate (str "encrypted") 5)) <= 5 /\
  (Z.of_nat (length (str "encrypted")) <= 5 -> truncate (str "encrypted") 5 = str "encrypted") /\
  (5 < Z.of_nat (length (str "encrypted")) ->
   truncate (str "encrypted") 5 = firstn (Z.to_nat (5 - 3)) (str "encrypted") ++ str "...").
Proof.
  split; [lia|]. exact (truncate_length (str "encrypted") 5 ltac:(lia)).
Defined.

Example truncate_short_limit : truncate (str "abcdef") 2 = str "abcde...".
Proof. reflexivity. Qed.

(** ** The server's answer to a login *)

Lemma arrayBufferToHex_inj (a b : list byte) :
  arrayBufferToHex a = arrayBufferToHex b -> a = b.
Proof.
  intros Heq. rewrite <- (hexToArrayBuffer_arrayBufferToHex a).
  rewrite Heq. apply hexToArrayBuffer_arrayBufferToHex.
Qed.

Lemma map_Z_of_byte_inj (a b : list byte) :
  map Z_of_byte a = map Z_of_byte b -> a = b.
Proof.
  revert b. induction a as [|x a IH]; intros [|y b] Heq; try discriminate;
    [reflexivity|].
  cbn [map] in Heq. injection Heq as Hxy Hab.
  f_equal; [apply Z_of_byte_inj; exact Hxy|apply IH; exact Hab].
Qed.

Section Login.
Context {host : Platform} {node : Node}.

(** The comparison, on a stored hash that [hashPassword] wrote. *)
Lemma login_compare_hashed (auth auth0 salt : jsstring) :
  Buffer_hex_law ->
  login_compare auth salt (hashPassword auth0 salt) =
  match timingSafeEqual
          (pbkdf2_sha512 (TextEncoder_encode auth) (TextEncoder_encode salt)
             PBKDF2_ITERATIONS (8 * PBKDF2_KEYLEN))
          (pbkdf2_sha512 (TextEncoder_encode auth0) (TextEncoder_encode salt)
             PBKDF2_ITERATIONS (8 * PBKDF2_KEYLEN)) with
  | Some isMatch => if isMatch then LoginSuccessful else InvalidCredentials
  | None => ServerError
  end.
Proof.
  intros Hhex. unfold login_compare, hashPassword. rewrite !Hhex. reflexivity.
Qed.

(** X18. The server accepts at login the value it hashed at registration:
    with the password of the registration, the login request is answered
    'Login successful'; with another password, whose hash differs and is as
    long, 'Invalid credentials'. *)
Theorem login_after_register (username password password' salt : jsstring)
    (e : entropy) :
  Buffer_hex_law ->
  exists req : RegistrationRequest,
    fst (register username password e) = Ok req /\
    let stored := hashPassword (reg_auth req) salt in
    login_compare (login_auth (login username password)) salt stored
      = LoginSuccessful /\
    let presented := hashPassword (login_auth (login username password')) salt in
    (presented <> stored -> length presented = length stored ->
     login_compare (login_auth (login username password')) salt stored
       = InvalidCredentials).
Proof.
  intros Hhex.
  destruct (register_runs username password e) as (req & Hreq & _ & Hauth).
  exists req. split; [exact Hreq|]. cbv zeta. rewrite Hauth. cbn [login login_auth].
  rewrite !login_compare_hashed by exact Hhex. split.
  - unfold timingSafeEqual. rewrite Nat.eqb_refl.
    rewrite bool_decide_eq_true_2 by reflexivity. reflexivity.
  - intros Hne Hlen. unfold hashPassword in Hne, Hlen.
    rewrite !arrayBufferToHex_length in Hlen.
    unfold timingSafeEqual.
    rewrite (proj2 (Nat.eqb_eq _ _)) by lia.
    rewrite bool_decide_eq_false_2; [reflexivity|].
    intros Heq. apply map_Z_of_byte_inj in Heq. apply Hne. rewrite Heq. reflexivity.
Qed.

End Login.

Lemma toy_hex_decode_law : Buffer_hex_law (node := toy_node).
Proof.
  intros bs. cbn [Buffer_from_hex toy_node].
  induction bs as [|b bs IH]; [reflexivity|].
  rewrite arrayBufferToHex_cons. cbn [toy_hex_decode].
  pose proof (Z_of_byte_range b) as Hb.
  rewrite !hex_value_digit by arith. rewrite IH. f_equal.
  apply byte_of_Z_unique. arith.
Qed.

Lemma login_after_register_witness :
  Buffer_hex_law (node := toy_node) /\
  exists req : RegistrationRequest,
    fst (register (host := toy) (str "Alice") (str "pw") toy_entropy) = Ok req /\
    let stored := hashPassword (host := toy) (reg_auth req) (str "$2b$12$salt") in
    login_compare (host := toy) (node := toy_node)
      (login_auth (login (host := toy) (str "Alice") (str "pw"))) (str "$2b$12$salt") stored
      = LoginSuccessful /\
    let presented :=
      hashPassword (host := toy)
        (login_auth (login (host := toy) (str "Alice") (str "guess"))) (str "$2b$12$salt") in
    (presented <> stored -> length presented = length stored ->
     login_compare (host := toy) (node := toy_node)
       (login_auth (login (host := toy) (str "Alice") (str "guess"))) (str "$2b$12$salt")
       stored = InvalidCredentials).
Proof.
  split; [exact toy_hex_decode_law|].
  exact (login_after_register (host := toy) (node := toy_node) (str "Alice") (str "pw")
           (str "guess") (str "$2b$12$salt") toy_entropy toy_hex_decode_law).
Defined.

Example login_wrong_password :
  login_compare (host := toy) (node := toy_node)
    (login_auth (login (host := toy) (str "Alice") (str "guess"))) (str "$2b$12$salt")
    (hashPassword (host := toy) (reg_auth toy_registration) (str "$2b$12$salt"))
  = InvalidCredentials.
Proof. vm_compute. reflexivity. Qed.

(** ** The server's check of a message *)

Lemma get_request_body (m : jsobject) (k : string) :
  get (request_body m) k = default VUndefined (JSON_value (get m k)).
Proof.
  unfold get, request_body. rewrite lookup_omap.
  destruct (m !! k) as [v|]; reflexivity.
Qed.

Lemma JSON_value_string (s : jsstring) : JSON_value (VStr s) = Some (VStr s).
Proof. reflexivity. Qed.

Lemma Joi_string_allow_null_sent (v : jsval) :
  Joi_string_allow_null v = true ->
  Joi_string_allow_null (default VUndefined (JSON_value v)) = true.
Proof. destruct v; try discriminate; reflexivity. Qed.

Lemma Joi_string_allow_null_or (v : jsval) :
  Joi_string_allow_null v = true ->
  Joi_string_allow_null (default VUndefined (JSON_value (js_or v VNull))) = true.
Proof.
  destruct v as [| |b|text|s]; try discriminate; try reflexivity.
  intros _. unfold js_or. destruct (ToBoolean (VStr s)); reflexivity.
Qed.

Lemma request_body_dom (m : jsobject) (fields : gset string) :
  dom m ⊆ fields -> dom (request_body m) ⊆ fields.
Proof.
  intros Hm. unfold request_body. etransitivity; [apply dom_omap_subseteq|exact Hm].
Qed.

Lemma String_trim_length (s : jsstring) : (length (String_trim s) <= length s)%nat.
Proof.
  assert (forall s, (length (drop_while is_js_whitespace s) <= length s)%nat) as Hdrop.
  { clear s. induction s as [|u s IH]; [reflexivity|].
    cbn [drop_while]. destruct (is_js_whitespace u); cbn [length]; lia. }
  unfold String_trim, trimEnd, trimStart.
  rewrite length_rev. etransitivity; [apply Hdrop|].
  rewrite length_rev. apply Hdrop.
Qed.

Section Validation.
Context {host : Platform}.

Lemma sealed_blob_length (t : nat) (s : jsstring) (key : aes_key) (e : entropy) :
  gcm_expansion t ->
  Z.of_nat (length (base64_encode (sealed_bytes s key e))) =
  4 * ((12 + Z.of_nat (length (stringToArrayBuffer s)) + Z.of_nat t + 2) / 3).
Proof.
  intros Hexp. rewrite base64_encode_length_formula. unfold sealed_bytes.
  rewrite length_app, getRandomBytes_length, Hexp. unfold IV_LENGTH.
  do 2 f_equal. lia.
Qed.

Lemma sealed_blob_required (t : nat) (s : jsstring) (key : aes_key) (e : entropy) :
  gcm_expansion t ->
  Joi_string_required (VStr (base64_encode (sealed_bytes s key e))) = true.
Proof.
  intros Hexp. pose proof (sealed_blob_length t s key e Hexp) as Hlen.
  destruct (base64_encode (sealed_bytes s key e)); [|reflexivity].
  cbn [length] in Hlen. exfalso. arith.
Qed.

(** X27. The server's [validateMessage] accepts a sealed private message
    exactly when the text has at most 1488 - t bytes in UTF-8, t being the
    length of the tag AES-GCM appends: the limit of 2000 characters is put
    on the sealed text, which is four thirds as long as the IV, the text
    and the tag together. *)
Theorem sealed_message_validated
    (t : nat) (chat : ChatState) (auth : AuthState) (content timestamp : jsstring)
    (e : entropy) (key : aes_key) :
  gcm_expansion t ->
  currentChannel chat <> str "global" -> currentChannel chat <> [] ->
  ToBoolean (get_opt (currentChatmate chat) "publicKey") = true ->
  deriveSharedSecret (auth_privateKey auth)
    (ToString (get_opt (currentChatmate chat) "publicKey")) = Ok key ->
  Joi_string_allow_null (get (auth_user auth) "publicKeyHash") = true ->
  Joi_string_allow_null (get_opt (currentChatmate chat) "publicKeyHash") = true ->
  exists m : jsobject,
    fst (sendMessage chat auth content timestamp e) = Ok m /\
    get m "messageType" = VStr (str "encrypted") /\
    validateMessage (request_body m) =
    (Z.of_nat (length (stringToArrayBuffer content)) + Z.of_nat t <=? 1488).
Proof.
  intros Hexp Hglobal Hchannel Hpub Hkey Hsender Hreceiver.
  unfold sendMessage. rewrite bool_decide_eq_false_2 by exact Hglobal.
  rewrite Hpub. cbn [negb andb].
  rewrite (encryptMessage_run _ _ _ key e Hkey). cbn [fst].
  eexists. split; [reflexivity|].
  match goal with |- context [request_body ?M] => set (m := M) end.
  assert (get m "senderName" = VStr (base64_encode
            (sealed_bytes (encode_arg (get (auth_user auth) "username")) key e))) as H1.
  { unfold m, get. rewrite lookup_insert_eq. cbn [default from_option id].
    rewrite lookup_insert_eq. reflexivity. }
  assert (get m "message" = VStr (base64_encode
            (sealed_bytes content key (fun i => e (12 + i)%nat)))) as H2.
  { unfold m, get. rewrite lookup_insert_ne, lookup_insert_eq by discriminate.
    cbn [default from_option id].
    rewrite lookup_insert_ne, lookup_insert_eq by discriminate. reflexivity. }
  assert (get m "timestamp" = VStr (base64_encode
            (sealed_bytes timestamp key (fun i => e (24 + i)%nat)))) as H3.
  { unfold m, get. do 2 (rewrite lookup_insert_ne by discriminate).
    rewrite lookup_insert_eq. cbn [default from_option id].
    do 3 (rewrite lookup_insert_ne by discriminate).
    rewrite lookup_insert_eq. reflexivity. }
  assert (get m "channel" = VStr (currentChannel chat)) as H4.
  { unfold m, get. do 3 (rewrite lookup_insert_ne by discriminate).
    rewrite lookup_insert_eq. cbn [default from_option id].
    do 2 (rewrite lookup_insert_ne by discriminate).
    rewrite lookup_insert_eq. reflexivity. }
  assert (get m "senderPublicKeyHash" = get (auth_user auth) "publicKeyHash") as H5.
  { unfold m. unfold get at 1. do 4 (rewrite lookup_insert_ne by discriminate).
    rewrite lookup_insert_eq. cbn [default from_option id].
    unfold get at 1. do 4 (rewrite lookup_insert_ne by discriminate).
    rewrite lookup_insert_eq. reflexivity. }
  assert (get m "receiverPublicKeyHash"
          = js_or (get_opt (currentChatmate chat) "publicKeyHash") VNull) as H6.
  { unfold m. unfold get at 1. do 5 (rewrite lookup_insert_ne by discriminate).
    rewrite lookup_insert_eq. cbn [default from_option id].
    unfold get at 1. do 5 (rewrite lookup_insert_ne by discriminate).
    rewrite lookup_insert_eq. reflexivity. }
  assert (get m "messageType" = VStr (str "encrypted")) as H7.
  { unfold m, get. do 6 (rewrite lookup_insert_ne by discriminate).
    rewrite lookup_insert_eq. reflexivity. }
  assert (dom m = (list_to_set message_fields : gset string)) as Hdom.
  { unfold m. rewrite !dom_insert_L, dom_empty_L. reflexivity. }
  split; [exact H7|].
  unfold validateMessage. rewrite !get_request_body.
  rewrite H1, H2, H3, H4, H5, H6, H7. rewrite !JSON_value_string.
  cbn [default from_option id].
  rewrite bool_decide_eq_true_2
    by (apply request_body_dom; rewrite Hdom; reflexivity).
  rewrite !(sealed_blob_required t) by exact Hexp.
  rewrite (sealed_blob_length t) by exact Hexp.
  rewrite Joi_string_allow_null_sent by exact Hsender.
  rewrite Joi_string_allow_null_or by exact Hreceiver.
  assert (Joi_string_required (VStr (currentChannel chat)) = true) as ->
    by (destruct (currentChannel chat); [contradiction|reflexivity]).
  rewrite bool_decide_eq_true_2
    by (unfold messageTypes; repeat first [apply list_elem_of_here
                                           | apply list_elem_of_further]).
  cbn [andb]. rewrite !andb_true_r.
  set (n := Z.of_nat (length (stringToArrayBuffer content))).
  assert (0 <= n) as Hn by (unfold n; lia).
  replace (1 <=? 4 * ((12 + n + Z.of_nat t + 2) / 3)) with true
    by (symmetry; apply Z.leb_le; arith).
  cbn [andb].
  destruct (Z.leb_spec (n + Z.of_nat t) 1488) as [Hle|Hgt].
  - apply Z.leb_le. arith.
  - apply Z.leb_gt. arith.
Qed.

(** X28. A message typed on the public channel passes [validateMessage]:
    the text that the chat box sends of at most 2000 typed characters, under
    a user name and a time stamp that are not empty. *)
Theorem public_message_validated
    (chat : ChatState) (auth : AuthState) (message content name timestamp : jsstring)
    (e : entropy) :
  currentChannel chat = str "global" ->
  handleSend message false = Some content ->
  Z.of_nat (length message) <= 2000 ->
  get (auth_user auth) "username" = VStr name -> name <> [] -> timestamp <> [] ->
  Joi_string_allow_null (get (auth_user auth) "publicKeyHash") = true ->
  Joi_string_allow_null (get_opt (currentChatmate chat) "publicKeyHash") = true ->
  exists m : jsobject,
    fst (sendMessage chat auth content timestamp e) = Ok m /\
    get m "message" = VStr content /\
    validateMessage (request_body m) = true.
Proof.
  intros Hglobal Hsend Hlen Hname Hne Hts Hsender Hreceiver.
  assert (content = String_trim message /\ content <> []) as [Htrim Hcontent].
  { unfold handleSend in Hsend. cbn [ToBoolean] in Hsend.
    destruct (String_trim message) as [|u rest]; [discriminate|].
    cbn [negb orb] in Hsend. injection Hsend as <-. split; [reflexivity|discriminate]. }
  pose proof (String_trim_length message) as Hshort. rewrite <- Htrim in Hshort.
  unfold sendMessage. rewrite bool_decide_eq_true_2 by exact Hglobal.
  cbn [negb andb]. unfold io_ret. cbn [fst].
  eexists. split; [reflexivity|].
  match goal with |- context [request_body ?M] => set (m := M) end.
  assert (get m "senderName" = VStr name) as H1.
  { unfold m, get. rewrite lookup_insert_eq. cbn [default from_option id].
    fold (get (auth_user auth) "username"). exact Hname. }
  assert (get m "message" = VStr content) as H2.
  { unfold m, get. rewrite lookup_insert_ne, lookup_insert_eq by discriminate.
    reflexivity. }
  assert (get m "channel" = VStr (str "global")) as H3.
  { unfold m, get. do 2 (rewrite lookup_insert_ne by discriminate).
    rewrite lookup_insert_eq. rewrite Hglobal. reflexivity. }
  assert (get m "timestamp" = VStr timestamp) as H4.
  { unfold m, get. do 3 (rewrite lookup_insert_ne by discriminate).
    rewrite lookup_insert_eq. reflexivity. }
  assert (get m "senderPublicKeyHash" = get (auth_user auth) "publicKeyHash") as H5.
  { unfold m. unfold get at 1. do 4 (rewrite lookup_insert_ne by discriminate).
    rewrite lookup_insert_eq. reflexivity. }
  assert (get m "receiverPublicKeyHash"
          = js_or (get_opt (currentChatmate chat) "publicKeyHash") VNull) as H6.
  { unfold m. unfold get at 1. do 5 (rewrite lookup_insert_ne by discriminate).
    rewrite lookup_insert_eq. reflexivity. }
  assert (get m "messageType" = VStr (str "text")) as H7.
  { unfold m, get. do 6 (rewrite lookup_insert_ne by discriminate).
    rewrite lookup_insert_eq. reflexivity. }
  assert (dom m = (list_to_set message_fields : gset string)) as Hdom.
  { unfold m. rewrite !dom_insert_L, dom_empty_L. reflexivity. }
  split; [exact H2|].
  unfold validateMessage. rewrite !get_request_body.
  rewrite H1, H2, H3, H4, H5, H6, H7. rewrite !JSON_value_string.
  cbn [default from_option id].
  rewrite bool_decide_eq_true_2
    by (apply request_body_dom; rewrite Hdom; reflexivity).
  rewrite Joi_string_allow_null_sent by exact Hsender.
  rewrite Joi_string_allow_null_or by exact Hreceiver.
  assert (Joi_string_required (VStr name) = true) as ->
    by (destruct name; [contradiction|reflexivity]).
  assert (Joi_string_required (VStr timestamp) = true) as ->
    by (destruct timestamp; [contradiction|reflexivity]).
  rewrite bool_decide_eq_true_2
    by (unfold messageTypes; repeat first [apply list_elem_of_here
                                           | apply list_elem_of_further]).
  cbn [andb Joi_string_required str].
  assert (1 <= Z.of_nat (length content)) as Hpos
    by (destruct content; [contradiction|cbn [length]; lia]).
  rewrite (proj2 (Z.leb_le 1 _)) by exact Hpos.
  rewrite (proj2 (Z.leb_le _ 2000)) by lia.
  reflexivity.
Qed.

End Validation.

Lemma sealed_message_validated_witness :
  gcm_expansion (host := toy) 2 /\
  currentChannel toy_private_chat <> str "global" /\
  currentChannel toy_private_chat <> [] /\
  ToBoolean (get_opt (currentChatmate toy_private_chat) "publicKey") = true /\
  deriveSharedSecret (host := toy) (auth_privateKey toy_auth)
    (ToString (get_opt (currentChatmate toy_private_chat) "publicKey"))
    = Ok (byte_of_Z 165) /\
  Joi_string_allow_null (get (auth_user toy_auth) "publicKeyHash") = true /\
  Joi_string_allow_null (get_opt (currentChatmate toy_private_chat) "publicKeyHash") = true /\
  exists m : jsobject,
    fst (sendMessage (host := toy) toy_private_chat toy_auth (str "hi") (str "t0")
           toy_entropy) = Ok m /\
    get m "messageType" = VStr (str "encrypted") /\
    validateMessage (request_body m) =
    (Z.of_nat (length (stringToArrayBuffer (str "hi"))) + Z.of_nat 2 <=? 1488).
Proof.
  assert (currentChannel toy_private_chat <> str "global") as Hg by discriminate.
  assert (currentChannel toy_private_chat <> []) as Hc by discriminate.
  split; [exact toy_gcm_expansion|]. split; [exact Hg|]. split; [exact Hc|].
  split; [reflexivity|]. split; [reflexivity|].
  split; [reflexivity|]. split; [reflexivity|].
  exact (sealed_message_validated (host := toy) 2 toy_private_chat toy_auth (str "hi")
           (str "t0") toy_entropy (byte_of_Z 165) toy_gcm_expansion Hg Hc
           eq_refl eq_refl eq_refl eq_refl).
Defined.

Lemma public_message_validated_witness :
  currentChannel global_chat = str "global" /\
  handleSend (str " hi ") false = Some (str "hi") /\
  Z.of_nat (length (str " hi ")) <= 2000 /\
  get (auth_user toy_auth) "username" = VStr (str "alice") /\
  str "alice" <> [] /\ str "t0" <> [] /\
  Joi_string_allow_null (get (auth_user toy_auth) "publicKeyHash") = true /\
  Joi_string_allow_null (get_opt (currentChatmate global_chat) "publicKeyHash") = true /\
  exists m : jsobject,
    fst (sendMessage (host := toy) global_chat toy_auth (str "hi") (str "t0") toy_entropy)
      = Ok m /\
    get m "message" = VStr (str "hi") /\
    validateMessage (request_body m) = true.
Proof.
  assert (Z.of_nat (length (str " hi ")) <= 2000) as Hlen by (cbn; lia).
  assert (str "alice" <> []) as Hn by discriminate.
  assert (str "t0" <> []) as Ht by discriminate.
  split; [reflexivity|]. split; [reflexivity|]. split; [exact Hlen|].
  split; [reflexivity|]. split; [exact Hn|]. split; [exact Ht|].
  split; [reflexivity|]. split; [reflexivity|].
  exact (public_message_validated (host := toy) global_chat toy_auth (str " hi ")
           (str "hi") (str "alice") (str "t0") toy_entropy
           eq_refl eq_refl Hlen eq_refl Hn Ht eq_refl eq_refl).
Defined.

(** ** The user name *)

Lemma is_word_char_ascii (u : Z) : is_word_char u = true -> 0 <= u < 128.
Proof.
  unfold is_word_char.
  rewrite !orb_true_iff, !andb_true_iff, !Z.leb_le, Z.eqb_eq. lia.
Qed.

Lemma is_word_char_lower (u : Z) :
  is_word_char u = true -> is_word_char (ascii_lower u) = true.
Proof.
  unfold is_word_char. intros Hu.
  rewrite !orb_true_iff, !andb_true_iff, !Z.leb_le, Z.eqb_eq in Hu.
  assert (ascii_lower u = u + 32 /\ 65 <= u <= 90 \/
          ascii_lower u = u /\ ~ 65 <= u <= 90) as [[-> Hup] | [-> Hup]].
  { unfold ascii_lower.
    destruct (Z.leb_spec 65 u); destruct (Z.leb_spec u 90); cbn [andb]; lia. }
  - rewrite !orb_true_iff, !andb_true_iff, !Z.leb_le, Z.eqb_eq. lia.
  - rewrite !orb_true_iff, !andb_true_iff, !Z.leb_le, Z.eqb_eq. lia.
Qed.

Section Username.
Context {host : Platform}.

(** X19. The registration page and the server agree on the user name: the
    server's rule accepts a string exactly when [isValidUsername] does, and
    the lower-cased name that [register] sends for a name the page let pass
    is accepted by both. *)
Theorem username_rules_agree (username password : jsstring) (e : entropy) :
  Joi_username (VStr username) = isValidUsername username /\
  (toLowerCase_ascii -> isValidUsername username = true ->
   exists req : RegistrationRequest,
     fst (register username password e) = Ok req /\
     isValidUsername (reg_username req) = true /\
     Joi_username (VStr (reg_username req)) = true).
Proof.
  assert (forall s, Joi_username (VStr s) = isValidUsername s) as Hagree.
  { intros s. unfold Joi_username, isValidUsername.
    destruct s as [|u rest]; [reflexivity|].
    cbn [Joi_string_required andb].
    destruct (forallb is_word_char (u :: rest)); cbn [andb];
      [|rewrite andb_false_r; reflexivity].
    replace (1 <=? Z.of_nat (length (u :: rest))) with true
      by (symmetry; apply Z.leb_le; cbn [length]; lia).
    rewrite andb_true_r. reflexivity. }
  split; [apply Hagree|].
  intros Hlower Hvalid.
  destruct (register_runs username password e) as (req & Hreq & Hname & _).
  exists req. split; [exact Hreq|].
  assert (isValidUsername (reg_username req) = true) as Hreg.
  { rewrite Hname. unfold isValidUsername in *.
    rewrite !andb_true_iff in Hvalid. destruct Hvalid as [[Hchars Hmin] Hmax].
    rewrite forallb_forall in Hchars.
    rewrite Hlower
      by (apply List.Forall_forall; intros u Hu; apply is_word_char_ascii, Hchars, Hu).
    rewrite length_map, Hmin, Hmax, !andb_true_r.
    apply forallb_forall. intros u Hu. apply in_map_iff in Hu as (v & <- & Hv).
    apply is_word_char_lower, Hchars, Hv. }
  split; [exact Hreg|]. rewrite Hagree. exact Hreg.
Qed.

End Username.

Lemma toy_toLowerCase_ascii : toLowerCase_ascii (host := toy).
Proof. intros s _. reflexivity. Qed.

Example username_too_short : isValidUsername (str "a") = false.
Proof. reflexivity. Qed.

Example username_with_space : Joi_username (VStr (str "al ice")) = false.
Proof. reflexivity. Qed.

Lemma username_rules_agree_witness :
  Joi_username (VStr (str "Alice_1")) = isValidUsername (str "Alice_1") /\
  exists req : RegistrationRequest,
    fst (register (host := toy) (str "Alice_1") (str "pw") toy_entropy) = Ok req /\
    isValidUsername (reg_username req) = true /\
    Joi_username (VStr (reg_username req)) = true.
Proof.
  destruct (username_rules_agree (host := toy) (str "Alice_1") (str "pw") toy_entropy)
    as [Hagree Hsent].
  split; [exact Hagree|]. exact (Hsent toy_toLowerCase_ascii eq_refl).
Defined.

(** ** Generated keys *)

Section Generated.
Context {host : Platform}.

(** X8. The key pairs that [generateECDHKeyPair] returns are valid, and
    any two of them agree on the shared secret: each party derives, from
    its own private key and the other's public key, the same AES key. *)
Theorem generateECDHKeyPair_valid (e1 e2 : entropy) :
  jwk_round_trip -> ec_mul_law ->
  exists (A B : KeyPair) (key : aes_key),
    fst (generateECDHKeyPair e1) = Ok A /\
    fst (generateECDHKeyPair e2) = Ok B /\
    valid_key_pair A /\ valid_key_pair B /\
    deriveSharedSecret (privateKey A) (publicKey B) = Ok key /\
    deriveSharedSecret (privateKey B) (publicKey A) = Ok key.
Proof.
  intros [Hpriv Hpub] Hlaw. unfold generateECDHKeyPair.
  destruct (ec_generate e1) as [a e1'], (ec_generate e2) as [b e2']. cbn [fst].
  eexists _, _, (aes_import (ecdh_bits a (ec_mul b ec_base) AES_KEY_LENGTH)).
  split; [reflexivity|]. split; [reflexivity|].
  cbn [privateKey publicKey].
  split; [exists a; split; [apply Hpriv|apply Hpub]|].
  split; [exists b; split; [apply Hpriv|apply Hpub]|].
  split.
  - apply deriveSharedSecret_imported; [apply Hpriv|apply Hpub].
  - rewrite (deriveSharedSecret_imported _ _ b (ec_mul a ec_base))
      by (first [apply Hpriv|apply Hpub]).
    unfold ecdh_bits. rewrite (ecdh_point_symmetric b a Hlaw). reflexivity.
Qed.

End Generated.

Lemma toy_jwk_round_trip : jwk_round_trip (host := toy).
Proof.
  split; intros n; cbn [jwk_import_private jwk_import_public jwk_export_private
                         jwk_export_public toy]; reflexivity.
Qed.

Lemma generateECDHKeyPair_valid_witness :
  jwk_round_trip (host := toy) /\ ec_mul_law (host := toy) /\
  exists (A B : KeyPair) (key : byte),
    fst (generateECDHKeyPair (host := toy) toy_entropy) = Ok A /\
    fst (generateECDHKeyPair (host := toy) (fun i => toy_entropy (3 + i)%nat)) = Ok B /\
    valid_key_pair (host := toy) A /\ valid_key_pair (host := toy) B /\
    deriveSharedSecret (host := toy) (privateKey A) (publicKey B) = Ok key /\
    deriveSharedSecret (host := toy) (privateKey B) (publicKey A) = Ok key.
Proof.
  split; [exact toy_jwk_round_trip|]. split; [exact toy_ec_mul_law|].
  exact (generateECDHKeyPair_valid (host := toy) toy_entropy
           (fun i => toy_entropy (3 + i)%nat) toy_jwk_round_trip toy_ec_mul_law).
Defined.

(** ** The sender of a stored message *)

Lemma strict_equals_string (s : jsstring) (v : jsval) :
  strict_equals (VStr s) v = false -> VStr s <> v.
Proof.
  intros Hne Heq. subst v. cbn [strict_equals] in Hne.
  rewrite bool_decide_eq_true_2 in Hne by reflexivity. discriminate.
Qed.

Lemma strict_equals_other (s : jsstring) (v : jsval) :
  VStr s <> v -> strict_equals (VStr s) v = false.
Proof.
  intros Hne. destruct v as [| |b|text|s']; cbn [strict_equals]; try reflexivity.
  apply bool_decide_eq_false_2. intros ->. apply Hne. reflexivity.
Qed.

(** The answer of the route, case by case. *)
Lemma post_message_cases (user body : jsobject) :
  match post_message user body with
  | BadRequest => validateMessage body = false
  | Forbidden =>
      validateMessage body = true /\
      ToBoolean (get body "senderPublicKeyHash") = true /\
      get body "senderPublicKeyHash" <> get user "publicKeyHash"
  | Created sender =>
      validateMessage body = true /\
      (ToBoolean (get body "senderPublicKeyHash") = true ->
       get body "senderPublicKeyHash" = get user "publicKeyHash") /\
      (sender = get user "publicKeyHash" \/
       ToBoolean (get user "publicKeyHash") = false /\
       sender = get body "senderPublicKeyHash" /\ ToBoolean sender = false)
  end.
Proof.
  unfold post_message.
  destruct (validateMessage body) eqn:Hvalid; cbn [negb]; [|reflexivity].
  assert (Joi_string_allow_null (get body "senderPublicKeyHash") = true) as Hjoi.
  { unfold validateMessage in Hvalid. rewrite !andb_true_iff in Hvalid. tauto. }
  destruct (ToBoolean (get body "senderPublicKeyHash")) eqn:Htruthy; cbn [andb].
  - destruct (get body "senderPublicKeyHash") as [| |b|text|s] eqn:Hsender;
      try discriminate.
    destruct (strict_equals (VStr s) (get user "publicKeyHash")) eqn:Heq; cbn [negb].
    + assert (VStr s = get user "publicKeyHash") as Hsame.
      { destruct (get user "publicKeyHash") as [| |b|text|s'];
          cbn [strict_equals] in Heq; try discriminate.
        apply bool_decide_eq_true in Heq. subst s'. reflexivity. }
      split; [reflexivity|]. split; [intros _; exact Hsame|]. left.
      rewrite <- Hsame. unfold js_or. rewrite Htruthy. reflexivity.
    + split; [reflexivity|]. split; [reflexivity|].
      apply strict_equals_string. exact Heq.
  - split; [reflexivity|]. split; [discriminate|]. unfold js_or.
    destruct (ToBoolean (get user "publicKeyHash")) eqn:Huser.
    + left. reflexivity.
    + right. split; [reflexivity|]. split; [reflexivity|exact Htruthy].
Qed.

(** X29. The route that stores a message never stores it under another
    sender than the holder of the token.  It answers 400 exactly when the
    message does not validate, and 403 exactly when a validated message
    names a sender (a truthy [senderPublicKeyHash]) other than
    [req.user]'s; so a message is stored only when it validates and names
    no sender or the holder of the token, and then it gets the
    [publicKeyHash] of [req.user], or, when that is missing, the falsy one
    of the request. *)
Theorem post_message_sender (user body : jsobject) :
  (post_message user body = BadRequest <-> validateMessage body = false) /\
  (post_message user body = Forbidden <->
   validateMessage body = true /\
   ToBoolean (get body "senderPublicKeyHash") = true /\
   get body "senderPublicKeyHash" <> get user "publicKeyHash") /\
  (forall sender : jsval,
     post_message user body = Created sender ->
     validateMessage body = true /\
     (ToBoolean (get body "senderPublicKeyHash") = true ->
      get body "senderPublicKeyHash" = get user "publicKeyHash") /\
     (sender = get user "publicKeyHash" \/
      ToBoolean (get user "publicKeyHash") = false /\
      sender = get body "senderPublicKeyHash" /\ ToBoolean sender = false)).
Proof.
  pose proof (post_message_cases user body) as Hcases.
  split; [|split].
  - split.
    + intros Hbad. rewrite Hbad in Hcases. exact Hcases.
    + intros Hinvalid. unfold post_message. rewrite Hinvalid. reflexivity.
  - split.
    + intros Hforbidden. rewrite Hforbidden in Hcases. exact Hcases.
    + intros (Hvalid & Htruthy & Hother).
      assert (Joi_string_allow_null (get body "senderPublicKeyHash") = true) as Hjoi.
      { unfold validateMessage in Hvalid. rewrite !andb_true_iff in Hvalid. tauto. }
      unfold post_message. rewrite Hvalid, Htruthy. cbn [negb andb].
      destruct (get body "senderPublicKeyHash") as [| |b|text|s];
        try discriminate.
      rewrite (strict_equals_other s _ Hother). reflexivity.
  - intros sender Hcreated. rewrite Hcreated in Hcases. exact Hcases.
Qed.

Example post_message_spoofed :
  post_message (auth_user toy_auth) toy_spoofed_message = Forbidden.
Proof. vm_compute. reflexivity. Qed.

Example post_message_own :
  post_message (auth_user toy_auth) (request_body global_message)
  = Created (VStr (str "aa")).
Proof. vm_compute. reflexivity. Qed.
